(** * CBT system backend: exam attempt lifecycle, scoring and answer evaluation

    A shallow embedding of the attempt engine of the CBT backend.  The
    repository carries two generations of the same entities:

    - the JavaScript models [Question], [Exam] and [Attempt] and the routers
      of exams and attempts, which are the only place where attempts are
      really started, answered and submitted; they live in [Module Legacy];
    - the TypeScript models [Question], [Exam] and [ExamAttempt], whose
      routes are placeholders; they live in [Module Typed].

    A JavaScript number is modelled by the rational it denotes ([Q]);
    infinities and NaN are not modelled.  The percentages, and the score of
    the TypeScript attempt, are computed in double arithmetic: their
    quotients, products and sums are rounded to the nearest double
    ([JsNum.fl]).  The totals of points of the JavaScript routes, the
    counts and the times are sums and differences that are written exactly.
    Dates are their millisecond time stamps ([Z]).  Strings are [string],
    i.e. sequences of bytes: case mapping and white space are the ASCII
    ones, so the string functions are those of JavaScript on ASCII text
    ([JsStr.is_ascii]). *)

From Stdlib Require Import ZArith QArith Qround Qabs Qpower Bool List String Ascii Lia Lqa.
From stdpp Require Import base list strings gmap.
Import ListNotations.

Set Warnings "-register-all".
Local Open Scope Q_scope.

(** ** JavaScript numbers *)

Module JsNum.

(** [Math.round x]: the integer nearest to [x], ties towards plus infinity. *)
Definition Math_round (x : Q) : Z := Qfloor (x + (1 # 2)).

(** [Math.floor (a / b)] on integers. *)
Definition Math_floor_div (a b : Z) : Z := (a / b)%Z.

(** [x || d] on numbers: [0] is falsy. *)
Definition or_default (x d : Q) : Q := if Qeq_bool x 0 then d else x.

(** [x >= y] and [x > y]. *)
Definition ge (x y : Q) : bool := Qle_bool y x.
Definition gt (x y : Q) : bool := negb (Qle_bool x y).

(** [Math.max 0 x] on integers. *)
Definition Math_max0 (x : Z) : Z := Z.max 0 x.

(** *** Double precision

    The integer part of the binary logarithm of a positive rational. *)
Definition ilog2 (q : Q) : Z :=
  let k := (Z.log2 (Qnum q) - Z.log2 (Zpos (Qden q)))%Z in
  if Qle_bool (2 ^ k) q then k else (k - 1)%Z.

(** The integer nearest to [y], ties to the even one. *)
Definition round_even (y : Q) : Z :=
  let f := Qfloor y in
  match Qcompare (y - inject_Z f) (1 # 2) with
  | Lt => f
  | Gt => (f + 1)%Z
  | Eq => if Z.even f then f else (f + 1)%Z
  end.

(** The exponent of the unit in the last place of the double nearest to
    [x]: 53 significant bits, and no less than [-1074], the exponent of the
    subnormal numbers. *)
Definition exponent (x : Q) : Z := Z.max (-1074) (ilog2 (Qabs x) - 52).

(** [fl x]: the double nearest to [x], ties to even (IEEE 754 binary64,
    the rounding of every arithmetic operator of JavaScript).  The numbers
    of the model are the finite ones: where JavaScript rounds to an
    infinity, [fl] gives a rational of magnitude [2^1024] or more, which
    compares with every double as that infinity does. *)
Definition fl (x : Q) : Q :=
  if Qeq_bool x 0 then 0
  else Qred (inject_Z (round_even (x / 2 ^ exponent x)) * 2 ^ exponent x).

(** [x + y], [x * y] and [x / y] on numbers. *)
Definition add (x y : Q) : Q := fl (x + y).
Definition mul (x y : Q) : Q := fl (x * y).
Definition div (x y : Q) : Q := fl (x / y).

(** The rationals that are doubles: a significand of at most 53 bits at an
    exponent of at least [-1074]. *)
Definition is_double (y : Q) : Prop :=
  exists m e : Z,
    (Z.abs m < 2 ^ 53)%Z /\ (-1074 <= e)%Z /\ y == inject_Z m * 2 ^ e.

End JsNum.

(** ** JavaScript strings *)

Module JsStr.

Local Open Scope string_scope.

(** White space as [trim] and the regular expression class [\s] see it, on
    the ASCII range: TAB, LF, VT, FF, CR and SPACE. *)
Definition is_space (c : ascii) : bool :=
  let n := nat_of_ascii c in
  ((9 <=? n)%nat && (n <=? 13)%nat) || (n =? 32)%nat.

Definition lower_char (c : ascii) : ascii :=
  let n := nat_of_ascii c in
  if ((65 <=? n)%nat && (n <=? 90)%nat) then ascii_of_nat (n + 32) else c.

(** The texts on which this module is JavaScript's: every character is an
    ASCII one. *)
Definition is_ascii (s : string) : bool :=
  forallb (fun c => (nat_of_ascii c <? 128)%nat) (list_ascii_of_string s).

(** [s.toLowerCase()], on ASCII text. *)
Fixpoint toLowerCase (s : string) : string :=
  match s with
  | EmptyString => EmptyString
  | String c s' => String (lower_char c) (toLowerCase s')
  end.

Fixpoint trimStart (s : string) : string :=
  match s with
  | EmptyString => EmptyString
  | String c s' => if is_space c then trimStart s' else s
  end.

Fixpoint trimEnd (s : string) : string :=
  match s with
  | EmptyString => EmptyString
  | String c s' =>
      match trimEnd s' with
      | EmptyString => if is_space c then EmptyString else String c EmptyString
      | r => String c r
      end
  end.

(** [s.trim()] *)
Definition trim (s : string) : string := trimEnd (trimStart s).

(** [s.replace(/\s+/g, ' ')]: every maximal run of white space becomes one
    space.  [in_run] tells that the previous character was white space, so
    the run has already been replaced. *)
Fixpoint collapse_from (in_run : bool) (s : string) : string :=
  match s with
  | EmptyString => EmptyString
  | String c s' =>
      if is_space c
      then (if in_run then collapse_from true s'
            else String " "%char (collapse_from true s'))
      else String c (collapse_from false s')
  end.

Definition collapse_spaces (s : string) : string := collapse_from false s.

Definition starts_with_space (s : string) : bool :=
  match s with
  | EmptyString => false
  | String c _ => is_space c
  end.

Fixpoint join (sep : string) (l : list string) : string :=
  match l with
  | [] => EmptyString
  | [x] => x
  | x :: rest => x ++ sep ++ join sep rest
  end.

End JsStr.

(** ** JavaScript values carried by answers

    The answer of a student and the answer key of a legacy question are
    [Mixed] values.  The values modelled are the JSON ones the schemas
    document for them: null, booleans, strings and arrays (numbers and
    objects are left out). *)

Inductive JsValue : Type :=
| JUndefined
| JNull
| JBool (b : bool)
| JStr (s : string)
| JArr (l : list JsValue).

Module JsVal.

Local Open Scope string_scope.

(** Truthiness: [!v] is [negb (truthy v)]. *)
Definition truthy (v : JsValue) : bool :=
  match v with
  | JUndefined | JNull => false
  | JBool b => b
  | JStr s => negb (String.eqb s "")
  | JArr _ => true
  end.

Definition isArray (v : JsValue) : bool :=
  match v with JArr _ => true | _ => false end.

(** [a === b].  Two arrays are equal only when they are the same object;
    an array of the request body and an array of a stored document never
    are, so arrays compare unequal. *)
Definition strict_eq (a b : JsValue) : bool :=
  match a, b with
  | JUndefined, JUndefined => true
  | JNull, JNull => true
  | JBool x, JBool y => Bool.eqb x y
  | JStr x, JStr y => String.eqb x y
  | _, _ => false
  end.

(** [arr.includes(v)] ([SameValueZero] agrees with [===] on these values). *)
Definition includes (arr : list JsValue) (v : JsValue) : bool :=
  existsb (fun x => strict_eq x v) arr.

(** [String(v)].  Inside [Array.prototype.join], null and undefined elements
    print as the empty string. *)
Fixpoint toString (v : JsValue) : string :=
  match v with
  | JUndefined => "undefined"
  | JNull => "null"
  | JBool true => "true"
  | JBool false => "false"
  | JStr s => s
  | JArr l =>
      JsStr.join ","
        (List.map (fun x => match x with
                            | JUndefined | JNull => ""
                            | _ => toString x
                            end) l)
  end.

End JsVal.

(** Time stamps (milliseconds). *)
Definition Date := Z.
Bind Scope Z_scope with Date.

(** Document identifiers.  An [ObjectId] is held in its canonical form, the
    24 lowercase hexadecimal digits that its [toString()] prints. *)
Definition ObjectId := string.
Bind Scope string_scope with ObjectId.

Module ObjId.

Definition eqb (a b : ObjectId) : bool := String.eqb a b.

(** [id.toString()] *)
Definition toString (id : ObjectId) : string := id.

Definition is_hex_digit (c : ascii) : bool :=
  let n := nat_of_ascii c in
  ((48 <=? n)%nat && (n <=? 57)%nat)
  || ((65 <=? n)%nat && (n <=? 70)%nat)
  || ((97 <=? n)%nat && (n <=? 102)%nat).

Fixpoint all_hex (s : string) : bool :=
  match s with
  | EmptyString => true
  | String c s' => is_hex_digit c && all_hex s'
  end.

(** Casting a string of a request to an [ObjectId], as a query or an
    assignment to a document does: 24 hexadecimal digits, in either case,
    name the identifier; any other string throws a [CastError]. *)
Definition cast (s : string) : option ObjectId :=
  if Nat.eqb (String.length s) 24 && all_hex s
  then Some (JsStr.toLowerCase s) else None.

End ObjId.

(** * The TypeScript models *)

Module Typed.

(** ** The [Question] model *)

Inductive QuestionType :=
| mcq_single | mcq_multiple | true_false | short_answer | essay.

Record QOption := mkQOption {
  text : string;
  opt_isCorrect : bool;
  opt_order : Q
}.

Record Question := mkQuestion {
  q_id : ObjectId;
  q_examId : ObjectId;
  type : QuestionType;
  options : list QOption;
  correctAnswers : list string;
  marks : Q;
  negativeMarks : Q
}.

(** [questionSchema.methods.isCorrect] *)
Definition isCorrect (this : Question) (answer : JsValue) : bool :=
  match type this with
  | mcq_single =>
      match answer with
      | JStr a =>
          if negb (JsVal.truthy answer) then false
          else match List.find opt_isCorrect (options this) with
               | Some correctOption => String.eqb (text correctOption) a
               | None => false
               end
      | _ => false
      end
  | mcq_multiple =>
      match answer with
      | JArr arr =>
          let correctOptions :=
            List.map text (List.filter opt_isCorrect (options this)) in
          if negb (Nat.eqb (List.length arr) (List.length correctOptions))
          then false
          else forallb (fun correct => JsVal.includes arr (JStr correct))
                       correctOptions
      | _ => false
      end
  | true_false =>
      match answer with
      | JBool b =>
          let correctBool :=
            match List.find opt_isCorrect (options this) with
            | Some o => String.eqb (text o) "True"
            | None => false
            end in
          Bool.eqb b correctBool
      | _ => false
      end
  | short_answer =>
      match answer with
      | JStr a =>
          if negb (JsVal.truthy answer) then false
          else existsb
                 (fun correct =>
                    String.eqb (JsStr.trim (JsStr.toLowerCase a))
                               (JsStr.trim (JsStr.toLowerCase correct)))
                 (correctAnswers this)
      | _ => false
      end
  | essay =>
      (* Essay questions require manual grading *)
      false
  end.

(** [questionSchema.methods.calculateMarks] *)
Definition calculateMarks (this : Question) (answer : JsValue) : Q :=
  if isCorrect this answer then marks this
  else if JsNum.gt (negativeMarks this) 0 then - negativeMarks this
  else 0.

(** The two methods together are what the question evaluator returns for
    an answer.  [isCorrect] is a boolean method, so the correctness flag it
    contributes is never null. *)
Record Evaluation := mkEvaluation {
  ev_isCorrect : option bool;
  ev_marksAwarded : Q
}.

Definition evaluate (this : Question) (answer : JsValue) : Evaluation :=
  mkEvaluation (Some (isCorrect this answer)) (calculateMarks this answer).

(** ** The [Exam] model (the fields the attempt engine reads) *)

Record Exam := mkExam {
  e_id : ObjectId;
  duration : Q;
  passMark : Q;
  maxAttempts : Z;
  allowRetake : bool;
  negativeMarking : bool;
  negativeMarkingPercentage : Q
}.

(** ** The [ExamAttempt] model *)

Inductive Status :=
| in_progress | submitted | auto_submitted | terminated | abandoned.

Definition Status_eqb (a b : Status) : bool :=
  match a, b with
  | in_progress, in_progress | submitted, submitted
  | auto_submitted, auto_submitted | terminated, terminated
  | abandoned, abandoned => true
  | _, _ => false
  end.

Record Answer := mkAnswer {
  questionId : ObjectId;
  answer : JsValue;
  ans_isCorrect : bool;
  marksAwarded : Q;
  ans_timeTaken : Q;
  isFlagged : bool;
  isReviewed : bool;
  answeredAt : Date
}.

(** [exam] is the document that [this.exam] yields: the schema stores only
    [examId], so it is present only when a caller attached it. *)
Record ExamAttempt := mkExamAttempt {
  examId : ObjectId;
  studentId : ObjectId;
  attemptNumber : Z;
  status : Status;
  startTime : Date;
  endTime : option Date;
  submittedAt : option Date;
  timeTaken : Z;
  score : Q;
  percentage : Q;
  totalMarks : Q;
  passed : bool;
  answers : list Answer;
  exam : option Exam
}.

(** [examAttemptSchema.methods.calculateScore] *)
Definition calculateScore (this : ExamAttempt) : Q :=
  if Nat.eqb (List.length (answers this)) 0 then 0
  else fold_left (fun total a =>
                    JsNum.add total (JsNum.or_default (marksAwarded a) 0))
                 (answers this) 0.

(** [examAttemptSchema.methods.calculatePercentage] *)
Definition calculatePercentage (this : ExamAttempt) : Q :=
  if Qeq_bool (totalMarks this) 0 then 0
  else inject_Z (JsNum.Math_round
                   (JsNum.mul (JsNum.div (score this) (totalMarks this)) 100)).

(** [this.exam?.passMark || 50]: the pass mark of the populated exam, or the
    default. *)
Definition passMarkOrDefault (this : ExamAttempt) : Q :=
  match exam this with
  | Some e => JsNum.or_default (passMark e) 50
  | None => 50
  end.

(** [examAttemptSchema.methods.isPassed] *)
Definition isPassed (this : ExamAttempt) : bool :=
  JsNum.ge (percentage this) (passMarkOrDefault this).

Definition set_timeTaken (v : Z) (a : ExamAttempt) : ExamAttempt :=
  mkExamAttempt (examId a) (studentId a) (attemptNumber a) (status a)
    (startTime a) (endTime a) (submittedAt a) v (score a) (percentage a)
    (totalMarks a) (passed a) (answers a) (exam a).

Definition set_score (v : Q) (a : ExamAttempt) : ExamAttempt :=
  mkExamAttempt (examId a) (studentId a) (attemptNumber a) (status a)
    (startTime a) (endTime a) (submittedAt a) (timeTaken a) v (percentage a)
    (totalMarks a) (passed a) (answers a) (exam a).

Definition set_percentage (v : Q) (a : ExamAttempt) : ExamAttempt :=
  mkExamAttempt (examId a) (studentId a) (attemptNumber a) (status a)
    (startTime a) (endTime a) (submittedAt a) (timeTaken a) (score a) v
    (totalMarks a) (passed a) (answers a) (exam a).

Definition set_passed (v : bool) (a : ExamAttempt) : ExamAttempt :=
  mkExamAttempt (examId a) (studentId a) (attemptNumber a) (status a)
    (startTime a) (endTime a) (submittedAt a) (timeTaken a) (score a)
    (percentage a) (totalMarks a) v (answers a) (exam a).

Definition set_submittedAt (v : option Date) (a : ExamAttempt) : ExamAttempt :=
  mkExamAttempt (examId a) (studentId a) (attemptNumber a) (status a)
    (startTime a) (endTime a) v (timeTaken a) (score a)
    (percentage a) (totalMarks a) (passed a) (answers a) (exam a).

Definition set_endTime (v : option Date) (a : ExamAttempt) : ExamAttempt :=
  mkExamAttempt (examId a) (studentId a) (attemptNumber a) (status a)
    (startTime a) v (submittedAt a) (timeTaken a) (score a)
    (percentage a) (totalMarks a) (passed a) (answers a) (exam a).

(** The four steps of [examAttemptSchema.pre('save')], in source order. *)

(** Calculate time taken *)
Definition pre_save_time (this : ExamAttempt) : ExamAttempt :=
  match endTime this with
  | Some e =>
      set_timeTaken (JsNum.Math_floor_div (e - startTime this) 1000) this
  | None => this
  end.

(** Calculate score and percentage *)
Definition pre_save_score (this : ExamAttempt) : ExamAttempt :=
  if Nat.ltb 0 (List.length (answers this)) then
    let this1 := set_score (calculateScore this) this in
    set_percentage (calculatePercentage this1) this1
  else this.

(** Determine if passed *)
Definition pre_save_passed (this : ExamAttempt) : ExamAttempt :=
  if JsNum.gt (percentage this) 0 then set_passed (isPassed this) this
  else this.

(** Set submitted time; [now] is what [new Date()] returns. *)
Definition pre_save_stamps (now : Date) (this : ExamAttempt) : ExamAttempt :=
  if Status_eqb (status this) submitted
     || Status_eqb (status this) auto_submitted
  then
    let this1 :=
      match submittedAt this with
      | None => set_submittedAt (Some now) this
      | Some _ => this
      end in
    match endTime this1 with
    | None => set_endTime (Some now) this1
    | Some _ => this1
    end
  else this.

Definition pre_save (now : Date) (this : ExamAttempt) : ExamAttempt :=
  pre_save_stamps now (pre_save_passed (pre_save_score (pre_save_time this))).

(** [examSchema.methods.getRemainingAttempts] over the attempt collection. *)
Definition countsAsUsed (e : Exam) (student : ObjectId) (a : ExamAttempt) : bool :=
  ObjId.eqb (examId a) (e_id e) && ObjId.eqb (studentId a) student
  && (Status_eqb (status a) submitted || Status_eqb (status a) auto_submitted).

Definition getRemainingAttempts
    (collection : list ExamAttempt) (this : Exam) (student : ObjectId) : Z :=
  let attempts := Z.of_nat (List.length (List.filter (countsAsUsed this student) collection)) in
  JsNum.Math_max0 (maxAttempts this - attempts).

End Typed.

(** * The JavaScript models and routes

    A collection is a finite map from [_id] to document. *)

Module Legacy.

Local Open Scope string_scope.

(** ** The [Question] model *)

Inductive QuestionType :=
| mcq_single | mcq_multiple | true_false | short_answer.

Definition is_short_answer (t : QuestionType) : bool :=
  match t with short_answer => true | _ => false end.

Record Question := mkQuestion {
  q_exam : ObjectId;
  type : QuestionType;
  correctAnswer : JsValue;
  points : Q;
  isActive : bool
}.

(** [questionSchema.methods.normalizeAnswer] *)
Definition normalizeAnswer (answer : JsValue) : string :=
  JsStr.collapse_spaces (JsStr.trim (JsStr.toLowerCase (JsVal.toString answer))).

(** [questionSchema.methods.validateAnswer] *)
Definition validateAnswer (this : Question) (studentAnswer : JsValue) : bool :=
  match type this with
  | mcq_single => JsVal.strict_eq (correctAnswer this) studentAnswer
  | mcq_multiple =>
      match studentAnswer, correctAnswer this with
      | JArr sa, JArr ca =>
          (* same elements, order does not matter *)
          Nat.eqb (List.length sa) (List.length ca)
          && forallb (fun ans => JsVal.includes ca ans) sa
      | _, _ => false
      end
  | true_false => JsVal.strict_eq (correctAnswer this) studentAnswer
  | short_answer =>
      match correctAnswer this with
      | JArr ca =>
          (* multiple acceptable answers *)
          existsb (fun correctAns =>
                     String.eqb (normalizeAnswer correctAns)
                                (normalizeAnswer studentAnswer)) ca
      | ca => String.eqb (normalizeAnswer ca) (normalizeAnswer studentAnswer)
      end
  end.

(** The accepted answers of a short-answer question, as the strings that
    [validateAnswer] normalizes: the elements of an array key, or the one
    key. *)
Definition acceptedAnswers (this : Question) : list string :=
  match correctAnswer this with
  | JArr ca => List.map JsVal.toString ca
  | ca => [JsVal.toString ca]
  end.

(** ** The [Exam] model *)

Inductive ExamStatus := draft | published | archived.

Record Exam := mkExam {
  duration : Q;
  availableFrom : Date;
  availableTo : Date;
  passMark : Q;
  maxAttempts : Z;
  isRandomized : bool;
  showResults : bool;
  allowRetakes : bool;
  e_status : ExamStatus
}.

(** The virtual [isAvailable], read at time [now]. *)
Definition isAvailable (now : Date) (this : Exam) : bool :=
  (availableFrom this <=? now)%Z && (now <=? availableTo this)%Z.

(** ** The [Attempt] model *)

Inductive Status := in_progress | submitted | graded | abandoned.

Definition Status_eqb (a b : Status) : bool :=
  match a, b with
  | in_progress, in_progress | submitted, submitted
  | graded, graded | abandoned, abandoned => true
  | _, _ => false
  end.

Record Answer := mkAnswer {
  question : ObjectId;
  studentAnswer : JsValue;
  isCorrect : option bool;
  manuallyGraded : bool;
  scoreAwarded : Q;
  timeSpent : Q;
  teacherFeedback : option string
}.

Record Attempt := mkAttempt {
  student : ObjectId;
  exam : ObjectId;
  answers : list Answer;
  startedAt : Date;
  submittedAt : option Date;
  timeRemaining : Q;
  totalScore : Q;
  maxPossibleScore : Q;
  percentage : option Q;
  passed : bool;
  status : Status;
  ipAddress : string;
  userAgent : string
}.

(** The virtual [duration] of an attempt, in seconds. *)
Definition attempt_duration (this : Attempt) : option Z :=
  match submittedAt this with
  | None => None
  | Some s => Some (JsNum.Math_floor_div (s - startedAt this) 1000)
  end.

(** What the references of a loaded attempt hold.  [populatedExam] is the
    exam document when the query populated [exam]; [populatedQuestion]
    gives the document behind an answer's [question] when that path was
    populated.  A reference that was not populated is a bare [ObjectId],
    whose [points] and [passMark] are undefined. *)
Record Populated := mkPopulated {
  populatedExam : option Exam;
  populatedQuestion : ObjectId -> option Question
}.

Definition nothingPopulated : Populated := mkPopulated None (fun _ => None).
Definition examPopulated (e : Exam) : Populated :=
  mkPopulated (Some e) (fun _ => None).

(** [attemptSchema.methods.calculateScores] *)
Definition calculateScores (view : Populated) (this : Attempt) : Attempt :=
  let maxPossibleScore :=
    fold_left (fun acc a =>
                 acc + match populatedQuestion view (question a) with
                       | Some q => JsNum.or_default (points q) 0
                       | None => 0
                       end) (answers this) 0 in
  let totalScore :=
    fold_left (fun acc a => acc + scoreAwarded a) (answers this) 0 in
  let percentage :=
    if JsNum.gt maxPossibleScore 0
    then JsNum.mul (JsNum.div totalScore maxPossibleScore) 100 else 0 in
  let passMark :=
    match populatedExam view with
    | Some e => JsNum.or_default (passMark e) 60
    | None => 60
    end in
  mkAttempt (student this) (exam this) (answers this)
    (startedAt this) (submittedAt this) (timeRemaining this)
    totalScore maxPossibleScore (Some percentage)
    (JsNum.ge percentage passMark) (status this)
    (ipAddress this) (userAgent this).

(** [attemptSchema.pre('save')] *)
Definition pre_save (view : Populated) (this : Attempt) : Attempt :=
  if Nat.ltb 0 (List.length (answers this))
     && negb (Status_eqb (status this) in_progress)
  then calculateScores view this
  else this.

(** The validators the schema declares on [percentage] ([min: 0],
    [max: 100]); they run before the [pre('save')] hook and an absent value
    passes them. *)
Definition schemaValid (this : Attempt) : bool :=
  match percentage this with
  | None => true
  | Some p => Qle_bool 0 p && Qle_bool p 100
  end.

(** [doc.save()]: the document as stored, or [None] when validation throws. *)
Definition save_document (view : Populated) (this : Attempt) : option Attempt :=
  if schemaValid this then Some (pre_save view this) else None.

(** ** The database *)

Record Db := mkDb {
  exams : gmap ObjectId Exam;
  questions : gmap ObjectId Question;
  attempts : gmap ObjectId Attempt
}.

Definition Exam_findById (db : Db) (id : ObjectId) : option Exam :=
  exams db !! id.

Definition Question_findById (db : Db) (id : ObjectId) : option Question :=
  questions db !! id.

(** [Question.find({ exam })] *)
Definition Question_findByExam (db : Db) (examId : ObjectId) : list Question :=
  List.filter (fun q => ObjId.eqb (q_exam q) examId)
              (List.map snd (map_to_list (questions db))).

(** Writing a document: a loaded attempt replaces the stored one of its
    [_id], a new attempt is added under its fresh [_id]. *)
Definition store_attempt (db : Db) (id : ObjectId) (a : Attempt) : Db :=
  mkDb (exams db) (questions db) (<[id := a]> (attempts db)).

(** [Attempt.countDocuments(filter)] *)
Definition countDocuments (p : Attempt -> bool) (db : Db) : nat :=
  List.length (List.filter p (List.map snd (map_to_list (attempts db)))).

(** ** [examSchema.methods.canUserTakeExam] *)

Record CanTake := mkCanTake { canTake : bool; reason : option string }.

Definition countsAsAttempt (examId userId : ObjectId) (a : Attempt) : bool :=
  ObjId.eqb (exam a) examId && ObjId.eqb (student a) userId
  && (Status_eqb (status a) submitted || Status_eqb (status a) graded).

(** [this_id] is [this._id]. *)
Definition canUserTakeExam (now : Date) (db : Db)
    (this_id : ObjectId) (this : Exam) (userId : ObjectId) : CanTake :=
  (* Check if exam is available *)
  if negb (isAvailable now this) then
    mkCanTake false (Some "Exam is not available at this time")
  else
    (* Check if user has exceeded max attempts *)
    let attemptCount :=
      Z.of_nat (countDocuments (countsAsAttempt this_id userId) db) in
    if (maxAttempts this <=? attemptCount)%Z && negb (allowRetakes this) then
      mkCanTake false (Some "Maximum attempts reached")
    else mkCanTake true None.

(** ** Responses *)

Inductive Response (A : Type) : Type :=
| Success (message : string) (data : A)
| Failure (statusCode : nat) (message : string).
Arguments Success {A} message data.
Arguments Failure {A} statusCode message.

Definition is_success {A} (r : Response A) : bool :=
  match r with Success _ _ => true | Failure _ _ => false end.

Definition response_data {A} (r : Response A) : option A :=
  match r with Success _ d => Some d | Failure _ _ => None end.

(** ** The exams router: [POST /:id/start] *)

(** [sr_user] is [req.user._id]; [sr_examId] is the string [req.params.id]. *)
Record StartRequest := mkStartRequest {
  sr_user : ObjectId;
  sr_examId : string;
  sr_ip : string;
  sr_userAgent : string
}.

(** The response also carries the exam and a (possibly random) sample of
    its questions; neither takes part in the attempt's state. *)
Record StartData := mkStartData {
  sd_attemptId : ObjectId;
  sd_attempt : Attempt;
  sd_timeRemaining : Q
}.

(** [new Attempt({ student, exam, startedAt, ipAddress, userAgent })] with
    the schema defaults. *)
Definition new_attempt (now : Date) (req : StartRequest) (examId : ObjectId)
    : Attempt :=
  mkAttempt (sr_user req) examId [] now None 0 0 0 None false
    in_progress (sr_ip req) (sr_userAgent req).

(** [newId] is the [_id] the driver generates for the new document. *)
Definition start_exam (now : Date) (newId : ObjectId) (db : Db)
    (req : StartRequest) : Db * Response StartData :=
  match ObjId.cast (sr_examId req) with
  | None => (db, Failure 500 "Failed to start exam")
  | Some examId =>
      match Exam_findById db examId with
      | None => (db, Failure 404 "Exam not found")
      | Some e =>
          (* Check if user can take exam *)
          let can := canUserTakeExam now db examId e (sr_user req) in
          if negb (canTake can) then
            (db, Failure 403 (match reason can with Some r => r | None => "" end))
          else
            (* Create new attempt *)
            match save_document nothingPopulated (new_attempt now req examId) with
            | None => (db, Failure 500 "Failed to start exam")
            | Some attempt =>
                (store_attempt db newId attempt,
                 Success "Exam started successfully"
                   (mkStartData newId attempt (duration e * 60)))
            end
      end
  end.

(** ** The attempts router: [POST /:attemptId/answer] *)

(** [ar_errors] is what [validationResult(req)] holds after the validator
    chain of the route has run; [ar_attemptId] and [ar_questionId] are the
    strings [req.params.attemptId] and [req.body.questionId];
    [ar_timeSpent] is [req.body.timeSpent] when it is a number.  A body
    whose [timeSpent] is present and not a number, on which [save] throws a
    cast error, is outside the model. *)
Record AnswerRequest := mkAnswerRequest {
  ar_errors : list string;
  ar_user : ObjectId;
  ar_attemptId : string;
  ar_questionId : string;
  ar_answer : JsValue;
  ar_timeSpent : option Q
}.

Record AnswerData := mkAnswerData {
  ad_isCorrect : bool;
  ad_scoreAwarded : Q
}.

(** [arr.findIndex(p)]: the first index where [p] holds, [-1] when none. *)
Fixpoint findIndex {A : Type} (p : A -> bool) (l : list A) : Z :=
  match l with
  | [] => (-1)%Z
  | x :: rest =>
      if p x then 0%Z
      else let i := findIndex p rest in
           if (i <? 0)%Z then (-1)%Z else (i + 1)%Z
  end.

Definition with_answers (l : list Answer) (a : Attempt) : Attempt :=
  mkAttempt (student a) (exam a) l (startedAt a) (submittedAt a)
    (timeRemaining a) (totalScore a) (maxPossibleScore a) (percentage a)
    (passed a) (status a) (ipAddress a) (userAgent a).

(** [Attempt.findOne({ _id, student, status: 'in-progress' })] *)
Definition findInProgress (db : Db) (id user : ObjectId) : option Attempt :=
  match attempts db !! id with
  | Some a =>
      if ObjId.eqb (student a) user && Status_eqb (status a) in_progress
      then Some a else None
  | None => None
  end.

(** The record the route builds for the answer; [questionId] is the
    [ObjectId] that the string of the request is cast to when the record
    enters the document. *)
Definition answerData (questionId : ObjectId) (q : Question)
    (req : AnswerRequest) : Answer :=
  let graded := negb (is_short_answer (type q)) in
  (* Auto-grade objective questions *)
  let isCorrect := if graded then validateAnswer q (ar_answer req) else false in
  let scoreAwarded :=
    if graded then (if isCorrect then points q else 0) else 0 in
  mkAnswer questionId (ar_answer req)
    (if graded then Some isCorrect else None)
    false scoreAwarded
    (match ar_timeSpent req with
     | Some t => JsNum.or_default t 0
     | None => 0
     end)
    None.

(** [a => a.question.toString() === questionId], where [questionId] is the
    string of the request body. *)
Definition answersQuestion (questionId : string) (a : Answer) : bool :=
  String.eqb (ObjId.toString (question a)) questionId.

(** Update the existing answer or add a new one. *)
Definition upsert_answer (questionId : string) (d : Answer) (l : list Answer)
    : list Answer :=
  let existingAnswerIndex := findIndex (answersQuestion questionId) l in
  if (-1 <? existingAnswerIndex)%Z
  then <[Z.to_nat existingAnswerIndex := d]> l
  else l ++ [d].

(** The handler reads no clock; [now] is the time the request is served.
    A string that does not cast to an [ObjectId] makes the query throw. *)
Definition save_answer (now : Date) (db : Db) (req : AnswerRequest)
    : Db * Response AnswerData :=
  match ar_errors req with
  | _ :: _ => (db, Failure 400 "Validation failed")
  | [] =>
      match ObjId.cast (ar_attemptId req) with
      | None => (db, Failure 500 "Failed to save answer")
      | Some attemptId =>
          (* Find the attempt *)
          match findInProgress db attemptId (ar_user req) with
          | None => (db, Failure 404 "Attempt not found or already submitted")
          | Some attempt =>
              match ObjId.cast (ar_questionId req) with
              | None => (db, Failure 500 "Failed to save answer")
              | Some questionId =>
                  (* Find the question *)
                  match Question_findById db questionId with
                  | None => (db, Failure 404 "Question not found")
                  | Some q =>
                      let d := answerData questionId q req in
                      let attempt' :=
                        with_answers
                          (upsert_answer (ar_questionId req) d (answers attempt))
                          attempt in
                      match save_document nothingPopulated attempt' with
                      | None => (db, Failure 500 "Failed to save answer")
                      | Some stored =>
                          (store_attempt db attemptId stored,
                           Success "Answer saved successfully"
                             (mkAnswerData
                                (match isCorrect d with
                                 | Some b => b
                                 | None => false
                                 end)
                                (scoreAwarded d)))
                      end
                  end
              end
          end
      end
  end.

(** The responses with which the handler can fail. *)
Definition save_answer_failures : list (Response AnswerData) :=
  [ Failure 400 "Validation failed";
    Failure 404 "Attempt not found or already submitted";
    Failure 404 "Question not found";
    Failure 500 "Failed to save answer" ].

(** ** The attempts router: [POST /:attemptId/submit] *)

Record SubmitRequest := mkSubmitRequest {
  sb_user : ObjectId;
  sb_attemptId : string;
  sb_timeRemaining : option Q
}.

Record SubmitResult := mkSubmitResult {
  r_totalScore : Q;
  r_maxPossibleScore : Q;
  r_percentage : option Q;
  r_passed : bool;
  r_timeSpent : option Z
}.

Record SubmitData := mkSubmitData {
  sbd_attempt : Attempt;
  sbd_result : SubmitResult
}.

(** [Attempt.findOne({ _id, student })] *)
Definition findOwned (db : Db) (id user : ObjectId) : option Attempt :=
  match attempts db !! id with
  | Some a => if ObjId.eqb (student a) user then Some a else None
  | None => None
  end.

(** Max possible score: the points of all questions of the exam. *)
Definition submit_maxPossibleScore (db : Db) (examId : ObjectId) : Q :=
  fold_left (fun sum q => sum + points q) (Question_findByExam db examId) 0.

(** The loop over [attempt.answers]: short answers that were not graded by
    hand are reset, answers whose question is gone are skipped. *)
Fixpoint submit_loop (db : Db) (l : list Answer) (totalScore : Q)
    : list Answer * Q :=
  match l with
  | [] => ([], totalScore)
  | answer :: rest =>
      match Question_findById db (question answer) with
      | None =>
          let (rest', t) := submit_loop db rest totalScore in
          (answer :: rest', t)
      | Some q =>
          let answer' :=
            if is_short_answer (type q) && negb (manuallyGraded answer)
            then mkAnswer (question answer) (studentAnswer answer) None
                   (manuallyGraded answer) 0 (timeSpent answer)
                   (teacherFeedback answer)
            else answer in
          let (rest', t) :=
            submit_loop db rest
              (totalScore + JsNum.or_default (scoreAwarded answer') 0) in
          (answer' :: rest', t)
      end
  end.

Definition submit_percentage (totalScore maxPossibleScore : Q) : Q :=
  if JsNum.gt maxPossibleScore 0
  then JsNum.mul (JsNum.div totalScore maxPossibleScore) 100 else 0.

(** [Math.round(percentage * 100) / 100]: round to 2 decimal places. *)
Definition round2 (percentage : Q) : Q :=
  JsNum.div (inject_Z (JsNum.Math_round (JsNum.mul percentage 100))) 100.

(** The attempt as the handler has updated it when it calls [save]; [e] is
    the exam document that [populate('exam')] loaded. *)
Definition submit_update (now : Date) (db : Db) (e : Exam)
    (req : SubmitRequest) (attempt : Attempt) : Attempt :=
  let maxPossibleScore := submit_maxPossibleScore db (exam attempt) in
  let (answers', totalScore) := submit_loop db (answers attempt) 0 in
  let percentage := submit_percentage totalScore maxPossibleScore in
  let passed := JsNum.ge percentage (passMark e) in
  mkAttempt (student attempt) (exam attempt) answers'
    (startedAt attempt) (Some now)
    (match sb_timeRemaining req with
     | Some t => JsNum.or_default t 0
     | None => 0
     end)
    totalScore maxPossibleScore (Some (round2 percentage)) passed
    (if showResults e then graded else submitted)
    (ipAddress attempt) (userAgent attempt).

Definition submit_exam (now : Date) (db : Db) (req : SubmitRequest)
    : Db * Response SubmitData :=
  match ObjId.cast (sb_attemptId req) with
  | None => (db, Failure 500 "Failed to submit exam")
  | Some attemptId =>
      (* Find and validate attempt *)
      match findOwned db attemptId (sb_user req) with
      | None => (db, Failure 404 "Attempt not found")
      | Some attempt =>
          if negb (Status_eqb (status attempt) in_progress) then
            (db, Failure 400 "Attempt already submitted")
          else
            match Exam_findById db (exam attempt) with
            | None =>
                (* [attempt.exam] populated to null: reading [_id] throws *)
                (db, Failure 500 "Failed to submit exam")
            | Some e =>
                let updated := submit_update now db e req attempt in
                match save_document (examPopulated e) updated with
                | None => (db, Failure 500 "Failed to submit exam")
                | Some stored =>
                    (store_attempt db attemptId stored,
                     Success "Exam submitted successfully"
                       (mkSubmitData stored
                          (mkSubmitResult
                             (totalScore updated) (maxPossibleScore updated)
                             (percentage stored) (passed updated)
                             (attempt_duration stored))))
                end
            end
      end
  end.

End Legacy.

(** * What the specification says

    These definitions follow the words of the specification, not the code;
    the theorems below compare the code with them. *)

Module Spec.

Definition pow10 (d : nat) : Q := inject_Z (10 ^ Z.of_nat d).

(** [round(x, d)]: [x] rounded to [d] decimal places. *)
Definition round_places (d : nat) (x : Q) : Q :=
  inject_Z (Qfloor (x * pow10 d + (1 # 2))) / pow10 d.

(** [percentage = round(score / totalMarks × 100, d)], [0] when there are no
    marks to earn. *)
Definition percentage (d : nat) (score totalMarks : Q) : Q :=
  if JsNum.gt totalMarks 0
  then round_places d (score / totalMarks * 100) else 0.

(** [passed = percentage ≥ passMarkSnapshot] *)
Definition passed (percentage passMarkSnapshot : Q) : bool :=
  Qle_bool passMarkSnapshot percentage.

(** Marks awarded: [marks] if correct; [-negativeMarks] if incorrect and
    negative marking is enabled for the exam; [0] otherwise. *)
Definition marksAwarded (negativeMarkingEnabled correct : bool)
    (marks negativeMarks : Q) : Q :=
  if correct then marks
  else if negativeMarkingEnabled then - negativeMarks else 0.

(** The words of a text: its maximal runs of characters that are not white
    space. *)
Fixpoint words (s : string) : list string :=
  match s with
  | EmptyString => []
  | String c s' =>
      if JsStr.is_space c then words s'
      else match s' with
           | EmptyString => [String c EmptyString]
           | String c' _ =>
               if JsStr.is_space c' then String c EmptyString :: words s'
               else match words s' with
                    | w :: ws => String c w :: ws
                    | [] => [String c EmptyString]
                    end
           end
  end.

(** Normalized text: lowercased, trimmed, internal white space collapsed to
    single spaces, i.e. the lowercased words joined by one space. *)
Definition normalize (s : string) : string :=
  JsStr.join " " (words (JsStr.toLowerCase s)).

(** A short answer is correct iff its normalized text equals the normalized
    form of any accepted answer. *)
Definition shortAnswerCorrect (accepted : list string) (submitted : string) : bool :=
  existsb (fun a => String.eqb (normalize a) (normalize submitted)) accepted.

(** The attempts of a student for an exam that are in progress; the
    specification allows at most one. *)
Definition inProgressFor (examId userId : ObjectId) (a : Legacy.Attempt) : bool :=
  ObjId.eqb (Legacy.exam a) examId && ObjId.eqb (Legacy.student a) userId
  && Legacy.Status_eqb (Legacy.status a) Legacy.in_progress.

(** The prior attempts of a student for an exam in any terminal status,
    i.e. any status but in-progress. *)
Definition terminalFor (examId userId : ObjectId) (a : Legacy.Attempt) : bool :=
  ObjId.eqb (Legacy.exam a) examId && ObjId.eqb (Legacy.student a) userId
  && negb (Legacy.Status_eqb (Legacy.status a) Legacy.in_progress).

(** A new attempt is refused when the count is at least [maxAttempts] and
    retakes are not allowed. *)
Definition mayStart (maxAttempts : Z) (allowRetake : bool) (count : nat) : bool :=
  negb ((maxAttempts <=? Z.of_nat count)%Z && negb allowRetake).

(** The time budget of an attempt is exhausted at [now]. *)
Definition expired (startTime : Date) (timeBudgetSeconds : Z) (now : Date) : bool :=
  (startTime + timeBudgetSeconds * 1000 <=? now)%Z.

End Spec.

(** * Concrete scenarios

    The data of the examples that the theorems below are evaluated on. *)

Module Scenario.

Local Open Scope string_scope.

(** Identifiers. *)
Definition student_id : ObjectId := "650000000000000000000005".
Definition exam_id : ObjectId := "650000000000000000000007".
Definition question1_id : ObjectId := "65000000000000000000000a".
Definition question2_id : ObjectId := "65000000000000000000000b".
Definition attempt_id : ObjectId := "650000000000000000000100".
Definition second_attempt_id : ObjectId := "650000000000000000000101".

(** An attempt that answered its only question wrongly, for an exam whose
    pass mark is 0: the percentage is 0, and [passed] stays [false]. *)
Definition zero_percent_attempt : Typed.ExamAttempt :=
  Typed.mkExamAttempt exam_id student_id 1 Typed.submitted 0 (Some 90000%Z)
    None 0 0 0 10 false
    [Typed.mkAnswer question1_id (JStr "B") false 0 12 false false 5000]
    (Some (Typed.mkExam exam_id 60 0 1 false false 25)).

(** A TypeScript attempt with one mark out of three. *)
Definition one_of_three : Typed.ExamAttempt :=
  Typed.mkExamAttempt exam_id student_id 1 Typed.submitted 0 None None 0 1 0 3
    false [] None.

(** A single-choice question worth 5 marks that deducts 1 mark, in an exam
    whose negative marking is switched off. *)
Definition choice_question : Typed.Question :=
  Typed.mkQuestion question1_id exam_id Typed.mcq_single
    [Typed.mkQOption "A" true 1; Typed.mkQOption "B" false 2] [] 5 1.

Definition exam_without_negative_marking : Typed.Exam :=
  Typed.mkExam exam_id 60 50 1 false false 25.

(** Essay questions, without and with negative marks. *)
Definition essay_question : Typed.Question :=
  Typed.mkQuestion question1_id exam_id Typed.essay [] [] 10 0.

Definition essay_question_with_penalty : Typed.Question :=
  Typed.mkQuestion question2_id exam_id Typed.essay [] [] 10 2.

(** A short-answer question of the TypeScript model that accepts
    [hello world]. *)
Definition greeting_question : Typed.Question :=
  Typed.mkQuestion question1_id exam_id Typed.short_answer []
    ["hello world"] 5 0.

(** A short-answer question of the JavaScript model. *)
Definition legacy_greeting_question : Legacy.Question :=
  Legacy.mkQuestion exam_id Legacy.short_answer (JArr [JStr "Hello World"]) 5 true.

(** A published exam of one minute with two single-choice questions of 5
    points, pass mark 60, one attempt allowed. *)
Definition exam60 : Legacy.Exam :=
  Legacy.mkExam 1 0 1000000 60 1 false false false Legacy.published.

Definition question1 : Legacy.Question :=
  Legacy.mkQuestion exam_id Legacy.mcq_single (JStr "A") 5 true.
Definition question2 : Legacy.Question :=
  Legacy.mkQuestion exam_id Legacy.mcq_single (JStr "B") 5 true.

Definition db0 : Legacy.Db :=
  Legacy.mkDb {[ exam_id := exam60 ]}
    {[ question1_id := question1; question2_id := question2 ]} ∅.

Definition start_request : Legacy.StartRequest :=
  Legacy.mkStartRequest student_id "650000000000000000000007"
    "10.0.0.1" "Mozilla/5.0".

(** The student starts the exam at time 10, and starts it again at time
    20. *)
Definition db_started : Legacy.Db :=
  fst (Legacy.start_exam 10 attempt_id db0 start_request).
Definition db_started_twice : Legacy.Db :=
  fst (Legacy.start_exam 20 second_attempt_id db_started start_request).

(** The student's only earlier attempt for the exam was abandoned. *)
Definition abandoned_attempt : Legacy.Attempt :=
  Legacy.mkAttempt student_id exam_id [] 10 None 0 0 0 None false
    Legacy.abandoned "10.0.0.1" "Mozilla/5.0".
Definition db_abandoned : Legacy.Db :=
  Legacy.store_attempt db0 attempt_id abandoned_attempt.

(** Question 1 is answered with [A]. *)
Definition answer_request : Legacy.AnswerRequest :=
  Legacy.mkAnswerRequest [] student_id "650000000000000000000100"
    "65000000000000000000000a" (JStr "A") (Some 30).

(** The same answer, the identifier of the question written with a capital
    digit. *)
Definition answer_request_capital : Legacy.AnswerRequest :=
  Legacy.mkAnswerRequest [] student_id "650000000000000000000100"
    "65000000000000000000000A" (JStr "A") (Some 30).

(** After the attempt was started the pass mark of the exam is edited from
    60 to 0 ([PUT /:id]); the student then submits without an answer. *)
Definition exam_edited : Legacy.Exam :=
  Legacy.mkExam 1 0 1000000 0 1 false false false Legacy.published.
Definition db_edited : Legacy.Db :=
  Legacy.mkDb (<[ exam_id := exam_edited ]> (Legacy.exams db_started))
    (Legacy.questions db_started) (Legacy.attempts db_started).
Definition submit_request : Legacy.SubmitRequest :=
  Legacy.mkSubmitRequest student_id "650000000000000000000100" None.

End Scenario.

(** * Further parts of the models

    The parts of the cited models and routers that the theorems of the
    second half of this file are about. *)

(** [Math.max x y] on numbers. *)
Module JsMath.

Definition Math_max (x y : Q) : Q := if Qle_bool x y then y else x.

End JsMath.

(** ** The virtuals of the [ExamAttempt] model *)

Module TypedVirtuals.
Import Typed.



(** [this.exam?.duration || 60]: the duration of the attached exam in
    minutes, or the default. *)
Definition examDuration (this : ExamAttempt) : Q :=
  match exam this with
  | Some e => JsNum.or_default (duration e) 60
  | None => 60
  end.

(** The virtual [timeRemaining], in seconds, read at time [now]; it is what
    [getTimeRemaining] returns. *)
Definition timeRemaining (now : Date) (this : ExamAttempt) : Q :=
  if negb (Status_eqb (status this) in_progress) then 0
  else
    let elapsed := JsNum.Math_floor_div (now - startTime this) 1000 in
    let totalSeconds := examDuration this * 60 in
    JsMath.Math_max 0 (totalSeconds - inject_Z elapsed).

End TypedVirtuals.

(** ** The security log of the [ExamAttempt] model *)

Module SecurityLog.

Local Open Scope string_scope.

(** What [severityMap[event] || 'low'] evaluates to.  The map is an object
    literal, so a key that names a member of [Object.prototype] yields that
    member, which is not a severity. *)
Inductive SeverityValue :=
| Severity (name : string)
| InheritedMember (key : string).

Definition objectPrototypeKeys : list string :=
  [ "constructor"; "__defineGetter__"; "__defineSetter__"; "hasOwnProperty";
    "__lookupGetter__"; "__lookupSetter__"; "isPrototypeOf";
    "propertyIsEnumerable"; "toString"; "valueOf"; "__proto__";
    "toLocaleString" ].

Definition severityMap : list (string * string) :=
  [ ("tab_switch", "medium"); ("fullscreen_exit", "high");
    ("copy_attempt", "high"); ("right_click", "medium");
    ("window_blur", "low"); ("window_focus", "low");
    ("key_press", "low"); ("mouse_activity", "low") ].

Fixpoint own_property (key : string) (m : list (string * string)) : option string :=
  match m with
  | [] => None
  | (k, v) :: rest => if String.eqb k key then Some v else own_property key rest
  end.

(** [examAttemptSchema.methods.getEventSeverity] *)
Definition getEventSeverity (event : string) : SeverityValue :=
  match own_property event severityMap with
  | Some s => Severity s
  | None =>
      if existsb (String.eqb event) objectPrototypeKeys
      then InheritedMember event
      else Severity "low"
  end.

Record SecurityEvent := mkSecurityEvent {
  timestamp : Date;
  event : string;
  details : option string;
  severity : SeverityValue
}.

(** [examAttemptSchema.methods.addSecurityEvent], on the [securityLog] of
    the attempt; [now] is what [new Date()] returns, and an absent or empty
    [details] is stored as null. *)
Definition addSecurityEvent (now : Date) (securityLog : list SecurityEvent)
    (event : string) (details : option string) : list SecurityEvent :=
  securityLog
  ++ [mkSecurityEvent now event
        (match details with
         | Some d => if String.eqb d "" then None else Some d
         | None => None
         end)
        (getEventSeverity event)].

(** The events that the schema of the log admits. *)
Definition schemaEvents : list string :=
  [ "tab_switch"; "fullscreen_exit"; "copy_attempt"; "right_click";
    "window_blur"; "window_focus"; "key_press"; "mouse_activity" ].

End SecurityLog.

(** ** The [pre('save')] hook of the [Question] model *)

Module TypedQuestionHook.
Import Typed.

Local Open Scope string_scope.

Definition has_options (t : QuestionType) : bool :=
  match t with
  | mcq_single | mcq_multiple | true_false => true
  | _ => false
  end.

(** The checks of the hook: the error it passes to [next], if any. *)
Definition validation_error (this : Question) : option string :=
  let correctOptions := List.filter opt_isCorrect (options this) in
  if has_options (type this) && Nat.ltb (List.length (options this)) 2 then
    Some "Multiple choice questions must have at least 2 options"
  else if has_options (type this) && Nat.eqb (List.length correctOptions) 0 then
    Some "At least one option must be marked as correct"
  else if has_options (type this)
          && match type this with mcq_single => true | _ => false end
          && Nat.ltb 1 (List.length correctOptions) then
    Some "Single choice questions can only have one correct answer"
  else if match type this with short_answer => true | _ => false end
          && Nat.eqb (List.length (correctAnswers this)) 0 then
    Some "Short answer questions must have at least one correct answer"
  else None.

End TypedQuestionHook.

(** ** Availability in the [Exam] models *)

Module TypedExamAccess.

Inductive ExamStatus := draft | published | archived.

Definition is_published (s : ExamStatus) : bool :=
  match s with published => true | _ => false end.

(** The fields of the TypeScript exam that its availability reads. *)
Record ExamWindow := mkExamWindow {
  status : ExamStatus;
  startDate : Date;
  endDate : Date;
  assignedTo : list ObjectId;
  isPublic : bool
}.

(** [examSchema.methods.isActive], at time [now]. *)
Definition isActive (now : Date) (this : ExamWindow) : bool :=
  is_published (status this)
  && (startDate this <=? now)%Z && (now <=? endDate this)%Z.

(** [examSchema.methods.isAvailable], at time [now]. *)
Definition isAvailable (now : Date) (this : ExamWindow) : bool :=
  is_published (status this) && (startDate this <=? now)%Z.

(** [examSchema.methods.canBeTakenBy]; [studentId] is the string the caller
    passes. *)
Definition canBeTakenBy (now : Date) (this : ExamWindow) (studentId : string) : bool :=
  let isAssigned :=
    existsb (fun id => String.eqb (ObjId.toString id) studentId) (assignedTo this) in
  if negb isAssigned then false
  else if negb (isActive now this) then false
  else true.

(** [examSchema.pre('save')]: the error it passes to [next], if any. *)
Definition pre_save_error (this : ExamWindow) : option string :=
  if (endDate this <=? startDate this)%Z
  then Some "End date must be after start date"%string else None.

End TypedExamAccess.

Module LegacyExam.
Import Legacy.

(** The virtual [hasEnded] of the JavaScript exam, read at time [now]. *)
Definition hasEnded (now : Date) (this : Exam) : bool :=
  (availableTo this <? now)%Z.

End LegacyExam.

(** ** Words *)

Module Words.

(** A word: a non-empty text without white space. *)
Inductive word : string -> Prop :=
| word_char (c : ascii) :
    JsStr.is_space c = false -> word (String c EmptyString)
| word_cons (c : ascii) (w : string) :
    JsStr.is_space c = false -> word w -> word (String c w).

End Words.

(** ** Sums of scores *)

Module Scoring.
Import Legacy.

Definition sumQ (l : list Q) : Q := fold_right Qplus 0 l.

(** [x] is a whole multiple of [2^-k]: a whole number for [k = 0], a
    multiple of a quarter for [k = 2]. *)
Definition on_grid (k : Z) (x : Q) : Prop :=
  exists n : Z, x == inject_Z n * 2 ^ (- k).



End Scoring.

(** ** Sequences of calls to the routers *)

Module Lifecycle.
Import Legacy.

Inductive Call :=
| CallStart (now : Date) (newId : ObjectId) (req : StartRequest)
| CallAnswer (now : Date) (req : AnswerRequest)
| CallSubmit (now : Date) (req : SubmitRequest).

(** The database after a call. *)
Definition step (db : Db) (c : Call) : Db :=
  match c with
  | CallStart now newId req => fst (start_exam now newId db req)
  | CallAnswer now req => fst (save_answer now db req)
  | CallSubmit now req => fst (submit_exam now db req)
  end.

(** The database after a sequence of calls. *)
Definition run (db : Db) (calls : list Call) : Db := fold_left step calls db.

(** The identifiers that the driver hands out are new: a start never
    receives the identifier of a stored attempt. *)
Fixpoint fresh_ids (db : Db) (calls : list Call) : Prop :=
  match calls with
  | [] => True
  | c :: rest =>
      match c with
      | CallStart _ newId _ => attempts db !! newId = None
      | _ => True
      end /\ fresh_ids (step db c) rest
  end.

(** A request names the question by the canonical string of its identifier
    when the string casts to itself. *)
Definition canonical_question (c : Call) : Prop :=
  match c with
  | CallAnswer _ req =>
      forall q, ObjId.cast (ar_questionId req) = Some q -> q = ar_questionId req
  | _ => True
  end.

(** An attempt holds at most one answer per question. *)
Definition one_answer_per_question (a : Attempt) : Prop :=
  List.NoDup (List.map question (answers a)).

(** What holds of every attempt that is in progress in a database reached
    from an empty collection: nothing has been scored. *)
Definition unscored (a : Attempt) : Prop :=
  status a = in_progress -> percentage a = None /\ submittedAt a = None.

End Lifecycle.

(** ** Saving a TypeScript attempt more than once *)

Module AttemptHook.
Import Typed.

(** The test of the last step of the hook:
    [this.status === 'submitted' || this.status === 'auto_submitted']. *)
Definition stamped (this : ExamAttempt) : bool :=
  Status_eqb (status this) submitted || Status_eqb (status this) auto_submitted.

(** [v || now] on an optional date. *)
Definition or_now (now : Date) (v : option Date) : option Date :=
  match v with Some d => Some d | None => Some now end.

(** A document on which every step of the hook finds its own result. *)
Definition settled (x : ExamAttempt) : Prop :=
  (forall e, endTime x = Some e ->
             timeTaken x = JsNum.Math_floor_div (e - startTime x) 1000)
  /\ (answers x <> [] ->
      score x = calculateScore x /\ percentage x = calculatePercentage x)
  /\ (JsNum.gt (percentage x) 0 = true -> passed x = isPassed x)
  /\ (stamped x = true -> submittedAt x <> None /\ endTime x <> None).

End AttemptHook.

(** ** The users router: [PUT /:userId] *)

Module UserAdmin.

Local Open Scope string_scope.

(** A user document, and the body of a request, are objects:
    [gmap string JsValue]. *)





End UserAdmin.

(** ** Example data for the second half *)

Module Examples.
Import Legacy Lifecycle.

Local Open Scope string_scope.

(** The student of [Scenario] starts the exam at time 10, answers question 1
    with [A] at time 30 and submits at time 50000. *)
Definition db_answered : Db :=
  fst (save_answer 30 Scenario.db_started Scenario.answer_request).
Definition db_submitted : Db :=
  fst (submit_exam 50000 db_answered Scenario.submit_request).

Definition stored_answer : Answer :=
  mkAnswer Scenario.question1_id (JStr "A") (Some true) false 5 30 None.

Definition submitted_attempt : Attempt :=
  mkAttempt Scenario.student_id Scenario.exam_id [stored_answer] 10
    (Some 50000%Z) 0 5 0 (Some 0) false submitted "10.0.0.1" "Mozilla/5.0".

Definition submitted_data : SubmitData :=
  mkSubmitData submitted_attempt
    (mkSubmitResult 5 10 (Some 0) false (Some 49%Z)).

(** An exam with pass mark 57 and two questions of 57 and 43 points; the
    student starts it, answers the first question correctly and is about to
    submit. *)
Definition exam57 : Exam :=
  mkExam 1 0 1000000 57 1 false false false published.

Definition db57 : Db :=
  mkDb {[ Scenario.exam_id := exam57 ]}
    {[ Scenario.question1_id :=
         mkQuestion Scenario.exam_id mcq_single (JStr "A") 57 true;
       Scenario.question2_id :=
         mkQuestion Scenario.exam_id mcq_single (JStr "B") 43 true ]} ∅.

Definition db57_answered : Db :=
  fst (save_answer 30
         (fst (start_exam 10 Scenario.attempt_id db57 Scenario.start_request))
         Scenario.answer_request).

(** The same session as a sequence of calls, the answer sent twice. *)
Definition session : list Call :=
  [ CallStart 10 Scenario.attempt_id Scenario.start_request;
    CallAnswer 30 Scenario.answer_request;
    CallAnswer 40 Scenario.answer_request;
    CallSubmit 50000 Scenario.submit_request ].

(** The calls up to the first answer, and the attempt as it is stored
    after them. *)
Definition open_session : list Call :=
  [ CallStart 10 Scenario.attempt_id Scenario.start_request;
    CallAnswer 30 Scenario.answer_request ].

Definition answered_attempt : Attempt :=
  mkAttempt Scenario.student_id Scenario.exam_id [stored_answer] 10
    None 0 0 0 None false in_progress "10.0.0.1" "Mozilla/5.0".

(** A TypeScript attempt with marks of 2.5 and -0.25. *)
Definition quarter_marks_attempt : Typed.ExamAttempt :=
  Typed.mkExamAttempt Scenario.exam_id Scenario.student_id 1 Typed.in_progress
    0 None None 0 0 0 5 false
    [ Typed.mkAnswer Scenario.question1_id (JStr "A") true (5 # 2) 10 false
        false 1000;
      Typed.mkAnswer Scenario.question2_id (JStr "C") false (- (1 # 4)) 10
        false false 2000 ]
    None.

(** Calls that arrive after the student's attempt was abandoned. *)
Definition late_session : list Call :=
  [ CallStart 20 Scenario.second_attempt_id Scenario.start_request;
    CallAnswer 30 Scenario.answer_request;
    CallSubmit 50 Scenario.submit_request ].

(** Multiple-choice questions of the two models whose key is [A] and [C]. *)
Definition multiple_question : Question :=
  mkQuestion Scenario.exam_id mcq_multiple (JArr [JStr "A"; JStr "C"]) 5 true.

Definition typed_multiple_question : Typed.Question :=
  Typed.mkQuestion Scenario.question2_id Scenario.exam_id Typed.mcq_multiple
    [ Typed.mkQOption "A" true 1; Typed.mkQOption "B" false 2;
      Typed.mkQOption "C" true 3 ] [] 5 0.






End Examples.
(** * Double precision arithmetic *)

Section Doubles.

Lemma pow2_pos (e : Z) : 0 < 2 ^ e.
Proof. apply Qpower_0_lt. reflexivity. Qed.

Lemma pow2_plus (a b : Z) : 2 ^ (a + b) == 2 ^ a * 2 ^ b.
Proof. apply Qpower_plus. discriminate. Qed.

Lemma pow2_succ (a : Z) : 2 ^ (a + 1) == 2 * 2 ^ a.
Proof. rewrite pow2_plus. change (2 ^ 1) with 2. ring. Qed.

Lemma pow2_le (a b : Z) : (a <= b)%Z -> 2 ^ a <= 2 ^ b.
Proof. intros H. apply Qpower_le_compat_l; [exact H | discriminate]. Qed.

Lemma pow2_lt_inv (a b : Z) : 2 ^ a < 2 ^ b -> (a < b)%Z.
Proof. intros H. apply (Qpower_lt_compat_l_inv 2); [exact H | reflexivity]. Qed.

Lemma pow2_Z (n : Z) : (0 <= n)%Z -> inject_Z (2 ^ n) == 2 ^ n.
Proof. intros H. apply (Zpower_Qpower 2 n H). Qed.

Lemma Q_as_quotient (q : Q) : q == inject_Z (Qnum q) / inject_Z (Zpos (Qden q)).
Proof. destruct q as [n d]. cbn [Qnum Qden]. rewrite Qmake_Qdiv. reflexivity. Qed.

Lemma log2_bounds (n : Z) :
  (0 < n)%Z ->
  2 ^ Z.log2 n <= inject_Z n /\ inject_Z n < 2 * 2 ^ Z.log2 n.
Proof.
  intros Hn. destruct (Z.log2_spec n Hn) as [Hlo Hhi].
  assert (H0 : (0 <= Z.log2 n)%Z) by apply Z.log2_nonneg.
  split.
  - rewrite <- pow2_Z by exact H0. rewrite <- Zle_Qle. exact Hlo.
  - rewrite <- pow2_succ. rewrite <- pow2_Z by lia.
    rewrite <- Zlt_Qlt. exact Hhi.
Qed.

(** [JsNum.ilog2 q] is the integer part of the binary logarithm of [q]. *)
Lemma ilog2_spec (q : Q) :
  0 < q -> 2 ^ JsNum.ilog2 q <= q /\ q < 2 ^ (JsNum.ilog2 q + 1).
Proof.
  intros Hq. unfold JsNum.ilog2.
  set (ln := Z.log2 (Qnum q)). set (ld := Z.log2 (Zpos (Qden q))).
  assert (Hn : (0 < Qnum q)%Z).
  { destruct q as [n d]. unfold Qlt in Hq. cbn in *. lia. }
  destruct (log2_bounds (Qnum q) Hn) as [Hn1 Hn2].
  destruct (log2_bounds (Zpos (Qden q)) eq_refl) as [Hd1 Hd2].
  fold ln in Hn1, Hn2. fold ld in Hd1, Hd2.
  assert (HA := pow2_pos ln). assert (HB := pow2_pos ld).
  assert (Hk : 2 ^ (ln - ld) == 2 ^ ln / 2 ^ ld).
  { apply Qpower_minus. discriminate. }
  assert (HD : 0 < inject_Z (Zpos (Qden q))) by reflexivity.
  assert (Eq := Q_as_quotient q).
  set (N := inject_Z (Qnum q)) in *. set (D := inject_Z (Zpos (Qden q))) in *.
  set (A := 2 ^ ln) in *. set (B := 2 ^ ld) in *.
  assert (Hup : q < 2 * (A / B)).
  { rewrite Eq. apply Qlt_shift_div_r; [exact HD |].
    assert (E : 2 * (A / B) * D == (2 * A) * (D / B)) by (field; lra).
    rewrite E.
    assert (1 <= D / B) by (apply Qle_shift_div_l; lra).
    nra. }
  assert (Hlow : A / B < 2 * q).
  { rewrite Eq. apply Qlt_shift_div_r; [exact HB |].
    assert (E : 2 * (N / D) * B == N * ((2 * B) / D)) by (field; lra).
    rewrite E.
    assert (1 < 2 * B / D) by (apply Qlt_shift_div_l; lra).
    nra. }
  destruct (Qle_bool (2 ^ (ln - ld)) q) eqn:E.
  - apply Qle_bool_iff in E. split; [exact E |].
    rewrite pow2_succ, Hk. exact Hup.
  - assert (Hlt : q < 2 ^ (ln - ld)).
    { apply Qnot_le_lt. intros H. apply Qle_bool_iff in H. congruence. }
    replace (ln - ld - 1 + 1)%Z with (ln - ld)%Z by lia.
    split; [| exact Hlt].
    assert (E2 : 2 ^ (ln - ld) == 2 * 2 ^ (ln - ld - 1)).
    { rewrite <- pow2_succ. replace (ln - ld - 1 + 1)%Z with (ln - ld)%Z by lia.
      reflexivity. }
    rewrite Hk in E2. lra.
Qed.

Lemma ilog2_unique (q : Q) (k : Z) :
  2 ^ k <= q -> q < 2 ^ (k + 1) -> JsNum.ilog2 q = k.
Proof.
  intros H1 H2.
  assert (Hq : 0 < q) by (generalize (pow2_pos k); lra).
  destruct (ilog2_spec q Hq) as [H3 H4].
  assert ((JsNum.ilog2 q < k + 1)%Z) by (apply pow2_lt_inv; lra).
  assert ((k < JsNum.ilog2 q + 1)%Z) by (apply pow2_lt_inv; lra).
  lia.
Qed.

Lemma ilog2_lt (q : Q) (k : Z) : 0 < q -> q < 2 ^ k -> (JsNum.ilog2 q < k)%Z.
Proof.
  intros Hq H. destruct (ilog2_spec q Hq) as [H1 _].
  apply pow2_lt_inv. lra.
Qed.

Lemma ilog2_le (q r : Q) : 0 < q -> q <= r -> (JsNum.ilog2 q <= JsNum.ilog2 r)%Z.
Proof.
  intros Hq H. destruct (ilog2_spec q Hq) as [H1 _].
  destruct (ilog2_spec r ltac:(lra)) as [_ H2].
  assert ((JsNum.ilog2 q < JsNum.ilog2 r + 1)%Z) by (apply pow2_lt_inv; lra).
  lia.
Qed.

Lemma ilog2_comp (q r : Q) : 0 < q -> q == r -> JsNum.ilog2 q = JsNum.ilog2 r.
Proof.
  intros Hq H. destruct (ilog2_spec q Hq) as [H1 H2].
  symmetry. apply ilog2_unique; rewrite <- H; assumption.
Qed.

(** ** Rounding to the nearest integer, ties to even *)

Lemma round_even_cases (y : Q) :
  JsNum.round_even y = Qfloor y \/ JsNum.round_even y = (Qfloor y + 1)%Z.
Proof.
  unfold JsNum.round_even. destruct (_ ?= _); auto. destruct (Z.even _); auto.
Qed.

Lemma round_even_near (y : Q) :
  y - (1 # 2) <= inject_Z (JsNum.round_even y) /\ inject_Z (JsNum.round_even y) <= y + (1 # 2).
Proof.
  unfold JsNum.round_even.
  assert (Hf := Qfloor_le y). assert (Hc := Qlt_floor y).
  rewrite inject_Z_plus in Hc. change (inject_Z 1) with 1 in Hc.
  destruct (Qcompare_spec (y - inject_Z (Qfloor y)) (1 # 2)) as [E | E | E].
  - destruct (Z.even (Qfloor y)); [| rewrite inject_Z_plus; change (inject_Z 1) with 1];
      lra.
  - lra.
  - rewrite inject_Z_plus. change (inject_Z 1) with 1. lra.
Qed.

Lemma round_even_comp (y z : Q) : y == z -> JsNum.round_even y = JsNum.round_even z.
Proof.
  intros H. unfold JsNum.round_even. rewrite (Qfloor_comp _ _ H).
  assert (E : (y - inject_Z (Qfloor z) ?= 1 # 2) = (z - inject_Z (Qfloor z) ?= 1 # 2)).
  { apply Qcompare_comp; [rewrite H |]; reflexivity. }
  rewrite E. reflexivity.
Qed.

Lemma round_even_Z (n : Z) : JsNum.round_even (inject_Z n) = n.
Proof.
  unfold JsNum.round_even. rewrite Qfloor_Z.
  assert (E : (inject_Z n - inject_Z n ?= 1 # 2) = Lt).
  { rewrite <- Qlt_alt. ring_simplify (inject_Z n - inject_Z n). reflexivity. }
  rewrite E. reflexivity.
Qed.

Lemma round_even_le (y : Q) (n : Z) : y <= inject_Z n -> (JsNum.round_even y <= n)%Z.
Proof.
  intros H. destruct (Qlt_le_dec y (inject_Z n)) as [Hlt | Hge].
  - assert (Hf : (Qfloor y < n)%Z).
    { rewrite Zlt_Qlt. generalize (Qfloor_le y). lra. }
    destruct (round_even_cases y); lia.
  - assert (E : y == inject_Z n) by (apply Qle_antisym; assumption).
    rewrite (round_even_comp _ _ E), round_even_Z. lia.
Qed.

Lemma round_even_ge (y : Q) (n : Z) : inject_Z n <= y -> (n <= JsNum.round_even y)%Z.
Proof.
  intros H. assert (Hf : (n <= Qfloor y)%Z).
  { rewrite <- (Qfloor_Z n). apply Qfloor_resp_le. exact H. }
  destruct (round_even_cases y); lia.
Qed.


(** ** Rounding to the nearest double *)

Lemma Qabs_pos_iff (x : Q) : ~ x == 0 -> 0 < Qabs x.
Proof.
  intros H. apply Qabs_case; intros H'.
  - destruct (Qlt_le_dec 0 x); [assumption |]. exfalso. apply H. lra.
  - destruct (Qlt_le_dec x 0); [lra |]. exfalso. apply H. lra.
Qed.

Lemma exponent_comp (x y : Q) : ~ x == 0 -> x == y -> JsNum.exponent x = JsNum.exponent y.
Proof.
  intros H0 H. unfold JsNum.exponent.
  rewrite (ilog2_comp (Qabs x) (Qabs y)); [reflexivity | |].
  - apply Qabs_pos_iff, H0.
  - rewrite H. reflexivity.
Qed.

Lemma fl_zero (x : Q) : x == 0 -> JsNum.fl x = 0.
Proof.
  intros H. unfold JsNum.fl. apply Qeq_bool_iff in H. rewrite H. reflexivity.
Qed.

Lemma fl_unfold (x : Q) :
  ~ x == 0 ->
  JsNum.fl x == inject_Z (JsNum.round_even (x / 2 ^ JsNum.exponent x)) * 2 ^ JsNum.exponent x.
Proof.
  intros H. unfold JsNum.fl. destruct (Qeq_bool x 0) eqn:E.
  - apply Qeq_bool_iff in E. contradiction.
  - apply Qred_correct.
Qed.

Lemma fl_comp (x y : Q) : x == y -> JsNum.fl x = JsNum.fl y.
Proof.
  intros H. destruct (Qeq_dec x 0) as [Hx | Hx].
  - rewrite (fl_zero x Hx), (fl_zero y); [reflexivity |]. rewrite <- H. exact Hx.
  - assert (Hy : ~ y == 0) by (rewrite <- H; exact Hx).
    unfold JsNum.fl. destruct (Qeq_bool x 0) eqn:Ex.
    { apply Qeq_bool_iff in Ex. contradiction. }
    destruct (Qeq_bool y 0) eqn:Ey.
    { apply Qeq_bool_iff in Ey. contradiction. }
    apply Qred_complete.
    rewrite <- (exponent_comp x y Hx H).
    assert (E : x / 2 ^ JsNum.exponent x == y / 2 ^ JsNum.exponent x).
    { unfold Qdiv. apply Qmult_comp; [exact H | reflexivity]. }
    rewrite (round_even_comp _ _ E). reflexivity.
Qed.

(** The rounding error is at most half a unit in the last place. *)
Lemma fl_error (x : Q) :
  x - 2 ^ JsNum.exponent x * (1 # 2) <= JsNum.fl x /\ JsNum.fl x <= x + 2 ^ JsNum.exponent x * (1 # 2).
Proof.
  assert (Hp := pow2_pos (JsNum.exponent x)).
  destruct (Qeq_dec x 0) as [Hx | Hx].
  - rewrite (fl_zero x Hx). set (p := 2 ^ JsNum.exponent x) in *. split; lra.
  - rewrite (fl_unfold x Hx).
    destruct (round_even_near (x / 2 ^ JsNum.exponent x)) as [Hlo Hhi].
    set (p := 2 ^ JsNum.exponent x) in *. set (r := inject_Z (JsNum.round_even (x / p))) in *.
    assert (E : x == x / p * p) by (field; lra).
    split.
    + apply Qle_trans with ((x / p - (1 # 2)) * p).
      * rewrite E at 1. apply Qle_lteq. right. field. lra.
      * apply Qmult_le_compat_r; lra.
    + apply Qle_trans with ((x / p + (1 # 2)) * p).
      * apply Qmult_le_compat_r; lra.
      * rewrite E at 2. apply Qle_lteq. right. field. lra.
Qed.

Lemma exponent_bound (x : Q) :
  ~ x == 0 -> 2 ^ JsNum.exponent x <= Qabs x * 2 ^ (-52) \/ JsNum.exponent x = (-1074)%Z.
Proof.
  intros Hx. unfold JsNum.exponent.
  destruct (Z.max_spec (-1074) (JsNum.ilog2 (Qabs x) - 52)) as [[_ ->] | [_ ->]];
    [left | right; reflexivity].
  destruct (ilog2_spec (Qabs x) (Qabs_pos_iff x Hx)) as [H _].
  replace (JsNum.ilog2 (Qabs x) - 52)%Z with (JsNum.ilog2 (Qabs x) + -52)%Z by lia.
  rewrite pow2_plus. apply Qmult_le_compat_r; [exact H |].
  apply Qlt_le_weak, pow2_pos.
Qed.

(** The relative error is at most [2^-53], but for results below the
    smallest normal number, where the absolute error is at most [2^-1075]. *)
Lemma fl_rel_error (x : Q) :
  Qabs (JsNum.fl x - x) <= Qabs x * 2 ^ (-53) + 2 ^ (-1075).
Proof.
  assert (Hn := Qabs_nonneg x). assert (H53 := pow2_pos (-53)).
  assert (H1075 := pow2_pos (-1075)).
  destruct (Qeq_dec x 0) as [Hx | Hx].
  - rewrite (fl_zero x Hx).
    assert (E : 0 - x == 0) by lra. rewrite E. change (Qabs 0) with 0.
    set (a := Qabs x) in *. clearbody a.
    set (u := 2 ^ (-53)) in *. clearbody u.
    set (t := 2 ^ (-1075)) in *. clearbody t. nra.
  - destruct (fl_error x) as [Hlo Hhi].
    assert (Hhalf : 2 ^ JsNum.exponent x * (1 # 2) <= Qabs x * 2 ^ (-53) + 2 ^ (-1075)).
    { destruct (exponent_bound x Hx) as [H | ->].
      - assert (E : 2 ^ (-52) == 2 * 2 ^ (-53)).
        { change (-52)%Z with (-53 + 1)%Z. apply pow2_succ. }
        rewrite E in H. set (p := 2 ^ JsNum.exponent x) in *. clearbody p.
        set (a := Qabs x) in *. clearbody a. nra.
      - assert (E : 2 ^ (-1074) == 2 * 2 ^ (-1075)).
        { change (-1074)%Z with (-1075 + 1)%Z. apply pow2_succ. }
        rewrite E. nra. }
    apply Qabs_case; intros; lra.
Qed.

Lemma scaled_integer (m e0 e : Z) :
  (e <= e0)%Z -> inject_Z m * 2 ^ e0 / 2 ^ e == inject_Z (m * 2 ^ (e0 - e)).
Proof.
  intros H. rewrite inject_Z_mult, pow2_Z by lia.
  assert (E : 2 ^ (e0 - e) == 2 ^ e0 / 2 ^ e).
  { apply Qpower_minus. discriminate. }
  rewrite E. field. generalize (pow2_pos e). lra.
Qed.

Lemma exponent_le_double (x : Q) (m e0 : Z) :
  ~ x == 0 -> (Z.abs m < 2 ^ 53)%Z -> (-1074 <= e0)%Z ->
  Qabs x <= Qabs (inject_Z m * 2 ^ e0) ->
  (JsNum.exponent x <= e0)%Z.
Proof.
  intros Hx Hm He H. unfold JsNum.exponent.
  assert (Hlt : Qabs x < 2 ^ (53 + e0)).
  { apply Qle_lt_trans with (1 := H).
    rewrite Qabs_Qmult, pow2_plus.
    rewrite (Qabs_pos (2 ^ e0)) by apply Qlt_le_weak, pow2_pos.
    apply Qmult_lt_compat_r; [apply pow2_pos |].
    rewrite <- pow2_Z by lia.
    assert (E : Qabs (inject_Z m) == inject_Z (Z.abs m)).
    { unfold Qabs, inject_Z. cbn. reflexivity. }
    rewrite E, <- Zlt_Qlt. exact Hm. }
  assert (Hl := ilog2_lt (Qabs x) (53 + e0) (Qabs_pos_iff x Hx) Hlt).
  lia.
Qed.

Lemma fl_exact (x : Q) : JsNum.is_double x -> JsNum.fl x == x.
Proof.
  intros (m & e0 & Hm & He & Hx).
  destruct (Qeq_dec x 0) as [H0 | H0].
  - rewrite (fl_zero x H0). symmetry. exact H0.
  - assert (Hle : (JsNum.exponent x <= e0)%Z).
    { apply (exponent_le_double x m e0 H0 Hm He). rewrite Hx. apply Qle_refl. }
    rewrite (fl_unfold x H0).
    assert (E : x / 2 ^ JsNum.exponent x == inject_Z (m * 2 ^ (e0 - JsNum.exponent x))).
    { rewrite Hx at 1. apply scaled_integer, Hle. }
    rewrite (round_even_comp _ _ E), round_even_Z, <- E.
    field. generalize (pow2_pos (JsNum.exponent x)). lra.
Qed.

Lemma fl_nonneg (x : Q) : 0 <= x -> 0 <= JsNum.fl x.
Proof.
  intros H. destruct (Qeq_dec x 0) as [H0 | H0].
  - rewrite (fl_zero x H0). apply Qle_refl.
  - rewrite (fl_unfold x H0). assert (Hp := pow2_pos (JsNum.exponent x)).
    apply Qmult_le_0_compat; [| lra].
    change 0 with (inject_Z 0). rewrite <- Zle_Qle.
    apply round_even_ge. change (inject_Z 0) with 0.
    apply Qle_shift_div_l; lra.
Qed.

(** Rounding does not step over a double. *)
Lemma fl_le_double (x y : Q) : 0 <= x -> x <= y -> JsNum.is_double y -> JsNum.fl x <= y.
Proof.
  intros Hx Hxy (m & e0 & Hm & He & Hy).
  destruct (Qeq_dec x 0) as [H0 | H0].
  - rewrite (fl_zero x H0). lra.
  - assert (Hle : (JsNum.exponent x <= e0)%Z).
    { apply (exponent_le_double x m e0 H0 Hm He). rewrite <- Hy.
      rewrite !Qabs_pos by lra. exact Hxy. }
    assert (Hp := pow2_pos (JsNum.exponent x)).
    rewrite (fl_unfold x H0).
    assert (E : y / 2 ^ JsNum.exponent x == inject_Z (m * 2 ^ (e0 - JsNum.exponent x))).
    { rewrite Hy at 1. apply scaled_integer, Hle. }
    assert (Hr : (JsNum.round_even (x / 2 ^ JsNum.exponent x) <= m * 2 ^ (e0 - JsNum.exponent x))%Z).
    { apply round_even_le. rewrite <- E.
      apply Qmult_le_compat_r; [exact Hxy |].
      apply Qlt_le_weak, Qinv_lt_0_compat, Hp. }
    rewrite Zle_Qle, <- E in Hr.
    apply Qle_trans with (y / 2 ^ JsNum.exponent x * 2 ^ JsNum.exponent x).
    + apply Qmult_le_compat_r; lra.
    + apply Qle_lteq. right. field. lra.
Qed.

End Doubles.


(** * Arithmetic of rounding *)

Section Rounding.

Lemma Math_round_nearest (x : Q) :
  inject_Z (JsNum.Math_round x) <= x + (1 # 2)
  /\ x + (1 # 2) < inject_Z (JsNum.Math_round x) + 1.
Proof.
  unfold JsNum.Math_round. split.
  - apply Qfloor_le.
  - generalize (Qlt_floor (x + (1 # 2))).
    rewrite inject_Z_plus. trivial.
Qed.


Lemma round_places_0 (x : Q) :
  Spec.round_places 0 x == inject_Z (JsNum.Math_round x).
Proof.
  unfold Spec.round_places, JsNum.Math_round.
  change (Spec.pow10 0) with 1.
  assert (E : x * 1 + (1 # 2) == x + (1 # 2)) by ring.
  rewrite (Qfloor_comp _ _ E). field.
Qed.

Lemma gt_true (x y : Q) : JsNum.gt x y = true <-> y < x.
Proof.
  unfold JsNum.gt. rewrite negb_true_iff.
  split; intros H.
  - apply Qnot_le_lt. intros Hle. apply Qle_bool_iff in Hle. congruence.
  - destruct (Qle_bool x y) eqn:E; [| reflexivity].
    apply Qle_bool_iff in E. lra.
Qed.

Lemma gt_false (x y : Q) : JsNum.gt x y = false <-> x <= y.
Proof.
  unfold JsNum.gt. rewrite negb_false_iff. apply Qle_bool_iff.
Qed.

Lemma or_default_zero (x : Q) : JsNum.or_default x 0 == x.
Proof.
  unfold JsNum.or_default. destruct (Qeq_bool x 0) eqn:E; [| reflexivity].
  apply Qeq_bool_iff in E. symmetry. exact E.
Qed.

End Rounding.

(** * The TypeScript attempt: the [pre('save')] hook *)

Section TypedAttempt.
Import Typed.

Lemma pre_save_stamps_keeps (now : Date) (x : ExamAttempt) :
  let x' := pre_save_stamps now x in
  score x' = score x /\ percentage x' = percentage x /\ passed x' = passed x.
Proof.
  unfold pre_save_stamps.
  destruct (Status_eqb (status x) submitted || Status_eqb (status x) auto_submitted);
    [| cbn; auto].
  destruct x as [ei si an st stt [en|] [sub|] tt sc pc tm ps ans ex]; cbn; auto.
Qed.

Lemma pre_save_passed_spec (x : ExamAttempt) :
  let x' := pre_save_passed x in
  score x' = score x /\ percentage x' = percentage x
  /\ passed x'
     = (if JsNum.gt (percentage x) 0
        then JsNum.ge (percentage x) (passMarkOrDefault x) else passed x).
Proof.
  unfold pre_save_passed.
  destruct (JsNum.gt (percentage x) 0); cbn; auto.
Qed.

Lemma pre_save_score_spec (a : ExamAttempt) :
  let has_answers := Nat.ltb 0 (List.length (answers a)) in
  let x := pre_save_score (pre_save_time a) in
  score x = (if has_answers then calculateScore a else score a)
  /\ percentage x
     = (if has_answers
        then calculatePercentage (set_score (calculateScore a) a)
        else percentage a)
  /\ passed x = passed a
  /\ passMarkOrDefault x = passMarkOrDefault a.
Proof.
  unfold pre_save_score, pre_save_time.
  destruct a as [ei si an st stt [en|] sub tt sc pc tm ps [|a0 ans] ex];
    cbn; auto.
Qed.

(** C10.  On every save, of whatever document and at whatever time, the
    hook recomputes [score] and [percentage] only when the answers array is
    non-empty: with no answers both stay as they were.  It recomputes
    [passed] only when the resulting percentage is strictly greater than 0
    (against the pass mark of the attached exam, or 50); otherwise [passed]
    stays as it was.  Consequently an attempt whose percentage is 0 keeps
    its previous [passed] value, whatever the pass mark. *)
Theorem pre_save_recomputes (now : Date) (a : ExamAttempt) :
  score (pre_save now a)
  = match answers a with
    | [] => score a
    | _ :: _ => calculateScore a
    end
  /\ percentage (pre_save now a)
     = match answers a with
       | [] => percentage a
       | _ :: _ => calculatePercentage (set_score (calculateScore a) a)
       end
  /\ passed (pre_save now a)
     = (if JsNum.gt (percentage (pre_save now a)) 0
        then JsNum.ge (percentage (pre_save now a)) (passMarkOrDefault a)
        else passed a)
  /\ (percentage (pre_save now a) == 0 ->
      passed (pre_save now a) = passed a).
Proof.
  destruct (pre_save_stamps_keeps now
              (pre_save_passed (pre_save_score (pre_save_time a))))
    as (Hs & Hp & Hps).
  destruct (pre_save_passed_spec (pre_save_score (pre_save_time a)))
    as (Hs' & Hp' & Hps').
  destruct (pre_save_score_spec a) as (Hs'' & Hp'' & Hps'' & Hpm).
  cbv zeta in Hs, Hp, Hps, Hs', Hp', Hps', Hs'', Hp'', Hps'', Hpm.
  fold (pre_save now a) in Hs, Hp, Hps.
  rewrite Hs' in Hs. rewrite Hp' in Hp. rewrite Hps' in Hps.
  rewrite <- Hp, Hpm, Hps'' in Hps.
  rewrite Hs'' in Hs. rewrite Hp'' in Hp.
  assert (Hcase : forall (A : Type) (x y : A),
             (if Nat.ltb 0 (List.length (answers a)) then x else y)
             = match answers a with [] => y | _ :: _ => x end).
  { intros A x y. destruct (answers a); reflexivity. }
  rewrite Hcase in Hs, Hp.
  split; [exact Hs | split; [exact Hp | split; [exact Hps |]]].
  intros Hz. rewrite Hps.
  assert (G : JsNum.gt (percentage (pre_save now a)) 0 = false).
  { apply gt_false. rewrite Hz. apply Qle_refl. }
  rewrite G. reflexivity.
Qed.

Lemma pre_save_recomputes_witness :
  percentage (pre_save 100000 Scenario.zero_percent_attempt) == 0
  /\ passed (pre_save 100000 Scenario.zero_percent_attempt) = false
  /\ Spec.passed 0 0 = true.
Proof.
  split; [vm_compute; reflexivity | split; [| reflexivity]].
  apply (proj2 (proj2 (proj2 (pre_save_recomputes 100000 Scenario.zero_percent_attempt)))).
  vm_compute. reflexivity.
Defined.

End TypedAttempt.

(** * Percentages *)

Section Percentage.

Lemma submit_update_scores (now : Date) (db : Legacy.Db) (e : Legacy.Exam)
    (req : Legacy.SubmitRequest) (attempt : Legacy.Attempt) :
  let u := Legacy.submit_update now db e req attempt in
  let p := Legacy.submit_percentage (Legacy.totalScore u) (Legacy.maxPossibleScore u) in
  Legacy.totalScore u = snd (Legacy.submit_loop db (Legacy.answers attempt) 0)
  /\ Legacy.maxPossibleScore u = Legacy.submit_maxPossibleScore db (Legacy.exam attempt)
  /\ Legacy.percentage u = Some (Legacy.round2 p)
  /\ Legacy.passed u = JsNum.ge p (Legacy.passMark e)
  /\ Legacy.status u = (if Legacy.showResults e then Legacy.graded else Legacy.submitted).
Proof.
  unfold Legacy.submit_update.
  destruct (Legacy.submit_loop db (Legacy.answers attempt) 0) as [answers' total].
  cbn. auto.
Qed.

(** Constants of the error analysis. *)
Lemma unit_roundoff : 2 ^ (-53) == 1 # 9007199254740992.
Proof. reflexivity. Qed.

Lemma subnormal_step : 2 ^ (-1075) <= 1 # 1152921504606846976.
Proof.
  apply Qle_trans with (2 ^ (-60)); [apply pow2_le; lia |].
  apply Qle_lteq. right. reflexivity.
Qed.

Lemma is_double_Z (n : Z) : (Z.abs n < 2 ^ 53)%Z -> JsNum.is_double (inject_Z n).
Proof.
  intros H. exists n, 0%Z. split; [exact H | split; [lia |]].
  change (2 ^ 0) with 1. ring.
Qed.

(** The error of one rounding, for a value of magnitude at most [bound]. *)
Lemma fl_error_bound (x bound : Q) :
  Qabs x <= bound ->
  Qabs (JsNum.fl x - x)
  <= bound * (1 # 9007199254740992) + (1 # 1152921504606846976).
Proof.
  intros Hb. apply Qle_trans with (1 := fl_rel_error x).
  rewrite unit_roundoff. assert (H := subnormal_step).
  set (t := 2 ^ (-1075)) in *. clearbody t.
  set (a := Qabs x) in *. clearbody a. nra.
Qed.

Lemma Qabs_bound (x e : Q) : Qabs x <= e <-> - e <= x /\ x <= e.
Proof. apply Qabs_Qle_condition. Qed.

(** [(s / t) * 100] in double arithmetic, for a part [s] of a whole [t]:
    the result lies between 0 and 100 and within [2^-45] of the exact
    percentage. *)
Lemma percent_double (s t : Q) :
  0 < t -> 0 <= s -> s <= t ->
  let p := JsNum.mul (JsNum.div s t) 100 in
  0 <= p /\ p <= 100 /\ Qabs (p - s / t * 100) <= 2 ^ (-45).
Proof.
  intros Ht Hs Hst. unfold JsNum.mul, JsNum.div.
  assert (Hx0 : 0 <= s / t) by (apply Qle_shift_div_l; lra).
  assert (Hx1 : s / t <= 1) by (apply Qle_shift_div_r; lra).
  set (x := s / t) in *. clearbody x.
  assert (H10 : 0 <= JsNum.fl x) by (apply fl_nonneg, Hx0).
  assert (H11 : JsNum.fl x <= 1).
  { apply fl_le_double; [exact Hx0 | exact Hx1 |]. apply (is_double_Z 1). reflexivity. }
  assert (E1 : Qabs (JsNum.fl x - x)
               <= 1 * (1 # 9007199254740992) + (1 # 1152921504606846976)).
  { apply fl_error_bound. rewrite Qabs_pos; assumption. }
  apply Qabs_bound in E1.
  set (p1 := JsNum.fl x) in *. clearbody p1.
  assert (H20 : 0 <= JsNum.fl (p1 * 100)) by (apply fl_nonneg; lra).
  assert (H21 : JsNum.fl (p1 * 100) <= 100).
  { apply fl_le_double; [lra | lra |]. apply (is_double_Z 100). reflexivity. }
  assert (E2 : Qabs (JsNum.fl (p1 * 100) - p1 * 100)
               <= 100 * (1 # 9007199254740992) + (1 # 1152921504606846976)).
  { apply fl_error_bound. rewrite Qabs_pos; lra. }
  apply Qabs_bound in E2.
  set (p := JsNum.fl (p1 * 100)) in *. clearbody p.
  split; [exact H20 | split; [exact H21 |]].
  change (2 ^ (-45)) with (1 # 35184372088832).
  apply Qabs_bound. split; lra.
Qed.

(** [Math.round(p * 100) / 100] in double arithmetic, for a percentage [p]
    between 0 and 100: the double nearest to a whole number of hundredths
    that is at most [1/200 + 2^-45] away from [p]. *)
Lemma round2_double (p : Q) :
  0 <= p -> p <= 100 ->
  (exists m : Z, Legacy.round2 p = JsNum.div (inject_Z m) 100)
  /\ Qabs (Legacy.round2 p - p) <= (1 # 200) + 2 ^ (-45).
Proof.
  intros H0 H1. unfold Legacy.round2. split; [eexists; reflexivity |].
  unfold JsNum.mul, JsNum.div.
  assert (Hw0 : 0 <= JsNum.fl (p * 100)) by (apply fl_nonneg; lra).
  assert (Hw1 : JsNum.fl (p * 100) <= 10000).
  { apply fl_le_double; [lra | lra |]. apply (is_double_Z 10000). reflexivity. }
  assert (Ew : Qabs (JsNum.fl (p * 100) - p * 100)
               <= 10000 * (1 # 9007199254740992) + (1 # 1152921504606846976)).
  { apply fl_error_bound. rewrite Qabs_pos; lra. }
  apply Qabs_bound in Ew.
  set (w := JsNum.fl (p * 100)) in *. clearbody w.
  destruct (Math_round_nearest w) as [Hm1 Hm2].
  set (m := inject_Z (JsNum.Math_round w)) in *. clearbody m.
  assert (Hq : m / 100 == m * (1 # 100)) by (field).
  assert (Er : Qabs (JsNum.fl (m / 100) - m / 100)
               <= 101 * (1 # 9007199254740992) + (1 # 1152921504606846976)).
  { apply fl_error_bound. rewrite Hq. apply Qabs_bound. split; lra. }
  apply Qabs_bound in Er.
  set (r := JsNum.fl (m / 100)) in *. clearbody r. rewrite Hq in Er.
  change (2 ^ (-45)) with (1 # 35184372088832).
  apply Qabs_bound. split; lra.
Qed.

(** C2, as the code has it.  [calculatePercentage] of the TypeScript attempt
    is 0 when [totalMarks] is 0 and otherwise [Math.round] of
    [(score / totalMarks) * 100], the quotient and the product rounded to
    doubles: always a whole number, and for a score between 0 and the total
    marks at most [1/2 + 2^-45] away from the exact percentage.  The submit
    handler assigns to [attempt.percentage] 0 when the exam has no points,
    and otherwise [Math.round(p * 100) / 100] for the double [p] it computes
    as [(totalScore / maxPossibleScore) * 100]: the double nearest to a
    whole number of hundredths, for a total score between 0 and the maximum
    at most [1/200 + 2^-44] away from the exact percentage.  Neither
    divides by zero. *)
Theorem percentage_rounding :
  (forall a : Typed.ExamAttempt,
      (Typed.totalMarks a == 0 -> Typed.calculatePercentage a = 0)
      /\ (exists n : Z, Typed.calculatePercentage a = inject_Z n)
      /\ (0 < Typed.totalMarks a ->
          0 <= Typed.score a -> Typed.score a <= Typed.totalMarks a ->
          Qabs (Typed.calculatePercentage a
                - Typed.score a / Typed.totalMarks a * 100)
          <= (1 # 2) + 2 ^ (-45)))
  /\ (forall now db e req attempt,
        exists p,
          Legacy.percentage (Legacy.submit_update now db e req attempt) = Some p
          /\ (exists m : Z, p = JsNum.div (inject_Z m) 100)
          /\ (Legacy.maxPossibleScore (Legacy.submit_update now db e req attempt) <= 0 ->
              p = 0)
          /\ (0 < Legacy.maxPossibleScore (Legacy.submit_update now db e req attempt) ->
              0 <= Legacy.totalScore (Legacy.submit_update now db e req attempt) ->
              Legacy.totalScore (Legacy.submit_update now db e req attempt)
              <= Legacy.maxPossibleScore (Legacy.submit_update now db e req attempt) ->
              Qabs (p - Legacy.totalScore (Legacy.submit_update now db e req attempt)
                        / Legacy.maxPossibleScore (Legacy.submit_update now db e req attempt)
                        * 100)
              <= (1 # 200) + 2 ^ (-44))).
Proof.
  split.
  - intros a. unfold Typed.calculatePercentage. split; [| split].
    + intros Hz. apply Qeq_bool_iff in Hz. rewrite Hz. reflexivity.
    + destruct (Qeq_bool (Typed.totalMarks a) 0); [exists 0%Z | eexists]; reflexivity.
    + intros Ht Hs Hst.
      assert (E : Qeq_bool (Typed.totalMarks a) 0 = false).
      { destruct (Qeq_bool (Typed.totalMarks a) 0) eqn:E; [| reflexivity].
        apply Qeq_bool_iff in E. lra. }
      rewrite E.
      destruct (percent_double (Typed.score a) (Typed.totalMarks a) Ht Hs Hst)
        as (_ & _ & Hp).
      apply Qabs_bound in Hp. change (2 ^ (-45)) with (1 # 35184372088832) in *.
      set (p := JsNum.mul (JsNum.div (Typed.score a) (Typed.totalMarks a)) 100) in *.
      destruct (Math_round_nearest p) as [Hn1 Hn2].
      set (x := Typed.score a / Typed.totalMarks a * 100) in *. clearbody x.
      clearbody p. apply Qabs_bound. split; lra.
  - intros now db e req attempt.
    destruct (submit_update_scores now db e req attempt) as (_ & _ & Hp & _).
    cbv zeta in Hp. eexists. split; [exact Hp |].
    set (u := Legacy.submit_update now db e req attempt) in *.
    split; [| split].
    + unfold Legacy.round2. eexists. reflexivity.
    + intros Hmax. unfold Legacy.submit_percentage.
      assert (G : JsNum.gt (Legacy.maxPossibleScore u) 0 = false)
        by (apply gt_false, Hmax).
      rewrite G. reflexivity.
    + intros Hmax Ht0 Ht1. unfold Legacy.submit_percentage.
      assert (G : JsNum.gt (Legacy.maxPossibleScore u) 0 = true)
        by (apply gt_true, Hmax).
      rewrite G.
      destruct (percent_double _ _ Hmax Ht0 Ht1) as (Hp0 & Hp1 & Hpe).
      destruct (round2_double _ Hp0 Hp1) as [_ Hr].
      apply Qabs_bound in Hpe. apply Qabs_bound in Hr.
      change (2 ^ (-45)) with (1 # 35184372088832) in *.
      change (2 ^ (-44)) with (1 # 17592186044416).
      set (p := JsNum.mul (JsNum.div (Legacy.totalScore u) (Legacy.maxPossibleScore u)) 100) in *.
      set (r := Legacy.round2 p) in *. clearbody r. clearbody p.
      set (x := Legacy.totalScore u / Legacy.maxPossibleScore u * 100) in *.
      clearbody x. apply Qabs_bound. split; lra.
Qed.

Lemma percentage_rounding_witness :
  Qabs (Typed.calculatePercentage Scenario.one_of_three - 1 / 3 * 100)
  <= (1 # 2) + 2 ^ (-45).
Proof.
  apply (proj2 (proj2 (proj1 percentage_rounding Scenario.one_of_three)));
    vm_compute; first [reflexivity | discriminate].
Defined.

(** C2 as the specification states it fails on [calculatePercentage]: one
    mark out of three gives 33, not 33.33. *)
Lemma calculatePercentage_not_two_places :
  Typed.calculatePercentage Scenario.one_of_three == 33
  /\ Spec.percentage 2 (Typed.score Scenario.one_of_three)
                       (Typed.totalMarks Scenario.one_of_three) == 3333 # 100
  /\ ~ Typed.calculatePercentage Scenario.one_of_three
       == Spec.percentage 2 (Typed.score Scenario.one_of_three)
                            (Typed.totalMarks Scenario.one_of_three).
Proof.
  split; [vm_compute; reflexivity | split; [reflexivity |]].
  vm_compute. discriminate.
Qed.

(** The arithmetic is that of doubles: 57 of 100 is a percentage just below
    57, 29 of 200 rounds to 14 and 23 of 160 to 14.37, where exact
    arithmetic gives 57, 15 and 14.38. *)
Lemma double_ties :
  Legacy.submit_percentage 57 100 < 57
  /\ JsNum.Math_round (JsNum.mul (JsNum.div 29 200) 100) = 14%Z
  /\ Legacy.round2 (Legacy.submit_percentage 23 160) == JsNum.fl (1437 # 100)
  /\ Spec.percentage 0 29 200 == 15
  /\ Spec.percentage 2 23 160 == 1438 # 100.
Proof. vm_compute. repeat split; congruence. Qed.

End Percentage.

(** * Marks awarded for an answer *)

Section Marks.

(** C5, as the code has it.  [calculateMarks] awards the question's marks
    for a correct answer and deducts [negativeMarks] for an incorrect one
    whenever the question carries negative marks: it behaves as if negative
    marking were always enabled, and never reads the exam's toggle.  The
    answer route awards the question's points for a correct answer to an
    objective question and 0 otherwise; it never deducts. *)
Theorem marks_awarded :
  (forall (q : Typed.Question) (answer : JsValue),
      0 <= Typed.negativeMarks q ->
      Typed.calculateMarks q answer
      == Spec.marksAwarded true (Typed.isCorrect q answer)
           (Typed.marks q) (Typed.negativeMarks q))
  /\ (forall (questionId : ObjectId) (q : Legacy.Question)
             (req : Legacy.AnswerRequest),
        Legacy.scoreAwarded (Legacy.answerData questionId q req)
        = Spec.marksAwarded false
            (negb (Legacy.is_short_answer (Legacy.type q))
             && Legacy.validateAnswer q (Legacy.ar_answer req))
            (Legacy.points q) 0).
Proof.
  split.
  - intros q answer Hnonneg. unfold Typed.calculateMarks, Spec.marksAwarded.
    destruct (Typed.isCorrect q answer); [reflexivity |].
    destruct (JsNum.gt (Typed.negativeMarks q) 0) eqn:G; [reflexivity |].
    apply gt_false in G.
    assert (E : Typed.negativeMarks q == 0) by (apply Qle_antisym; assumption).
    rewrite E. reflexivity.
  - intros questionId q req. unfold Legacy.answerData, Spec.marksAwarded. cbn.
    destruct (Legacy.is_short_answer (Legacy.type q)); cbn; [reflexivity |].
    destruct (Legacy.validateAnswer q (Legacy.ar_answer req)); reflexivity.
Qed.

Lemma marks_awarded_witness :
  Typed.calculateMarks Scenario.choice_question (JStr "B") == - (1).
Proof.
  apply (proj1 marks_awarded Scenario.choice_question (JStr "B")).
  vm_compute. discriminate.
Defined.

(** C5 as the specification states it fails: with negative marking switched
    off for the exam, a wrong answer still loses the question's negative
    marks. *)
Lemma penalty_ignores_exam_toggle :
  Typed.negativeMarking Scenario.exam_without_negative_marking = false
  /\ Typed.isCorrect Scenario.choice_question (JStr "B") = false
  /\ Typed.calculateMarks Scenario.choice_question (JStr "B") == - (1)
  /\ ~ Typed.calculateMarks Scenario.choice_question (JStr "B")
       == Spec.marksAwarded
            (Typed.negativeMarking Scenario.exam_without_negative_marking)
            (Typed.isCorrect Scenario.choice_question (JStr "B"))
            (Typed.marks Scenario.choice_question)
            (Typed.negativeMarks Scenario.choice_question).
Proof.
  repeat split; try reflexivity.
  vm_compute. discriminate.
Qed.

(** C7, as the code has it.  For an essay question [isCorrect] returns
    [false] for every answer (a boolean, never null), so an essay is never
    awarded its marks automatically; the marks awarded are 0 when the
    question carries no negative marks. *)
Theorem essay_evaluation (q : Typed.Question) (answer : JsValue) :
  Typed.type q = Typed.essay ->
  Typed.isCorrect q answer = false
  /\ Typed.ev_isCorrect (Typed.evaluate q answer) = Some false
  /\ (Typed.negativeMarks q == 0 -> Typed.ev_marksAwarded (Typed.evaluate q answer) = 0).
Proof.
  intros Ht.
  assert (H : Typed.isCorrect q answer = false).
  { unfold Typed.isCorrect. rewrite Ht. reflexivity. }
  split; [exact H | split].
  - unfold Typed.evaluate. cbn. rewrite H. reflexivity.
  - intros Hz. unfold Typed.evaluate, Typed.calculateMarks. cbn. rewrite H.
    assert (G : JsNum.gt (Typed.negativeMarks q) 0 = false).
    { apply gt_false. rewrite Hz. apply Qle_refl. }
    rewrite G. reflexivity.
Qed.

Lemma essay_evaluation_witness :
  Typed.isCorrect Scenario.essay_question (JStr "An essay.") = false
  /\ Typed.ev_marksAwarded (Typed.evaluate Scenario.essay_question (JStr "An essay.")) = 0.
Proof.
  destruct (essay_evaluation Scenario.essay_question (JStr "An essay.") eq_refl)
    as (H1 & _ & H3).
  split; [exact H1 |]. apply H3. reflexivity.
Defined.

(** C7 as the specification states it fails: the correctness flag of an
    essay is [false], not null. *)
Lemma essay_flag_is_not_null :
  Typed.evaluate Scenario.essay_question (JStr "An essay.")
  <> Typed.mkEvaluation None 0.
Proof. vm_compute. discriminate. Qed.

(** An essay whose question carries negative marks is charged them. *)
Lemma essay_with_penalty_is_charged :
  Typed.calculateMarks Scenario.essay_question_with_penalty (JStr "An essay.")
  == - (2).
Proof. reflexivity. Qed.

End Marks.

(** * Counting the documents of a collection *)

Section Counting.

Lemma filter_length_Permutation {A : Type} (p : A -> bool) (l l' : list A) :
  Permutation l l' ->
  List.length (List.filter p l) = List.length (List.filter p l').
Proof.
  induction 1 as [| x l l' _ IH | x y l | l l' l'' _ IH1 _ IH2]; cbn.
  - reflexivity.
  - destruct (p x); cbn; congruence.
  - destruct (p x), (p y); reflexivity.
  - congruence.
Qed.

Lemma countDocuments_store_fresh (p : Legacy.Attempt -> bool) (db : Legacy.Db)
    (id : ObjectId) (a : Legacy.Attempt) :
  Legacy.attempts db !! id = None ->
  Legacy.countDocuments p (Legacy.store_attempt db id a)
  = ((if p a then 1 else 0) + Legacy.countDocuments p db)%nat.
Proof.
  intros Hfresh. unfold Legacy.countDocuments, Legacy.store_attempt. cbn.
  rewrite (filter_length_Permutation p _
             (List.map snd ((id, a) :: map_to_list (Legacy.attempts db)))).
  - cbn. destruct (p a); reflexivity.
  - apply Permutation_map. apply map_to_list_insert. exact Hfresh.
Qed.

End Counting.

(** * Starting an attempt *)

Section Start.
Import Legacy.
Local Open Scope string_scope.

Lemma countsAsAttempt_iff (examId userId : ObjectId) (a : Attempt) :
  countsAsAttempt examId userId a = true
  <-> exam a = examId /\ student a = userId
      /\ (status a = submitted \/ status a = graded).
Proof.
  unfold countsAsAttempt, ObjId.eqb.
  rewrite !andb_true_iff, orb_true_iff, !String.eqb_eq.
  destruct (status a); cbn; intuition congruence.
Qed.

(** An attempt that is in progress or abandoned does not count. *)
Lemma canUserTakeExam_ignores (now : Date) (db : Db) (examId : ObjectId)
    (e : Exam) (userId id : ObjectId) (a : Attempt) :
  attempts db !! id = None ->
  status a = in_progress \/ status a = abandoned ->
  canUserTakeExam now (store_attempt db id a) examId e userId
  = canUserTakeExam now db examId e userId.
Proof.
  intros Hfresh Hst. unfold canUserTakeExam.
  rewrite countDocuments_store_fresh by exact Hfresh.
  assert (E : countsAsAttempt examId userId a = false).
  { unfold countsAsAttempt. destruct Hst as [-> | ->]; cbn;
      rewrite andb_false_r; reflexivity. }
  rewrite E. reflexivity.
Qed.

(** C8, as the code has it.  While the exam is available, a new attempt is
    refused, with the reason [Maximum attempts reached], exactly when
    retakes are not allowed and the student's attempts for the exam whose
    status is [submitted] or [graded] number at least [maxAttempts]; an
    abandoned attempt, like one in progress, is not counted.  The
    TypeScript [getRemainingAttempts] counts the attempts that are
    [submitted] or [auto_submitted]. *)
Theorem attempts_counted_against_limit
    (now : Date) (db : Db) (examId : ObjectId) (e : Exam) (userId : ObjectId) :
  isAvailable now e = true ->
  let count := countDocuments (countsAsAttempt examId userId) db in
  (canUserTakeExam now db examId e userId
   = (if (maxAttempts e <=? Z.of_nat count)%Z && negb (allowRetakes e)
      then mkCanTake false (Some "Maximum attempts reached")
      else mkCanTake true None))
  /\ (forall a, countsAsAttempt examId userId a = true
                <-> exam a = examId /\ student a = userId
                    /\ (status a = submitted \/ status a = graded))
  /\ (forall id a, attempts db !! id = None -> status a = abandoned ->
                   canUserTakeExam now (store_attempt db id a) examId e userId
                   = canUserTakeExam now db examId e userId)
  /\ (forall (coll : list Typed.ExamAttempt) (te : Typed.Exam),
         Typed.getRemainingAttempts coll te userId
         = Z.max 0 (Typed.maxAttempts te
                    - Z.of_nat (List.length
                                  (List.filter (Typed.countsAsUsed te userId) coll))))
  /\ (forall (te : Typed.Exam) (a : Typed.ExamAttempt),
         Typed.countsAsUsed te userId a = true
         <-> Typed.examId a = Typed.e_id te /\ Typed.studentId a = userId
             /\ (Typed.status a = Typed.submitted
                 \/ Typed.status a = Typed.auto_submitted)).
Proof.
  intros Hav count. split; [| split; [| split; [| split]]].
  - unfold canUserTakeExam. rewrite Hav. cbn. reflexivity.
  - intros a. apply countsAsAttempt_iff.
  - intros id a Hfresh Hst. apply canUserTakeExam_ignores; auto.
  - reflexivity.
  - intros te a. unfold Typed.countsAsUsed, ObjId.eqb.
    rewrite !andb_true_iff, orb_true_iff, !String.eqb_eq.
    destruct (Typed.status a); cbn; intuition congruence.
Qed.

Lemma attempts_counted_against_limit_witness :
  canUserTakeExam 500 Scenario.db_abandoned Scenario.exam_id Scenario.exam60
    Scenario.student_id
  = mkCanTake true None.
Proof.
  apply (proj1 (attempts_counted_against_limit 500 Scenario.db_abandoned
                  Scenario.exam_id Scenario.exam60 Scenario.student_id eq_refl)).
Defined.

(** C8 as the specification states it fails: the student's one abandoned
    attempt is a prior attempt in a terminal status and [maxAttempts] is 1,
    yet the student may start again. *)
Lemma abandoned_attempt_not_counted :
  countDocuments (Spec.terminalFor Scenario.exam_id Scenario.student_id)
    Scenario.db_abandoned = 1%nat
  /\ Spec.mayStart (maxAttempts Scenario.exam60) (allowRetakes Scenario.exam60)
       (countDocuments (Spec.terminalFor Scenario.exam_id Scenario.student_id)
          Scenario.db_abandoned) = false
  /\ canTake (canUserTakeExam 500 Scenario.db_abandoned Scenario.exam_id
                Scenario.exam60 Scenario.student_id) = true.
Proof. vm_compute. auto. Qed.

(** C4, as the code has it.  Every successful start request creates a new
    attempt, in progress, under a fresh identifier; an attempt of the same
    student for the same exam that is still in progress is neither looked
    for nor returned, so the number of attempts in progress grows by one. *)
Theorem start_creates_attempt (now : Date) (newId : ObjectId) (db db' : Db)
    (req : StartRequest) (message : string) (data : StartData) :
  start_exam now newId db req = (db', Success message data) ->
  exists examId,
    ObjId.cast (sr_examId req) = Some examId
    /\ sd_attemptId data = newId
    /\ sd_attempt data = new_attempt now req examId
    /\ status (sd_attempt data) = in_progress
    /\ attempts db' = <[newId := new_attempt now req examId]> (attempts db)
    /\ (attempts db !! newId = None ->
        countDocuments (Spec.inProgressFor examId (sr_user req)) db'
        = S (countDocuments (Spec.inProgressFor examId (sr_user req)) db)).
Proof.
  unfold start_exam. intros H.
  destruct (ObjId.cast (sr_examId req)) as [examId |]; [| discriminate].
  destruct (Exam_findById db examId) as [e |]; [| discriminate].
  destruct (negb (canTake (canUserTakeExam now db examId e (sr_user req))));
    [discriminate |].
  cbn in H. injection H as <- <- <-. exists examId. cbn. repeat split.
  intros Hfresh.
  change (mkDb (exams db) (questions db)
            (<[newId:=new_attempt now req examId]> (attempts db)))
    with (store_attempt db newId (new_attempt now req examId)).
  rewrite countDocuments_store_fresh by exact Hfresh.
  unfold Spec.inProgressFor, ObjId.eqb. cbn. rewrite !String.eqb_refl.
  reflexivity.
Qed.

Lemma start_creates_attempt_witness :
  exists examId,
    ObjId.cast (sr_examId Scenario.start_request) = Some examId
    /\ attempts Scenario.db_started_twice
       = <[Scenario.second_attempt_id := new_attempt 20 Scenario.start_request examId]>
           (attempts Scenario.db_started).
Proof.
  destruct (start_creates_attempt 20 Scenario.second_attempt_id
              Scenario.db_started Scenario.db_started_twice
              Scenario.start_request "Exam started successfully"
              (mkStartData Scenario.second_attempt_id
                 (new_attempt 20 Scenario.start_request Scenario.exam_id) 60)
              ltac:(vm_compute; reflexivity))
    as (examId & Hc & _ & _ & _ & Ha & _).
  exists examId. split; assumption.
Defined.

(** C4 as the specification states it fails: a second start request, made
    while the first attempt is in progress, succeeds with a new attempt,
    and two attempts of the student for the exam are in progress. *)
Lemma second_start_creates_second_attempt :
  (sd_attemptId <$> response_data
     (snd (start_exam 10 Scenario.attempt_id Scenario.db0 Scenario.start_request)))
  = Some Scenario.attempt_id
  /\ (sd_attemptId <$> response_data
        (snd (start_exam 20 Scenario.second_attempt_id Scenario.db_started
                Scenario.start_request)))
     = Some Scenario.second_attempt_id
  /\ countDocuments (Spec.inProgressFor Scenario.exam_id Scenario.student_id)
       Scenario.db_started_twice = 2%nat.
Proof. vm_compute. auto. Qed.

End Start.

(** * Saving an answer *)

Section SaveAnswer.
Import Legacy.
Local Open Scope string_scope.

Lemma upsert_nil (rid : string) (d : Answer) : upsert_answer rid d [] = [d].
Proof. reflexivity. Qed.

Lemma upsert_cons_found (rid : string) (d x : Answer) (rest : list Answer) :
  answersQuestion rid x = true ->
  upsert_answer rid d (x :: rest) = d :: rest.
Proof.
  unfold upsert_answer. cbn. intros ->. reflexivity.
Qed.

Lemma upsert_cons_other (rid : string) (d x : Answer) (rest : list Answer) :
  answersQuestion rid x = false ->
  upsert_answer rid d (x :: rest) = x :: upsert_answer rid d rest.
Proof.
  unfold upsert_answer. cbn. intros ->.
  set (i := findIndex (answersQuestion rid) rest).
  destruct (i <? 0)%Z eqn:Hneg.
  - apply Z.ltb_lt in Hneg.
    assert (E : (-1 <? i)%Z = false) by (apply Z.ltb_ge; lia).
    rewrite E. reflexivity.
  - apply Z.ltb_ge in Hneg.
    assert (E1 : (-1 <? i + 1)%Z = true) by (apply Z.ltb_lt; lia).
    assert (E2 : (-1 <? i)%Z = true) by (apply Z.ltb_lt; lia).
    rewrite E1, E2.
    replace (Z.to_nat (i + 1)) with (S (Z.to_nat i)) by lia.
    reflexivity.
Qed.

(** The upsert is idempotent when the record it writes is found again under
    the string of the request. *)
Lemma upsert_idempotent (rid : string) (d : Answer) (l : list Answer) :
  answersQuestion rid d = true ->
  upsert_answer rid d (upsert_answer rid d l) = upsert_answer rid d l.
Proof.
  intros Hd. induction l as [| x rest IH].
  - rewrite upsert_nil. apply upsert_cons_found, Hd.
  - destruct (answersQuestion rid x) eqn:E.
    + rewrite (upsert_cons_found rid d x rest E).
      apply upsert_cons_found, Hd.
    + rewrite (upsert_cons_other rid d x rest E).
      rewrite (upsert_cons_other rid d x _ E). f_equal. exact IH.
Qed.

Lemma no_answer_for (rid : string) (l : list Answer) :
  ~ List.In rid (List.map question l) ->
  List.filter (answersQuestion rid) l = [].
Proof.
  induction l as [| x rest IH]; cbn; intros Hnotin; [reflexivity |].
  destruct (answersQuestion rid x) eqn:E.
  - exfalso. apply Hnotin. left. apply String.eqb_eq. exact E.
  - apply IH. intros Hin. apply Hnotin. right. exact Hin.
Qed.

Lemma upsert_questions (d : Answer) (l : list Answer) (q : ObjectId) :
  List.In q (List.map question (upsert_answer (question d) d l))
  <-> q = question d \/ List.In q (List.map question l).
Proof.
  induction l as [| x rest IH].
  - rewrite upsert_nil. cbn. intuition.
  - destruct (answersQuestion (question d) x) eqn:E.
    + rewrite (upsert_cons_found _ d x rest E).
      apply String.eqb_eq in E. unfold ObjId.toString in E.
      cbn. rewrite E. intuition.
    + rewrite (upsert_cons_other _ d x rest E). cbn. rewrite IH. intuition.
Qed.

(** When the request names the question by its canonical identifier, an
    upsert keeps the answers of an attempt one per question, and leaves
    exactly one for the question answered. *)
Lemma upsert_one_per_question (d : Answer) (l : list Answer) :
  List.NoDup (List.map question l) ->
  List.NoDup (List.map question (upsert_answer (question d) d l))
  /\ List.filter (answersQuestion (question d)) (upsert_answer (question d) d l)
     = [d].
Proof.
  assert (Hd : answersQuestion (question d) d = true) by apply String.eqb_refl.
  induction l as [| x rest IH]; intros Hnd.
  - rewrite upsert_nil. cbn. rewrite Hd.
    split; [| reflexivity]. constructor; [intros [] | constructor].
  - inversion Hnd as [| ? ? Hnotin Hnd']; subst.
    destruct (answersQuestion (question d) x) eqn:E.
    + rewrite (upsert_cons_found _ d x rest E).
      assert (Eq : question x = question d) by (apply String.eqb_eq; exact E).
      cbn. rewrite Hd, <- Eq. split.
      * constructor; assumption.
      * f_equal. apply no_answer_for. exact Hnotin.
    + rewrite (upsert_cons_other _ d x rest E).
      destruct (IH Hnd') as [IH1 IH2]. cbn. rewrite E. split; [| exact IH2].
      constructor; [| exact IH1].
      intros Hin. apply upsert_questions in Hin. destruct Hin as [Hq | Hin].
      * apply String.eqb_neq in E. unfold ObjId.toString in E. congruence.
      * contradiction.
Qed.

Lemma findInProgress_Some (db : Db) (id user : ObjectId) (a : Attempt) :
  findInProgress db id user = Some a
  <-> attempts db !! id = Some a /\ student a = user /\ status a = in_progress.
Proof.
  unfold findInProgress, ObjId.eqb. destruct (attempts db !! id) as [a0 |].
  - destruct (String.eqb (student a0) user) eqn:E1.
    + destruct (status a0) eqn:E2; cbn; apply String.eqb_eq in E1;
        split; try discriminate.
      * intros [= <-]. auto.
      * intros ([= <-] & _ & _). reflexivity.
      * intros ([= <-] & _ & ?). congruence.
      * intros ([= <-] & _ & ?). congruence.
      * intros ([= <-] & _ & ?). congruence.
    + cbn. split; [discriminate |]. intros ([= <-] & Hs & _).
      apply String.eqb_neq in E1. contradiction.
  - split; [discriminate | intros ([=] & _)].
Qed.

Lemma pre_save_in_progress (view : Populated) (a : Attempt) :
  status a = in_progress -> pre_save view a = a.
Proof.
  intros H. unfold pre_save. rewrite H. cbn. rewrite andb_false_r. reflexivity.
Qed.

(** What the handler does when the request is valid, the attempt is found
    in progress, the question exists and the document passes validation. *)
Lemma save_answer_run (now : Date) (db : Db) (req : AnswerRequest)
    (attemptId questionId : ObjectId) (attempt : Attempt) (q : Question) :
  ar_errors req = [] ->
  ObjId.cast (ar_attemptId req) = Some attemptId ->
  findInProgress db attemptId (ar_user req) = Some attempt ->
  ObjId.cast (ar_questionId req) = Some questionId ->
  questions db !! questionId = Some q ->
  schemaValid attempt = true ->
  save_answer now db req
  = (store_attempt db attemptId
       (with_answers
          (upsert_answer (ar_questionId req) (answerData questionId q req)
             (answers attempt))
          attempt),
     Success "Answer saved successfully"
       (mkAnswerData
          (match isCorrect (answerData questionId q req) with
           | Some b => b
           | None => false
           end)
          (scoreAwarded (answerData questionId q req)))).
Proof.
  intros He Ha Hf Hc Hq Hv. unfold save_answer, Question_findById, save_document.
  rewrite He, Ha, Hf, Hc, Hq.
  change (schemaValid (with_answers _ attempt)) with (schemaValid attempt).
  rewrite Hv.
  apply findInProgress_Some in Hf. destruct Hf as (_ & _ & Hst).
  rewrite pre_save_in_progress by exact Hst. reflexivity.
Qed.

(** The handler either runs as above or fails without touching the
    database. *)
Lemma save_answer_outcome (now : Date) (db : Db) (req : AnswerRequest) :
  (exists attemptId questionId attempt q,
      ar_errors req = []
      /\ ObjId.cast (ar_attemptId req) = Some attemptId
      /\ findInProgress db attemptId (ar_user req) = Some attempt
      /\ ObjId.cast (ar_questionId req) = Some questionId
      /\ questions db !! questionId = Some q
      /\ schemaValid attempt = true)
  \/ (fst (save_answer now db req) = db
      /\ List.In (snd (save_answer now db req)) save_answer_failures).
Proof.
  unfold save_answer, Question_findById, save_document, save_answer_failures.
  destruct (ar_errors req); [| right; cbn; auto].
  destruct (ObjId.cast (ar_attemptId req)) as [attemptId |];
    [| right; cbn; auto 6].
  destruct (findInProgress db attemptId (ar_user req)) as [attempt |] eqn:Hf;
    [| right; cbn; auto].
  destruct (ObjId.cast (ar_questionId req)) as [questionId |];
    [| right; cbn; auto 6].
  destruct (questions db !! questionId) as [q |] eqn:Hq;
    [| right; cbn; auto].
  change (schemaValid (with_answers _ attempt)) with (schemaValid attempt).
  destruct (schemaValid attempt) eqn:Hv; [| right; cbn; auto 6].
  left. exists attemptId, questionId, attempt, q. auto 7.
Qed.

(** Saving the same answer a second time changes nothing when the request
    names the question by its canonical identifier, the string that
    [toString()] prints: the database and the response are those of the
    first call, the attempt holds one answer for the question, and a later
    submission scores the same. *)
Lemma save_answer_idempotent (now now' : Date) (db db1 : Db)
    (req : AnswerRequest) (message : string) (data : AnswerData) :
  ObjId.cast (ar_questionId req) = Some (ar_questionId req) ->
  save_answer now db req = (db1, Success message data) ->
  save_answer now' db1 req = (db1, Success message data)
  /\ (forall attemptId a0,
        ObjId.cast (ar_attemptId req) = Some attemptId ->
        attempts db !! attemptId = Some a0 ->
        List.NoDup (List.map question (answers a0)) ->
        exists a1 d,
          attempts db1 !! attemptId = Some a1
          /\ List.NoDup (List.map question (answers a1))
          /\ List.filter (answersQuestion (ar_questionId req)) (answers a1) = [d]
          /\ studentAnswer d = ar_answer req)
  /\ (forall t sreq,
        submit_exam t (fst (save_answer now' db1 req)) sreq
        = submit_exam t db1 sreq).
Proof.
  intros Hcanon H.
  destruct (save_answer_outcome now db req)
    as [(aid & qid & attempt & q & He & Ha & Hf & Hc & Hq & Hv) | [_ Hfail]].
  2: { rewrite H in Hfail. cbn in Hfail.
       repeat (destruct Hfail as [Hfail | Hfail]; [discriminate |]).
       destruct Hfail. }
  rewrite (save_answer_run now db req aid qid attempt q He Ha Hf Hc Hq Hv) in H.
  injection H as <- <- <-.
  assert (qid = ar_questionId req) by congruence. subst qid.
  set (rid := ar_questionId req) in *.
  set (d := answerData rid q req).
  set (attempt' := with_answers (upsert_answer rid d (answers attempt)) attempt).
  assert (Hd : answersQuestion rid d = true) by apply String.eqb_refl.
  apply findInProgress_Some in Hf as (Hl & Hs & Hst).
  assert (Hf' : findInProgress (store_attempt db aid attempt') aid (ar_user req)
                = Some attempt').
  { apply findInProgress_Some. cbn. rewrite lookup_insert_eq. auto. }
  assert (Hrun : save_answer now' (store_attempt db aid attempt') req
                 = (store_attempt db aid attempt',
                    Success "Answer saved successfully"
                      (mkAnswerData
                         (match isCorrect d with Some b => b | None => false end)
                         (scoreAwarded d)))).
  { rewrite (save_answer_run now' _ req aid rid attempt' q He Ha Hf' Hc Hq Hv).
    f_equal. unfold attempt' at 2 3. cbn [answers with_answers].
    fold d. rewrite (upsert_idempotent rid d _ Hd).
    unfold store_attempt. cbn. rewrite insert_insert_eq. reflexivity. }
  split; [exact Hrun | split].
  - intros attemptId a0 Hcast Ha0 Hnd.
    assert (attemptId = aid) by congruence. subst attemptId.
    rewrite Hl in Ha0. injection Ha0 as <-.
    destruct (upsert_one_per_question d (answers attempt) Hnd) as [Hnd' Hone].
    exists attempt', d. cbn. rewrite lookup_insert_eq.
    repeat split; assumption.
  - intros t sreq. rewrite Hrun. reflexivity.
Qed.

(** C9 on the code.  The answer route looks for the existing answer by
    comparing [a.question.toString()], which prints lowercase digits, with
    the string of the request.  A request that writes the identifier of the
    question with a capital digit passes validation and finds the question,
    but not the answer it stored before: the second identical call appends
    a second answer for the same question, and the submission counts the
    question twice. *)
Theorem capital_question_id_duplicates_answer :
  let req := Scenario.answer_request_capital in
  let once := fst (save_answer 30 Scenario.db_started req) in
  let twice := fst (save_answer 40 once req) in
  is_success (snd (save_answer 30 Scenario.db_started req)) = true
  /\ is_success (snd (save_answer 40 once req)) = true
  /\ (List.map question <$> (answers <$> attempts once !! Scenario.attempt_id))
     = Some [Scenario.question1_id]
  /\ (List.map question <$> (answers <$> attempts twice !! Scenario.attempt_id))
     = Some [Scenario.question1_id; Scenario.question1_id]
  /\ (r_totalScore <$> (sbd_result <$> response_data
        (snd (submit_exam 50 once Scenario.submit_request)))) = Some 5
  /\ (r_totalScore <$> (sbd_result <$> response_data
        (snd (submit_exam 50 twice Scenario.submit_request)))) = Some 10.
Proof. vm_compute. auto 7. Qed.

(** C3, as the code has it.  The time at which an answer arrives plays no
    part: the write succeeds exactly when the request is valid, the attempt
    is found in progress for the requesting student, the question exists
    and the document passes validation.  Otherwise the handler fails with
    400, 404 or 500 and leaves the database as it was.  In no case does it
    change the status of an attempt: it never submits. *)
Theorem save_answer_ignores_time (now : Date) (db : Db) (req : AnswerRequest) :
  (forall now', save_answer now' db req = save_answer now db req)
  /\ (is_success (snd (save_answer now db req)) = true
      <-> ar_errors req = []
          /\ exists attemptId questionId attempt,
               ObjId.cast (ar_attemptId req) = Some attemptId
               /\ findInProgress db attemptId (ar_user req) = Some attempt
               /\ ObjId.cast (ar_questionId req) = Some questionId
               /\ is_Some (questions db !! questionId)
               /\ schemaValid attempt = true)
  /\ (is_success (snd (save_answer now db req)) = false
      -> fst (save_answer now db req) = db
         /\ List.In (snd (save_answer now db req)) save_answer_failures)
  /\ (forall id, status <$> (attempts (fst (save_answer now db req)) !! id)
                 = status <$> (attempts db !! id)).
Proof.
  split; [reflexivity |].
  destruct (save_answer_outcome now db req)
    as [(aid & qid & attempt & q & He & Ha & Hf & Hc & Hq & Hv) | [Hdb Hfail]].
  - rewrite (save_answer_run now db req aid qid attempt q He Ha Hf Hc Hq Hv). cbn.
    split; [| split].
    + split; [| reflexivity]. intros _. split; [exact He |].
      exists aid, qid, attempt. rewrite Hq. eauto 6.
    + discriminate.
    + intros id. apply findInProgress_Some in Hf as (Hl & _ & _).
      destruct (string_dec aid id) as [<- | Hne].
      * rewrite lookup_insert_eq, Hl. reflexivity.
      * rewrite lookup_insert_ne by exact Hne. reflexivity.
  - assert (Hns : is_success (snd (save_answer now db req)) = false).
    { unfold save_answer_failures in Hfail. cbn in Hfail.
      destruct Hfail as [<- | [<- | [<- | [<- | []]]]]; reflexivity. }
    split; [| split].
    + rewrite Hns. split; [discriminate |].
      intros (He & aid & qid & attempt & Ha & Hf & Hc & [q Hq] & Hv). exfalso.
      rewrite (save_answer_run now db req aid qid attempt q He Ha Hf Hc Hq Hv)
        in Hns.
      discriminate.
    + auto.
    + intros id. rewrite Hdb. reflexivity.
Qed.

(** C3 as the specification states it fails: an answer that arrives 61
    seconds after the start of a one-minute attempt is saved, and the
    attempt stays in progress. *)
Lemma late_answer_is_saved :
  Spec.expired 10 60 61010 = true
  /\ snd (save_answer 61010 Scenario.db_started Scenario.answer_request)
     = Success "Answer saved successfully" (mkAnswerData true 5)
  /\ (answers <$> attempts (fst (save_answer 61010 Scenario.db_started
                                   Scenario.answer_request))
                    !! Scenario.attempt_id)
     = Some [mkAnswer Scenario.question1_id (JStr "A") (Some true) false 5 30 None]
  /\ (status <$> attempts (fst (save_answer 61010 Scenario.db_started
                                  Scenario.answer_request))
                   !! Scenario.attempt_id)
     = Some in_progress.
Proof. vm_compute. auto. Qed.

End SaveAnswer.

(** * Submitting an attempt *)

Section Submit.
Import Legacy.
Local Open Scope string_scope.

Lemma findOwned_Some (db : Db) (id user : ObjectId) (a : Attempt) :
  findOwned db id user = Some a
  <-> attempts db !! id = Some a /\ student a = user.
Proof.
  unfold findOwned, ObjId.eqb. destruct (attempts db !! id) as [a0 |].
  - destruct (String.eqb (student a0) user) eqn:E.
    + apply String.eqb_eq in E. split.
      * intros [= <-]. auto.
      * intros ([= <-] & _). reflexivity.
    + apply String.eqb_neq in E. split; [discriminate |].
      intros ([= <-] & Hs). contradiction.
  - split; [discriminate | intros ([=] & _)].
Qed.

Lemma submit_update_no_answers (now : Date) (db : Db) (e : Exam)
    (req : SubmitRequest) (attempt : Attempt) :
  answers attempt = [] ->
  pre_save (examPopulated e) (submit_update now db e req attempt)
  = submit_update now db e req attempt.
Proof.
  intros H. unfold submit_update. rewrite H. cbn. reflexivity.
Qed.

(** C1, as the code has it.  When the submit handler finalizes an attempt,
    the [passed] flag it computes and reports is [percentage >= passMark],
    where the percentage is [(totalScore / maxPossibleScore) * 100] in
    double arithmetic, before it is rounded to two places (0 when the
    maximum is not positive), and the pass mark is read from the exam
    document in the database when the submission is handled; the attempt
    stores no pass mark.  It is the flag stored with an attempt that has no
    answers.  [isPassed] of the TypeScript attempt compares the stored
    percentage with the pass mark of the attached exam, or with 50 when no
    exam is attached or its pass mark is 0. *)
Theorem passed_uses_live_pass_mark (now : Date) (db db' : Db)
    (req : SubmitRequest) (message : string) (data : SubmitData) :
  submit_exam now db req = (db', Success message data) ->
  (exists attemptId attempt e,
      ObjId.cast (sb_attemptId req) = Some attemptId
      /\ attempts db !! attemptId = Some attempt
      /\ exams db !! exam attempt = Some e
      /\ r_passed (sbd_result data)
         = Spec.passed
             (submit_percentage (r_totalScore (sbd_result data))
                                (r_maxPossibleScore (sbd_result data)))
             (passMark e)
      /\ attempts db' !! attemptId = Some (sbd_attempt data)
      /\ (answers attempt = [] ->
          passed (sbd_attempt data) = r_passed (sbd_result data)))
  /\ (forall a : Typed.ExamAttempt,
         Typed.isPassed a
         = Spec.passed (Typed.percentage a) (Typed.passMarkOrDefault a)).
Proof.
  intros H. split; [| reflexivity].
  unfold submit_exam in H.
  destruct (ObjId.cast (sb_attemptId req)) as [aid |]; [| discriminate].
  destruct (findOwned db aid (sb_user req)) as [attempt |] eqn:Hf;
    [| discriminate].
  destruct (negb (Status_eqb (status attempt) in_progress)); [discriminate |].
  unfold Exam_findById in H.
  destruct (exams db !! exam attempt) as [e |] eqn:He; [| discriminate].
  unfold save_document in H.
  destruct (schemaValid (submit_update now db e req attempt)); [| discriminate].
  injection H as <- _ <-. cbn.
  apply findOwned_Some in Hf as [Hl _].
  destruct (submit_update_scores now db e req attempt) as (_ & _ & _ & Hp & _).
  exists aid, attempt, e. rewrite lookup_insert_eq.
  repeat split; try assumption.
  intros Hnil. rewrite submit_update_no_answers by exact Hnil. reflexivity.
Qed.

Lemma passed_uses_live_pass_mark_witness :
  exists attemptId attempt e,
    ObjId.cast (sb_attemptId Scenario.submit_request) = Some attemptId
    /\ attempts Examples.db57_answered !! attemptId = Some attempt
    /\ List.map scoreAwarded (answers attempt) = [57]
    /\ exams Examples.db57_answered !! exam attempt = Some e
    /\ passMark e = 57
    /\ false = Spec.passed (submit_percentage 57 100) (passMark e).
Proof.
  destruct (proj1 (passed_uses_live_pass_mark 50000 Examples.db57_answered
              (fst (submit_exam 50000 Examples.db57_answered Scenario.submit_request))
              Scenario.submit_request "Exam submitted successfully"
              (mkSubmitData
                 (mkAttempt Scenario.student_id Scenario.exam_id
                    [mkAnswer Scenario.question1_id (JStr "A") (Some true)
                       false 57 30 None]
                    10 (Some 50000%Z) 0 57 0 (Some 0) false
                    submitted "10.0.0.1" "Mozilla/5.0")
                 (mkSubmitResult 57 100 (Some 0) false (Some 49%Z)))
              ltac:(vm_compute; reflexivity)))
    as (aid & attempt & e & H0 & H1 & H2 & H3 & _).
  exists aid, attempt, e. cbn in H3.
  vm_compute in H0. injection H0 as <-.
  assert (Ha := H1). vm_compute in Ha. injection Ha as <-.
  assert (He := H2). vm_compute in He. injection He as <-.
  repeat split; try assumption; reflexivity.
Defined.

(** C1 as the specification states it fails.  The attempt was started when
    the pass mark of the exam was 60; the pass mark is then edited to 0 and
    the attempt submitted, with no answer.  The stored percentage is 0 and
    the stored flag says passed, against the pass mark of 60 that a
    snapshot taken with the attempt would hold. *)
Lemma passed_follows_edited_exam :
  exams Scenario.db_started !! Scenario.exam_id = Some Scenario.exam60
  /\ passMark Scenario.exam60 == 60
  /\ exists stored p,
       attempts (fst (submit_exam 50000 Scenario.db_edited Scenario.submit_request))
         !! Scenario.attempt_id = Some stored
       /\ percentage stored = Some p /\ p == 0
       /\ passed stored = true
       /\ Spec.passed p (passMark Scenario.exam60) = false.
Proof.
  split; [reflexivity | split; [reflexivity |]].
  eexists. eexists. split; [vm_compute; reflexivity |].
  cbn. repeat split; reflexivity.
Qed.

End Submit.

(** * Normalizing a short answer *)

Section Normalization.
Import JsStr.
Local Open Scope string_scope.
Local Arguments is_space : simpl never.

Lemma trimEnd_head (c : ascii) (t : string) :
  (trimEnd (String c t) = "" /\ is_space c = true)
  \/ exists r, trimEnd (String c t) = String c r.
Proof.
  cbn. destruct (trimEnd t).
  - destruct (is_space c); eauto.
  - eauto.
Qed.

Lemma trimEnd_fixed_cons (c : ascii) (t : string) :
  trimEnd (String c t) = String c t ->
  (t = "" /\ is_space c = false) \/ (t <> "" /\ trimEnd t = t).
Proof.
  cbn. destruct (trimEnd t) as [| a s] eqn:E.
  - destruct (is_space c); [discriminate |]. intros [= <-]. auto.
  - intros [= <-]. right. split; [discriminate | reflexivity].
Qed.

Lemma trimEnd_idempotent (t : string) : trimEnd (trimEnd t) = trimEnd t.
Proof.
  induction t as [| c t IH]; [reflexivity |].
  cbn. destruct (trimEnd t) as [| a s] eqn:E.
  - destruct (is_space c) eqn:Ec; cbn; [reflexivity |]. rewrite Ec. reflexivity.
  - cbn [trimEnd]. cbn [trimEnd] in IH. rewrite IH. reflexivity.
Qed.

Lemma trimStart_no_leading_space (t : string) :
  starts_with_space (trimStart t) = false.
Proof.
  induction t as [| c t IH]; [reflexivity |].
  cbn. destruct (is_space c) eqn:E; [exact IH |]. cbn. exact E.
Qed.

Lemma trimEnd_no_leading_space (t : string) :
  starts_with_space t = false -> starts_with_space (trimEnd t) = false.
Proof.
  destruct t as [| c t]; [reflexivity |]. intros H.
  destruct (trimEnd_head c t) as [[-> _] | [r ->]]; [reflexivity | exact H].
Qed.

Lemma words_cons_space (c : ascii) (t : string) :
  is_space c = true -> Spec.words (String c t) = Spec.words t.
Proof. intros H. cbn. rewrite H. reflexivity. Qed.

Lemma words_nonempty_head (c : ascii) (t : string) :
  is_space c = false -> exists w ws, Spec.words (String c t) = w :: ws.
Proof.
  intros H. cbn. rewrite H. destruct t as [| c' t]; [eauto |].
  destruct (is_space c'); [eauto |].
  destruct (Spec.words (String c' t)); eauto.
Qed.

Lemma words_trimStart (t : string) : Spec.words (trimStart t) = Spec.words t.
Proof.
  induction t as [| c t IH]; [reflexivity |].
  cbn [trimStart]. destruct (is_space c) eqn:E; [| reflexivity].
  rewrite IH. symmetry. apply words_cons_space. exact E.
Qed.

Lemma words_single (c : ascii) :
  is_space c = false -> Spec.words (String c "") = [String c ""].
Proof. intros H. cbn. rewrite H. reflexivity. Qed.

Lemma words_char_space (c c' : ascii) (t : string) :
  is_space c = false -> is_space c' = true ->
  Spec.words (String c (String c' t)) = String c "" :: Spec.words (String c' t).
Proof.
  intros H H'.
  change (Spec.words (String c (String c' t)))
    with (if is_space c then Spec.words (String c' t)
          else if is_space c' then String c "" :: Spec.words (String c' t)
          else match Spec.words (String c' t) with
               | w :: ws => String c w :: ws
               | [] => [String c ""]
               end).
  rewrite H, H'. reflexivity.
Qed.

Lemma words_char_char (c c' : ascii) (t : string) :
  is_space c = false -> is_space c' = false ->
  Spec.words (String c (String c' t))
  = match Spec.words (String c' t) with
    | w :: ws => String c w :: ws
    | [] => [String c ""]
    end.
Proof.
  intros H H'.
  change (Spec.words (String c (String c' t)))
    with (if is_space c then Spec.words (String c' t)
          else if is_space c' then String c "" :: Spec.words (String c' t)
          else match Spec.words (String c' t) with
               | w :: ws => String c w :: ws
               | [] => [String c ""]
               end).
  rewrite H, H'. reflexivity.
Qed.

Lemma trimEnd_cons (c : ascii) (t : string) :
  trimEnd (String c t)
  = match trimEnd t with
    | "" => if is_space c then "" else String c ""
    | String _ _ as r => String c r
    end.
Proof. reflexivity. Qed.

Lemma words_trimEnd (t : string) : Spec.words (trimEnd t) = Spec.words t.
Proof.
  induction t as [| c t IH]; [reflexivity |].
  rewrite trimEnd_cons.
  destruct (is_space c) eqn:Ec.
  - rewrite (words_cons_space c t Ec), <- IH.
    destruct (trimEnd t) as [| a s]; [reflexivity |].
    apply words_cons_space. exact Ec.
  - destruct t as [| c' t]; [reflexivity |].
    destruct (trimEnd_head c' t) as [[E Ec'] | [r E]]; rewrite E in *.
    + rewrite (words_char_space c c' t Ec Ec'), <- IH.
      apply words_single. exact Ec.
    + destruct (is_space c') eqn:Ec'.
      * rewrite !words_char_space by assumption. rewrite IH. reflexivity.
      * rewrite !words_char_char by assumption. rewrite IH. reflexivity.
Qed.

Lemma words_of_fixed (u : string) :
  u <> "" -> trimEnd u = u -> Spec.words u <> [].
Proof.
  induction u as [| c u IH]; [congruence |]. intros _ Hfix.
  destruct (is_space c) eqn:Ec.
  - rewrite (words_cons_space c u Ec).
    destruct (trimEnd_fixed_cons c u Hfix) as [[_ Hc] | [Hne Hfix']];
      [congruence | auto].
  - destruct (words_nonempty_head c u Ec) as (w & ws & ->). discriminate.
Qed.

Lemma join_cons_cons (sep x y : string) (rest : list string) :
  join sep (x :: y :: rest) = x ++ sep ++ join sep (y :: rest).
Proof. reflexivity. Qed.

Lemma join_prepend_char (c : ascii) (w : string) (ws : list string) :
  join " " (String c w :: ws) = String c (join " " (w :: ws)).
Proof. destruct ws; reflexivity. Qed.

(** On a text without trailing white space, collapsing the runs of white
    space leaves the words separated by single spaces, after a space if the
    text starts with white space. *)
Lemma collapse_words (u : string) :
  trimEnd u = u ->
  collapse_from true u = join " " (Spec.words u)
  /\ collapse_from false u
     = (if starts_with_space u
        then String " "%char (join " " (Spec.words u))
        else join " " (Spec.words u)).
Proof.
  induction u as [| c u IH]; [intros _; split; reflexivity |].
  intros Hfix.
  destruct (trimEnd_fixed_cons c u Hfix) as [[-> Hc] | [Hne Hfix']].
  - cbn. rewrite Hc. split; reflexivity.
  - destruct (IH Hfix') as [IHt IHf].
    destruct (is_space c) eqn:Ec.
    + rewrite (words_cons_space c u Ec). cbn. rewrite Ec, IHt.
      split; reflexivity.
    + assert (E : forall b, collapse_from b (String c u)
                            = String c (collapse_from false u)).
      { intros b. cbn. rewrite Ec. reflexivity. }
      rewrite !E, IHf. cbn [starts_with_space]. rewrite Ec.
      assert (G : String c (if starts_with_space u
                            then String " "%char (join " " (Spec.words u))
                            else join " " (Spec.words u))
                  = join " " (Spec.words (String c u))).
      { destruct u as [| c' u]; [congruence |].
        cbn [starts_with_space].
        destruct (is_space c') eqn:Ec'.
        - rewrite (words_char_space c c' u Ec Ec').
          destruct (Spec.words (String c' u)) as [| w ws] eqn:Ew.
          + exfalso. apply (words_of_fixed (String c' u)); auto.
          + reflexivity.
        - destruct (words_nonempty_head c' u Ec') as (w & ws & Ew).
          rewrite (words_char_char c c' u Ec Ec'), Ew.
          symmetry. apply join_prepend_char. }
      split; exact G.
Qed.

(** The code's normalization is the specification's: lowercase, trim and
    collapse give the lowercased words joined by single spaces. *)
Lemma normalizeAnswer_spec (v : JsValue) :
  Legacy.normalizeAnswer v = Spec.normalize (JsVal.toString v).
Proof.
  unfold Legacy.normalizeAnswer, Spec.normalize, collapse_spaces, trim.
  set (t := toLowerCase (JsVal.toString v)).
  destruct (collapse_words (trimEnd (trimStart t)) (trimEnd_idempotent _))
    as [_ H].
  rewrite H, trimEnd_no_leading_space by apply trimStart_no_leading_space.
  rewrite words_trimEnd, words_trimStart. reflexivity.
Qed.

Lemma normalize_unfold (s : string) :
  Spec.normalize s = collapse_spaces (trim (toLowerCase s)).
Proof. symmetry. apply (normalizeAnswer_spec (JStr s)). Qed.

Lemma existsb_map_toString (f : JsValue -> bool) (g : string -> bool)
    (l : list JsValue) :
  (forall v, f v = g (JsVal.toString v)) ->
  existsb f l = existsb g (List.map JsVal.toString l).
Proof.
  intros Hfg. induction l as [| v l IH]; [reflexivity |].
  cbn [List.map existsb]. rewrite IH, Hfg. reflexivity.
Qed.

(** C6, as the code has it, on ASCII text (the string functions of this
    file are JavaScript's there; case mapping and white space outside ASCII
    are not modelled).  [validateAnswer] holds a short answer correct iff
    its text (the answer printed as a string), normalized (lowercased,
    trimmed, internal white space collapsed to single spaces), equals the
    normalized form of an accepted answer.  [isCorrect] of the TypeScript
    question holds it correct iff it is a non-empty text that, lowercased
    and trimmed, equals an accepted answer lowercased and trimmed: internal
    white space is compared as it is.  Every answer it holds correct is
    correct in the normalized sense. *)
Theorem short_answer_evaluation :
  (forall (q : Legacy.Question) (submitted : JsValue),
      Legacy.type q = Legacy.short_answer ->
      is_ascii (JsVal.toString submitted) = true ->
      forallb is_ascii (Legacy.acceptedAnswers q) = true ->
      Legacy.validateAnswer q submitted
      = Spec.shortAnswerCorrect (Legacy.acceptedAnswers q)
          (JsVal.toString submitted))
  /\ (forall (q : Typed.Question) (s : string),
         Typed.type q = Typed.short_answer ->
         is_ascii s = true ->
         forallb is_ascii (Typed.correctAnswers q) = true ->
         Typed.isCorrect q (JStr s)
         = negb (String.eqb s "")
           && existsb (fun c => String.eqb (trim (toLowerCase s))
                                           (trim (toLowerCase c)))
                      (Typed.correctAnswers q))
  /\ (forall (q : Typed.Question) (s : string),
         Typed.type q = Typed.short_answer ->
         is_ascii s = true ->
         forallb is_ascii (Typed.correctAnswers q) = true ->
         Typed.isCorrect q (JStr s) = true ->
         Spec.shortAnswerCorrect (Typed.correctAnswers q) s = true).
Proof.
  split; [| split].
  - intros q submitted Ht _ _. unfold Legacy.validateAnswer, Legacy.acceptedAnswers,
      Spec.shortAnswerCorrect. rewrite Ht.
    destruct (Legacy.correctAnswer q) as [| | b | c | ca];
      try (cbn [existsb]; rewrite orb_false_r, !normalizeAnswer_spec;
           reflexivity).
    apply existsb_map_toString. intros v.
    rewrite !normalizeAnswer_spec. reflexivity.
  - intros q s Ht _ _. unfold Typed.isCorrect. rewrite Ht. cbn [JsVal.truthy].
    destruct (String.eqb s ""); reflexivity.
  - intros q s Ht _ _ H. unfold Typed.isCorrect in H. rewrite Ht in H.
    destruct (negb (JsVal.truthy (JStr s))); [discriminate |].
    apply existsb_exists in H. destruct H as (c & Hin & Heq).
    apply String.eqb_eq in Heq.
    unfold Spec.shortAnswerCorrect. apply existsb_exists. exists c.
    split; [exact Hin |]. apply String.eqb_eq.
    rewrite !normalize_unfold, Heq. reflexivity.
Qed.

Lemma short_answer_evaluation_witness :
  Legacy.validateAnswer Scenario.legacy_greeting_question (JStr "  hello   WORLD ")
  = Spec.shortAnswerCorrect ["Hello World"] "  hello   WORLD ".
Proof.
  apply (proj1 short_answer_evaluation Scenario.legacy_greeting_question
           (JStr "  hello   WORLD ")); reflexivity.
Defined.

(** C6 as the specification states it fails on [isCorrect]: an answer with
    two spaces between its words is normalized to the accepted answer, and
    is held incorrect. *)
Lemma doubled_space_is_incorrect :
  Spec.normalize "hello  world" = Spec.normalize "hello world"
  /\ Spec.shortAnswerCorrect (Typed.correctAnswers Scenario.greeting_question)
       "hello  world" = true
  /\ Typed.isCorrect Scenario.greeting_question (JStr "hello  world") = false.
Proof. vm_compute. auto. Qed.

End Normalization.

(** * The routers as a state machine *)

Section RouterCases.
Import Legacy.
Local Open Scope string_scope.

Lemma new_attempt_saved (now : Date) (req : StartRequest) (examId : ObjectId) :
  save_document nothingPopulated (new_attempt now req examId)
  = Some (new_attempt now req examId).
Proof. reflexivity. Qed.

(** The start handler either stores the new attempt or fails and leaves the
    database as it was. *)
Lemma start_exam_cases (now : Date) (newId : ObjectId) (db : Db)
    (req : StartRequest) :
  (exists examId e,
      ObjId.cast (sr_examId req) = Some examId
      /\ exams db !! examId = Some e
      /\ canTake (canUserTakeExam now db examId e (sr_user req)) = true
      /\ start_exam now newId db req
         = (store_attempt db newId (new_attempt now req examId),
            Success "Exam started successfully"
              (mkStartData newId (new_attempt now req examId) (duration e * 60))))
  \/ (fst (start_exam now newId db req) = db
      /\ is_success (snd (start_exam now newId db req)) = false).
Proof.
  unfold start_exam, Exam_findById.
  destruct (ObjId.cast (sr_examId req)) as [examId |]; [| right; auto].
  destruct (exams db !! examId) as [e |] eqn:He; [| right; auto].
  destruct (canTake (canUserTakeExam now db examId e (sr_user req))) eqn:Hc;
    cbn [negb]; [| right; auto].
  rewrite new_attempt_saved. left. exists examId, e. auto.
Qed.

(** The submit handler either stores the scored attempt or fails and leaves
    the database as it was. *)
Lemma submit_exam_cases (now : Date) (db : Db) (req : SubmitRequest) :
  (exists attemptId attempt e,
      ObjId.cast (sb_attemptId req) = Some attemptId
      /\ attempts db !! attemptId = Some attempt
      /\ student attempt = sb_user req
      /\ status attempt = in_progress
      /\ exams db !! exam attempt = Some e
      /\ schemaValid (submit_update now db e req attempt) = true
      /\ submit_exam now db req
         = (let updated := submit_update now db e req attempt in
            let stored := pre_save (examPopulated e) updated in
            (store_attempt db attemptId stored,
             Success "Exam submitted successfully"
               (mkSubmitData stored
                  (mkSubmitResult (totalScore updated) (maxPossibleScore updated)
                     (percentage stored) (passed updated)
                     (attempt_duration stored))))))
  \/ (fst (submit_exam now db req) = db
      /\ is_success (snd (submit_exam now db req)) = false).
Proof.
  unfold submit_exam, Exam_findById, save_document.
  destruct (ObjId.cast (sb_attemptId req)) as [aid |]; [| right; auto].
  destruct (findOwned db aid (sb_user req)) as [attempt |] eqn:Hf;
    [| right; auto].
  apply findOwned_Some in Hf as [Hl Hs].
  destruct (status attempt) eqn:Hst; cbn [Status_eqb negb]; try (right; auto; fail).
  destruct (exams db !! exam attempt) as [e |] eqn:He; [| right; auto].
  destruct (schemaValid (submit_update now db e req attempt)) eqn:Hv;
    [| right; auto].
  left. exists aid, attempt, e. rewrite Hst. auto 10.
Qed.

(** The fields of the attempt that the submit handler stores. *)
Lemma submit_stored_fields (now : Date) (db : Db) (e : Exam)
    (req : SubmitRequest) (attempt : Attempt) :
  let stored := pre_save (examPopulated e) (submit_update now db e req attempt) in
  student stored = student attempt
  /\ exam stored = exam attempt
  /\ startedAt stored = startedAt attempt
  /\ submittedAt stored = Some now
  /\ status stored = (if showResults e then graded else submitted)
  /\ answers stored = fst (submit_loop db (answers attempt) 0).
Proof.
  unfold pre_save, submit_update.
  destruct (submit_loop db (answers attempt) 0) as [answers' total].
  cbn -[Nat.ltb].
  destruct (Nat.ltb 0 (List.length answers')
            && negb (Status_eqb (if showResults e then graded else submitted)
                       in_progress));
    cbn; auto 10.
Qed.

End RouterCases.

Section LifecycleFacts.
Import Legacy Lifecycle.
Local Open Scope string_scope.

(** What a call does to the database: nothing, or one write of an attempt. *)
Lemma step_cases (db : Db) (c : Call) :
  step db c = db
  \/ (exists now newId req examId,
         c = CallStart now newId req
         /\ ObjId.cast (sr_examId req) = Some examId
         /\ step db c = store_attempt db newId (new_attempt now req examId))
  \/ (exists now req aid qid attempt q,
         c = CallAnswer now req
         /\ attempts db !! aid = Some attempt
         /\ status attempt = in_progress
         /\ ObjId.cast (ar_questionId req) = Some qid
         /\ step db c
            = store_attempt db aid
                (with_answers
                   (upsert_answer (ar_questionId req) (answerData qid q req)
                      (answers attempt))
                   attempt))
  \/ (exists now req aid attempt e,
         c = CallSubmit now req
         /\ attempts db !! aid = Some attempt
         /\ status attempt = in_progress
         /\ exams db !! exam attempt = Some e
         /\ step db c
            = store_attempt db aid
                (pre_save (examPopulated e) (submit_update now db e req attempt))).
Proof.
  destruct c as [now newId req | now req | now req]; cbn [step].
  - destruct (start_exam_cases now newId db req)
      as [(examId & e & Hc & _ & _ & Hrun) | [Hdb _]]; [| auto].
    right. left. exists now, newId, req, examId. rewrite Hrun. auto.
  - destruct (save_answer_outcome now db req)
      as [(aid & qid & attempt & q & He & Ha & Hf & Hc & Hq & Hv) | [Hdb _]];
      [| auto].
    right. right. left. exists now, req, aid, qid, attempt, q.
    rewrite (save_answer_run now db req aid qid attempt q He Ha Hf Hc Hq Hv).
    apply findInProgress_Some in Hf as (Hl & _ & Hst). auto 6.
  - destruct (submit_exam_cases now db req)
      as [(aid & attempt & e & Hc & Hl & _ & Hst & He & _ & Hrun) | [Hdb _]];
      [| auto].
    right. right. right. exists now, req, aid, attempt, e.
    rewrite Hrun. auto 6.
Qed.

(** No call touches the exams or the questions. *)
Lemma step_keeps_exams_questions (db : Db) (c : Call) :
  exams (step db c) = exams db /\ questions (step db c) = questions db.
Proof.
  destruct (step_cases db c)
    as [-> | [(? & ? & ? & ? & _ & _ & ->)
       | [(? & ? & ? & ? & ? & ? & _ & _ & _ & _ & ->)
       | (? & ? & ? & ? & ? & _ & _ & _ & _ & ->)]]]; auto.
Qed.

(** X1.  An attempt that has left the in-progress state is never written
    again: whatever calls follow (the driver handing out new identifiers),
    the stored document stays exactly as it is. *)
Theorem finished_attempt_is_immutable (db : Db) (calls : list Call)
    (id : ObjectId) (a : Attempt) :
  attempts db !! id = Some a ->
  status a <> in_progress ->
  fresh_ids db calls ->
  attempts (run db calls) !! id = Some a.
Proof.
  revert db. induction calls as [| c rest IH]; intros db Ha Hst Hfresh;
    [exact Ha |].
  cbn [run fold_left]. destruct Hfresh as [Hc Hrest].
  apply IH; [| exact Hst | exact Hrest].
  destruct (step_cases db c)
    as [-> | [(now & newId & req & examId & -> & _ & ->)
       | [(now & req & aid & qid & attempt & q & -> & Hl & Hip & _ & ->)
       | (now & req & aid & attempt & e & -> & Hl & Hip & _ & ->)]]];
    [exact Ha | | |]; cbn.
  - rewrite lookup_insert_ne; [exact Ha |]. intros ->. congruence.
  - rewrite lookup_insert_ne; [exact Ha |]. intros ->. congruence.
  - rewrite lookup_insert_ne; [exact Ha |]. intros ->. congruence.
Qed.

Lemma finished_attempt_is_immutable_witness :
  attempts (run Scenario.db_abandoned Examples.late_session) !! Scenario.attempt_id
  = Some Scenario.abandoned_attempt.
Proof.
  apply finished_attempt_is_immutable.
  - vm_compute. reflexivity.
  - vm_compute. discriminate.
  - vm_compute. auto.
Defined.

Lemma pre_save_answers (view : Populated) (a : Attempt) :
  answers (pre_save view a) = answers a
  /\ student (pre_save view a) = student a
  /\ exam (pre_save view a) = exam a
  /\ startedAt (pre_save view a) = startedAt a
  /\ status (pre_save view a) = status a
  /\ submittedAt (pre_save view a) = submittedAt a.
Proof.
  unfold pre_save.
  destruct (Nat.ltb 0 (List.length (answers a))
            && negb (Status_eqb (status a) in_progress)); cbn; auto 10.
Qed.

(** The loop of the submit handler keeps every answer in its place, with
    its question, the student's answer and the time spent. *)
Lemma submit_loop_keeps (db : Db) (l : list Answer) (t : Q) :
  List.map question (fst (submit_loop db l t)) = List.map question l
  /\ List.map studentAnswer (fst (submit_loop db l t)) = List.map studentAnswer l
  /\ List.map timeSpent (fst (submit_loop db l t)) = List.map timeSpent l.
Proof.
  revert t. induction l as [| a rest IH]; intros t; [cbn; auto |].
  cbn [submit_loop].
  destruct (Question_findById db (question a)) as [q |].
  - set (a' := if is_short_answer (type q) && negb (manuallyGraded a)
               then _ else a).
    assert (Ha' : question a' = question a /\ studentAnswer a' = studentAnswer a
                  /\ timeSpent a' = timeSpent a).
    { subst a'. destruct (is_short_answer (type q) && negb (manuallyGraded a));
        cbn; auto. }
    destruct Ha' as (E1 & E2 & E3).
    specialize (IH (t + JsNum.or_default (scoreAwarded a') 0)).
    destruct (submit_loop db rest (t + JsNum.or_default (scoreAwarded a') 0))
      as [rest' t'].
    cbn in *. destruct IH as (-> & -> & ->). rewrite E1, E2, E3. auto.
  - specialize (IH t). destruct (submit_loop db rest t) as [rest' t'].
    cbn in *. destruct IH as (-> & -> & ->). auto.
Qed.

(** X2.  No sequence of calls touches the exams or the questions, and
    none removes an attempt or changes the student, the exam or the start
    time it was created with. *)
Theorem run_keeps_identity (db : Db) (calls : list Call) :
  fresh_ids db calls ->
  exams (run db calls) = exams db
  /\ questions (run db calls) = questions db
  /\ (forall id a, attempts db !! id = Some a ->
        exists a', attempts (run db calls) !! id = Some a'
                   /\ student a' = student a /\ exam a' = exam a
                   /\ startedAt a' = startedAt a).
Proof.
  revert db. induction calls as [| c rest IH]; intros db Hfresh.
  - cbn. repeat split. intros id a Ha. exists a. auto.
  - cbn [run fold_left]. destruct Hfresh as [Hc Hrest].
    destruct (IH (step db c) Hrest) as (He & Hq & Hatt).
    destruct (step_keeps_exams_questions db c) as [He' Hq'].
    fold (run (step db c) rest).
    rewrite He, Hq, He', Hq'. repeat split.
    intros id a Ha.
    assert (Hstep : exists a1, attempts (step db c) !! id = Some a1
                      /\ student a1 = student a /\ exam a1 = exam a
                      /\ startedAt a1 = startedAt a).
    { destruct (step_cases db c)
        as [-> | [(now & newId & req & examId & -> & _ & ->)
           | [(now & req & aid & qid & attempt & q & -> & Hl & _ & _ & ->)
           | (now & req & aid & attempt & e & -> & Hl & _ & _ & ->)]]]; cbn.
      - exists a. auto.
      - exists a. rewrite lookup_insert_ne; [auto |]. intros ->. congruence.
      - destruct (string_dec aid id) as [-> | Hne].
        + rewrite lookup_insert_eq. eexists. split; [reflexivity |].
          rewrite Hl in Ha. injection Ha as ->. cbn. auto.
        + rewrite lookup_insert_ne by exact Hne. exists a. auto.
      - destruct (string_dec aid id) as [-> | Hne].
        + rewrite lookup_insert_eq. eexists. split; [reflexivity |].
          rewrite Hl in Ha. injection Ha as ->.
          destruct (submit_stored_fields now db e req a) as (-> & -> & -> & _).
          auto.
        + rewrite lookup_insert_ne by exact Hne. exists a. auto. }
    destruct Hstep as (a1 & Ha1 & E1 & E2 & E3).
    destruct (Hatt id a1 Ha1) as (a' & Ha' & F1 & F2 & F3).
    exists a'. rewrite F1, F2, F3. auto.
Qed.

Lemma run_keeps_identity_witness :
  exams (run Scenario.db0 Examples.session) = exams Scenario.db0
  /\ questions (run Scenario.db0 Examples.session) = questions Scenario.db0.
Proof.
  destruct (run_keeps_identity Scenario.db0 Examples.session
              ltac:(vm_compute; auto)) as (He & Hq & _).
  split; assumption.
Defined.

(** X3.  As long as the answer requests name their question by the
    canonical string of its identifier, every attempt holds at most one
    answer per question, whatever the sequence of calls. *)
Theorem runs_keep_one_answer_per_question (db : Db) (calls : list Call) :
  (forall id a, attempts db !! id = Some a -> one_answer_per_question a) ->
  List.Forall canonical_question calls ->
  forall id a, attempts (run db calls) !! id = Some a ->
               one_answer_per_question a.
Proof.
  revert db. induction calls as [| c rest IH]; intros db Hinv Hcan;
    [exact Hinv |].
  cbn [run fold_left]. inversion Hcan as [| ? ? Hc Hrest]; subst.
  apply IH; [| exact Hrest].
  intros id a.
  destruct (step_cases db c)
    as [-> | [(now & newId & req & examId & -> & _ & ->)
       | [(now & req & aid & qid & attempt & q & -> & Hl & _ & Hcast & ->)
       | (now & req & aid & attempt & e & -> & Hl & _ & _ & ->)]]]; cbn.
  - apply Hinv.
  - destruct (string_dec newId id) as [-> | Hne].
    + rewrite lookup_insert_eq. intros [= <-]. constructor.
    + rewrite lookup_insert_ne by exact Hne. apply Hinv.
  - destruct (string_dec aid id) as [-> | Hne].
    + rewrite lookup_insert_eq. intros [= <-].
      unfold one_answer_per_question. cbn.
      cbn in Hc. specialize (Hc qid Hcast). subst qid.
      apply (upsert_one_per_question
               (answerData (ar_questionId req) q req) (answers attempt)).
      apply (Hinv id attempt Hl).
    + rewrite lookup_insert_ne by exact Hne. apply Hinv.
  - destruct (string_dec aid id) as [-> | Hne].
    + rewrite lookup_insert_eq. intros [= <-].
      unfold one_answer_per_question.
      destruct (submit_stored_fields now db e req attempt)
        as (_ & _ & _ & _ & _ & ->).
      destruct (submit_loop_keeps db (answers attempt) 0) as (-> & _).
      apply (Hinv id attempt Hl).
    + rewrite lookup_insert_ne by exact Hne. apply Hinv.
Qed.

Lemma runs_keep_one_answer_per_question_witness :
  one_answer_per_question Examples.submitted_attempt.
Proof.
  apply (runs_keep_one_answer_per_question Scenario.db0 Examples.session)
    with (id := Scenario.attempt_id).
  - intros id a H. cbn in H. rewrite lookup_empty in H. discriminate.
  - constructor; [exact I |].
    constructor; [intros q H; vm_compute in H; injection H as <-; reflexivity |].
    constructor; [intros q H; vm_compute in H; injection H as <-; reflexivity |].
    constructor; [exact I | constructor].
  - vm_compute. reflexivity.
Defined.

(** An attempt in progress that was never scored passes the validators of
    the schema. *)
Lemma unscored_valid (a : Attempt) :
  unscored a -> status a = in_progress -> schemaValid a = true.
Proof.
  intros Hu Hst. destruct (Hu Hst) as [Hp _]. unfold schemaValid.
  rewrite Hp. reflexivity.
Qed.

Lemma step_keeps_unscored (db : Db) (c : Call) :
  (forall id a, attempts db !! id = Some a -> unscored a) ->
  forall id a, attempts (step db c) !! id = Some a -> unscored a.
Proof.
  intros Hinv id a.
  destruct (step_cases db c)
    as [-> | [(now & newId & req & examId & -> & _ & ->)
       | [(now & req & aid & qid & attempt & q & -> & Hl & Hst & _ & ->)
       | (now & req & aid & attempt & e & -> & Hl & _ & _ & ->)]]]; cbn.
  - apply Hinv.
  - destruct (string_dec newId id) as [-> | Hne].
    + rewrite lookup_insert_eq. intros [= <-] _. cbn. auto.
    + rewrite lookup_insert_ne by exact Hne. apply Hinv.
  - destruct (string_dec aid id) as [-> | Hne].
    + rewrite lookup_insert_eq. intros [= <-] _. cbn.
      apply (Hinv id attempt Hl Hst).
    + rewrite lookup_insert_ne by exact Hne. apply Hinv.
  - destruct (string_dec aid id) as [-> | Hne].
    + rewrite lookup_insert_eq. intros [= <-] Hst'. exfalso.
      destruct (submit_stored_fields now db e req attempt)
        as (_ & _ & _ & _ & Hs & _).
      rewrite Hs in Hst'. destruct (showResults e); discriminate.
    + rewrite lookup_insert_ne by exact Hne. apply Hinv.
Qed.

(** X4.  In a database reached by calls from one without attempts, an
    attempt in progress has no percentage and no submission time, so the
    validators that the schema declares on the percentage accept it. *)
Theorem reachable_attempts_unscored (db : Db) (calls : list Call) :
  attempts db = ∅ ->
  forall id a,
    attempts (run db calls) !! id = Some a ->
    status a = in_progress ->
    percentage a = None /\ submittedAt a = None /\ schemaValid a = true.
Proof.
  intros Hempty.
  assert (Hinv : forall id a, attempts (run db calls) !! id = Some a -> unscored a).
  { assert (H0 : forall id a, attempts db !! id = Some a -> unscored a).
    { intros id a. rewrite Hempty, lookup_empty. discriminate. }
    clear Hempty. revert db H0.
    induction calls as [| c rest IH]; intros db H0; [exact H0 |].
    cbn [run fold_left]. apply IH. apply step_keeps_unscored. exact H0. }
  intros id a Hl Hst. destruct (Hinv id a Hl Hst) as [Hp Hs].
  split; [exact Hp | split; [exact Hs |]].
  apply unscored_valid; [exact (Hinv id a Hl) | exact Hst].
Qed.

Lemma reachable_attempts_unscored_witness :
  percentage Examples.answered_attempt = None
  /\ submittedAt Examples.answered_attempt = None
  /\ schemaValid Examples.answered_attempt = true.
Proof.
  apply (reachable_attempts_unscored Scenario.db0 Examples.open_session
           eq_refl Scenario.attempt_id Examples.answered_attempt).
  - vm_compute. reflexivity.
  - reflexivity.
Defined.

End LifecycleFacts.

(** * What a submission stores and reports *)

Section SubmitFacts.
Import Legacy Scoring.
Local Open Scope string_scope.

Lemma submit_loop_length (db : Db) (l : list Answer) (t : Q) :
  List.length (fst (submit_loop db l t)) = List.length l.
Proof.
  destruct (submit_loop_keeps db l t) as [H _].
  rewrite <- (List.length_map question), H. apply List.length_map.
Qed.

(** X5.  A successful submission closes the attempt: it is stored with
    a status other than in-progress and the time of submission, the time
    spent reported is the whole number of seconds since the start, a second
    submission is refused with 400, and every later answer for the attempt
    is refused with 404; neither changes the database. *)
Theorem submitted_attempt_is_closed (now : Date) (db db' : Db)
    (req : SubmitRequest) (message : string) (data : SubmitData) :
  submit_exam now db req = (db', Success message data) ->
  status (sbd_attempt data) <> in_progress
  /\ submittedAt (sbd_attempt data) = Some now
  /\ r_timeSpent (sbd_result data)
     = Some ((now - startedAt (sbd_attempt data)) / 1000)%Z
  /\ (forall now',
         submit_exam now' db' req = (db', Failure 400 "Attempt already submitted"))
  /\ (forall now' areq,
         ar_errors areq = [] ->
         ObjId.cast (ar_attemptId areq) = ObjId.cast (sb_attemptId req) ->
         save_answer now' db' areq
         = (db', Failure 404 "Attempt not found or already submitted")).
Proof.
  intros H.
  destruct (submit_exam_cases now db req)
    as [(aid & attempt & e & Hc & Hl & Hs & Hst & He & Hv & Hrun) | [_ Hfail]].
  2: { rewrite H in Hfail. discriminate. }
  rewrite Hrun in H. cbv zeta in H. injection H as <- _ <-.
  destruct (submit_stored_fields now db e req attempt)
    as (Es & Ee & Est & Esub & Estat & _).
  set (stored := pre_save (examPopulated e) (submit_update now db e req attempt)) in *.
  assert (Hnip : status stored <> in_progress).
  { rewrite Estat. destruct (showResults e); discriminate. }
  assert (Hlk : attempts (store_attempt db aid stored) !! aid = Some stored).
  { cbn. apply lookup_insert_eq. }
  cbn [sbd_attempt sbd_result r_timeSpent].
  split; [exact Hnip | split; [exact Esub | split; [| split]]].
  - unfold attempt_duration. rewrite Esub. reflexivity.
  - intros now'. unfold submit_exam. rewrite Hc.
    assert (Hf : findOwned (store_attempt db aid stored) aid (sb_user req)
                 = Some stored).
    { apply findOwned_Some. split; [exact Hlk | congruence]. }
    rewrite Hf. destruct (status stored); [contradiction | | |]; reflexivity.
  - intros now' areq Herr Hcast. unfold save_answer. rewrite Herr, Hcast, Hc.
    assert (Hf : findInProgress (store_attempt db aid stored) aid (ar_user areq)
                 = None).
    { unfold findInProgress. rewrite Hlk.
      destruct (status stored); [contradiction | | |];
        cbn; rewrite andb_false_r; reflexivity. }
    rewrite Hf. reflexivity.
Qed.

Lemma submitted_attempt_is_closed_witness :
  submit_exam 60000 Examples.db_submitted Scenario.submit_request
  = (Examples.db_submitted, Failure 400 "Attempt already submitted").
Proof.
  destruct (submitted_attempt_is_closed 50000 Examples.db_answered
              Examples.db_submitted Scenario.submit_request
              "Exam submitted successfully" Examples.submitted_data
              ltac:(vm_compute; reflexivity)) as (_ & _ & _ & H & _).
  apply H.
Defined.

Lemma fold_add_zero {A : Type} (l : list A) :
  fold_left (fun (acc : Q) (_ : A) => acc + 0) l 0 = 0.
Proof. induction l as [| x l IH]; [reflexivity | exact IH]. Qed.

(** The hook on a scored attempt whose answers refer to their questions by
    identifier only. *)
Lemma calculateScores_unpopulated (e : Exam) (a : Attempt) :
  let a' := calculateScores (examPopulated e) a in
  maxPossibleScore a' = 0
  /\ percentage a' = Some 0
  /\ (0 <= passMark e -> passed a' = false).
Proof.
  unfold calculateScores, examPopulated.
  cbn [maxPossibleScore percentage passed populatedQuestion populatedExam].
  rewrite (fold_add_zero (answers a)).
  change (JsNum.gt 0 0) with false. cbv iota.
  repeat split.
  intros Hpm. unfold JsNum.ge, JsNum.or_default.
  destruct (Qeq_bool (passMark e) 0) eqn:E; [reflexivity |].
  destruct (Qle_bool (passMark e) 0) eqn:L; [| reflexivity].
  apply Qle_bool_iff in L. apply Qeq_bool_neq in E. exfalso. apply E.
  apply Qle_antisym; assumption.
Qed.

(** X6.  When an attempt with at least one answer is submitted, the
    [pre('save')] hook of the attempt recomputes the figures from answers
    whose questions are not populated: the attempt is stored with a maximum
    possible score of 0 and a percentage of 0, the percentage reported is 0,
    and the stored [passed] is [false] for every pass mark that is not
    negative. *)
Theorem submission_with_answers_stores_zero (now : Date) (db db' : Db)
    (req : SubmitRequest) (message : string) (data : SubmitData) :
  submit_exam now db req = (db', Success message data) ->
  answers (sbd_attempt data) <> [] ->
  maxPossibleScore (sbd_attempt data) = 0
  /\ percentage (sbd_attempt data) = Some 0
  /\ r_percentage (sbd_result data) = Some 0
  /\ (forall e, exams db !! exam (sbd_attempt data) = Some e ->
                0 <= passMark e -> passed (sbd_attempt data) = false).
Proof.
  intros H Hne.
  destruct (submit_exam_cases now db req)
    as [(aid & attempt & e & Hc & Hl & Hs & Hst & He & Hv & Hrun) | [_ Hfail]].
  2: { rewrite H in Hfail. discriminate. }
  rewrite Hrun in H. cbv zeta in H. injection H as <- _ <-.
  cbn [sbd_attempt sbd_result r_percentage] in *.
  destruct (submit_stored_fields now db e req attempt)
    as (_ & Ee & _ & _ & _ & Ea).
  set (updated := submit_update now db e req attempt) in *.
  assert (Hhook : pre_save (examPopulated e) updated
                  = calculateScores (examPopulated e) updated).
  { unfold pre_save.
    assert (Hans : answers updated <> []).
    { intros E0. apply Hne. destruct (pre_save_answers (examPopulated e) updated)
        as [-> _]. exact E0. }
    destruct (answers updated) as [| x l] eqn:El; [congruence |].
    destruct (submit_update_scores now db e req attempt) as (_ & _ & _ & _ & Hs').
    fold updated in Hs'. rewrite Hs'.
    destruct (showResults e); reflexivity. }
  rewrite Hhook in *.
  destruct (calculateScores_unpopulated e updated) as (H1 & H2 & H3).
  repeat split; try assumption.
  intros e' He' Hpm. cbn [calculateScores exam] in He'.
  change (exam (calculateScores (examPopulated e) updated)) with (exam updated)
    in He'.
  assert (exam updated = exam attempt).
  { unfold updated, submit_update.
    destruct (submit_loop db (answers attempt) 0). reflexivity. }
  assert (e' = e) by congruence. subst e'. apply H3. exact Hpm.
Qed.

Lemma submission_with_answers_stores_zero_witness :
  totalScore Examples.submitted_attempt = 5
  /\ maxPossibleScore Examples.submitted_attempt = 0
  /\ percentage Examples.submitted_attempt = Some 0.
Proof.
  destruct (submission_with_answers_stores_zero 50000 Examples.db_answered
              Examples.db_submitted Scenario.submit_request
              "Exam submitted successfully" Examples.submitted_data
              ltac:(vm_compute; reflexivity) ltac:(vm_compute; discriminate))
    as (H1 & H2 & _).
  split; [reflexivity | split; assumption].
Defined.





(** X8.  The percentage that a successful submission stores and reports
    is a number between 0 and 100. *)
Theorem reported_percentage_in_range (now : Date) (db db' : Db)
    (req : SubmitRequest) (message : string) (data : SubmitData) :
  submit_exam now db req = (db', Success message data) ->
  exists p, r_percentage (sbd_result data) = Some p
            /\ percentage (sbd_attempt data) = Some p
            /\ 0 <= p /\ p <= 100.
Proof.
  intros H.
  destruct (submit_exam_cases now db req)
    as [(aid & attempt & e & Hc & Hl & Hs & Hst & He & Hv & Hrun) | [_ Hfail]].
  2: { rewrite H in Hfail. discriminate. }
  rewrite Hrun in H. cbv zeta in H. injection H as <- _ <-.
  cbn [sbd_attempt sbd_result r_percentage].
  set (updated := submit_update now db e req attempt) in *.
  unfold pre_save.
  destruct (Nat.ltb 0 (List.length (answers updated))
            && negb (Status_eqb (status updated) in_progress)).
  - destruct (calculateScores_unpopulated e updated) as (_ & -> & _).
    exists 0. repeat split; [apply Qle_refl | discriminate].
  - unfold schemaValid in Hv.
    destruct (percentage updated) as [p |] eqn:Hp.
    + apply andb_true_iff in Hv as [H0 H100].
      apply Qle_bool_iff in H0, H100. exists p. auto.
    + destruct (submit_update_scores now db e req attempt) as (_ & _ & Hp' & _).
      fold updated in Hp'. congruence.
Qed.

Lemma reported_percentage_in_range_witness :
  exists p, r_percentage (sbd_result Examples.submitted_data) = Some p
            /\ 0 <= p /\ p <= 100.
Proof.
  destruct (reported_percentage_in_range 50000 Examples.db_answered
              Examples.db_submitted Scenario.submit_request
              "Exam submitted successfully" Examples.submitted_data
              ltac:(vm_compute; reflexivity)) as (p & Hr & _ & H0 & H1).
  exists p. auto.
Defined.

End SubmitFacts.

(** * Starting and answering *)

Section StartAnswerFacts.
Import Legacy LegacyExam.
Local Open Scope string_scope.

Lemma canTake_true_iff (now : Date) (db : Db) (examId : ObjectId) (e : Exam)
    (userId : ObjectId) :
  canTake (canUserTakeExam now db examId e userId) = true
  <-> isAvailable now e = true
      /\ ((Z.of_nat (countDocuments (countsAsAttempt examId userId) db)
           < maxAttempts e)%Z
          \/ allowRetakes e = true).
Proof.
  unfold canUserTakeExam.
  destruct (isAvailable now e); cbn [negb]; [| cbn; intuition discriminate].
  destruct (maxAttempts e <=? _)%Z eqn:Hle.
  - apply Z.leb_le in Hle.
    destruct (allowRetakes e); cbn; split; auto;
      intros [_ [Hlt | Hr]]; try discriminate; lia.
  - apply Z.leb_gt in Hle. cbn. split; auto.
Qed.

(** X9.  A start request succeeds exactly when its identifier names an
    exam of the database, the time lies in the window of availability of
    the exam, and retakes are allowed or fewer than [maxAttempts] attempts
    of the student for the exam are submitted or graded.  The status of the
    exam is never consulted. *)
Theorem start_exam_succeeds_iff (now : Date) (newId : ObjectId) (db : Db)
    (req : StartRequest) :
  is_success (snd (start_exam now newId db req)) = true
  <-> exists examId e,
        ObjId.cast (sr_examId req) = Some examId
        /\ exams db !! examId = Some e
        /\ (availableFrom e <= now <= availableTo e)%Z
        /\ ((Z.of_nat (countDocuments (countsAsAttempt examId (sr_user req)) db)
             < maxAttempts e)%Z
            \/ allowRetakes e = true).
Proof.
  assert (Hav : forall e, isAvailable now e = true
                          <-> (availableFrom e <= now <= availableTo e)%Z).
  { intros e. unfold isAvailable. rewrite andb_true_iff, !Z.leb_le. tauto. }
  split.
  - intros H.
    destruct (start_exam_cases now newId db req)
      as [(examId & e & Hc & He & Hcan & _) | [_ Hfail]]; [| congruence].
    apply canTake_true_iff in Hcan as [Ha Hcount].
    exists examId, e. rewrite <- Hav. auto.
  - intros (examId & e & Hc & He & Hw & Hcount).
    assert (Hcan : canTake (canUserTakeExam now db examId e (sr_user req)) = true).
    { apply canTake_true_iff. rewrite Hav. auto. }
    unfold start_exam, Exam_findById. rewrite Hc, He, Hcan. reflexivity.
Qed.

(** X10.  Before the window of an exam opens and after it has closed,
    a start request is refused with 403 and the reason that the exam is not
    available, whatever the attempts of the student and the retake
    setting; an exam that has ended is never available. *)
Theorem start_outside_window_refused (now : Date) (newId : ObjectId) (db : Db)
    (req : StartRequest) (examId : ObjectId) (e : Exam) :
  ObjId.cast (sr_examId req) = Some examId ->
  exams db !! examId = Some e ->
  (now < availableFrom e)%Z \/ hasEnded now e = true ->
  isAvailable now e = false
  /\ start_exam now newId db req
     = (db, Failure 403 "Exam is not available at this time").
Proof.
  intros Hc He Hout.
  assert (Ha : isAvailable now e = false).
  { unfold isAvailable, hasEnded in *. apply andb_false_iff.
    destruct Hout as [Hlt | Hend].
    - left. apply Z.leb_gt. exact Hlt.
    - right. apply Z.ltb_lt in Hend. apply Z.leb_gt. exact Hend. }
  split; [exact Ha |].
  unfold start_exam, Exam_findById, canUserTakeExam. rewrite Hc, He, Ha.
  reflexivity.
Qed.

Lemma start_outside_window_refused_witness :
  start_exam 2000000 Scenario.second_attempt_id Scenario.db0 Scenario.start_request
  = (Scenario.db0, Failure 403 "Exam is not available at this time").
Proof.
  refine (proj2 (start_outside_window_refused 2000000 Scenario.second_attempt_id
                   Scenario.db0 Scenario.start_request Scenario.exam_id
                   Scenario.exam60 _ _ _)).
  - vm_compute. reflexivity.
  - vm_compute. reflexivity.
  - right. vm_compute. reflexivity.
Defined.

Lemma upsert_length (rid : string) (d : Answer) (l : list Answer) :
  (List.length l <= List.length (upsert_answer rid d l) <= S (List.length l))%nat.
Proof.
  unfold upsert_answer.
  destruct (-1 <? findIndex (answersQuestion rid) l)%Z.
  - rewrite length_insert. lia.
  - rewrite length_app. cbn. lia.
Qed.

Lemma upsert_keeps_others (rid : string) (d : Answer) (l : list Answer) :
  answersQuestion rid d = true ->
  List.filter (fun a => negb (answersQuestion rid a)) (upsert_answer rid d l)
  = List.filter (fun a => negb (answersQuestion rid a)) l.
Proof.
  intros Hd. induction l as [| x rest IH].
  - rewrite upsert_nil. cbn. rewrite Hd. reflexivity.
  - destruct (answersQuestion rid x) eqn:E.
    + rewrite (upsert_cons_found rid d x rest E). cbn. rewrite Hd, E. reflexivity.
    + rewrite (upsert_cons_other rid d x rest E). cbn. rewrite E. cbn.
      f_equal. exact IH.
Qed.

(** X11.  A saved answer changes one attempt and, in it, only the list
    of answers: the exams, the questions and the other attempts are left as
    they were, no answer is removed (the list keeps its length or grows by
    one), and when the request names the question by the canonical string
    of its identifier the answers to the other questions stay as they were,
    in the same order. *)
Theorem save_answer_frame (now : Date) (db db' : Db) (req : AnswerRequest)
    (message : string) (data : AnswerData) :
  save_answer now db req = (db', Success message data) ->
  exists attemptId before after,
    ObjId.cast (ar_attemptId req) = Some attemptId
    /\ attempts db !! attemptId = Some before
    /\ attempts db' = <[attemptId := after]> (attempts db)
    /\ exams db' = exams db /\ questions db' = questions db
    /\ after = with_answers (answers after) before
    /\ (List.length (answers before) <= List.length (answers after)
        <= S (List.length (answers before)))%nat
    /\ (ObjId.cast (ar_questionId req) = Some (ar_questionId req) ->
        List.filter (fun a => negb (answersQuestion (ar_questionId req) a))
          (answers after)
        = List.filter (fun a => negb (answersQuestion (ar_questionId req) a))
            (answers before)).
Proof.
  intros H.
  destruct (save_answer_outcome now db req)
    as [(aid & qid & attempt & q & He & Ha & Hf & Hc & Hq & Hv) | [_ Hfail]].
  2: { rewrite H in Hfail. cbn in Hfail.
       repeat (destruct Hfail as [Hfail | Hfail]; [discriminate |]).
       destruct Hfail. }
  rewrite (save_answer_run now db req aid qid attempt q He Ha Hf Hc Hq Hv) in H.
  injection H as <- _ _.
  apply findInProgress_Some in Hf as (Hl & _ & _).
  exists aid, attempt. eexists. cbn.
  repeat split; try assumption; try reflexivity.
  - apply upsert_length.
  - apply upsert_length.
  - intros Hcanon. apply upsert_keeps_others.
    assert (qid = ar_questionId req) by congruence. subst qid.
    apply String.eqb_refl.
Qed.

Lemma save_answer_frame_witness :
  exists attemptId before after,
    attempts Scenario.db_started !! attemptId = Some before
    /\ attempts Examples.db_answered
       = <[attemptId := after]> (attempts Scenario.db_started)
    /\ exams Examples.db_answered = exams Scenario.db_started.
Proof.
  destruct (save_answer_frame 30 Scenario.db_started Examples.db_answered
              Scenario.answer_request "Answer saved successfully"
              (mkAnswerData true 5) ltac:(vm_compute; reflexivity))
    as (attemptId & before & after & _ & Hb & Ha & He & _).
  exists attemptId, before, after. auto.
Defined.

End StartAnswerFacts.

(** * Answers to multiple-choice and short-answer questions *)

Section LegacyAnswers.
Import Legacy.
Local Open Scope string_scope.

Lemma strict_eq_eq (x y : JsValue) : JsVal.strict_eq x y = true -> x = y.
Proof.
  destruct x, y; cbn; try discriminate; try reflexivity.
  - intros H. apply Bool.eqb_prop in H. congruence.
  - intros H. apply String.eqb_eq in H. congruence.
Qed.

Lemma strict_eq_refl (x : JsValue) :
  JsVal.isArray x = false -> JsVal.strict_eq x x = true.
Proof.
  destruct x; cbn; try reflexivity; try discriminate.
  - intros _. apply Bool.eqb_reflx.
  - intros _. apply String.eqb_refl.
Qed.

Lemma includes_In (arr : list JsValue) (v : JsValue) :
  JsVal.includes arr v = true -> List.In v arr.
Proof.
  unfold JsVal.includes. intros H. apply existsb_exists in H.
  destruct H as (x & Hin & Heq). apply strict_eq_eq in Heq. congruence.
Qed.

Lemma In_includes (arr : list JsValue) (v : JsValue) :
  JsVal.isArray v = false -> List.In v arr -> JsVal.includes arr v = true.
Proof.
  intros Hv Hin. unfold JsVal.includes. apply existsb_exists.
  exists v. split; [exact Hin | apply strict_eq_refl, Hv].
Qed.

(** X12.  For a multiple-choice question whose key is an array, a
    submitted array that repeats no element and holds no array is correct
    exactly when it is a rearrangement of the key: the order of the
    selected options does not matter, and a subset or a superset of the key
    is incorrect. *)
Theorem multiple_choice_order_irrelevant (q : Question) (sa ca : list JsValue) :
  type q = mcq_multiple ->
  correctAnswer q = JArr ca ->
  List.NoDup sa ->
  List.Forall (fun v => JsVal.isArray v = false) sa ->
  validateAnswer q (JArr sa) = true <-> Permutation sa ca.
Proof.
  intros Ht Hk Hnd Hprim. unfold validateAnswer. rewrite Ht, Hk.
  rewrite andb_true_iff, Nat.eqb_eq, forallb_forall. split.
  - intros [Hlen Hall]. apply NoDup_Permutation_bis; [exact Hnd | lia |].
    intros v Hin. apply includes_In, Hall, Hin.
  - intros Hperm. split; [apply Permutation_length, Hperm |].
    intros v Hin. apply In_includes.
    + rewrite List.Forall_forall in Hprim. apply Hprim, Hin.
    + apply (Permutation_in _ Hperm), Hin.
Qed.

Lemma multiple_choice_order_irrelevant_witness :
  validateAnswer Examples.multiple_question (JArr [JStr "C"; JStr "A"]) = true.
Proof.
  apply (proj2 (multiple_choice_order_irrelevant Examples.multiple_question
                  [JStr "C"; JStr "A"] [JStr "A"; JStr "C"] eq_refl eq_refl
                  ltac:(repeat constructor; cbn; intuition discriminate)
                  ltac:(repeat constructor))).
  apply perm_swap.
Defined.

End LegacyAnswers.

Section NormalizeTwice.
Import JsStr Words.
Local Open Scope string_scope.
Local Arguments is_space : simpl never.

Lemma lower_char_idempotent (c : ascii) :
  lower_char (lower_char c) = lower_char c.
Proof.
  destruct c as [[] [] [] [] [] [] [] []]; vm_compute; reflexivity.
Qed.

Lemma is_space_lower_char (c : ascii) : is_space (lower_char c) = is_space c.
Proof.
  destruct c as [[] [] [] [] [] [] [] []]; vm_compute; reflexivity.
Qed.

Lemma toLowerCase_idempotent (s : string) :
  toLowerCase (toLowerCase s) = toLowerCase s.
Proof.
  induction s as [| c s IH]; [reflexivity |].
  cbn. rewrite lower_char_idempotent, IH. reflexivity.
Qed.

Lemma toLowerCase_app (s t : string) :
  toLowerCase (s ++ t) = toLowerCase s ++ toLowerCase t.
Proof.
  induction s as [| c s IH]; [reflexivity |].
  change (toLowerCase (String c s ++ t))
    with (String (lower_char c) (toLowerCase (s ++ t))).
  rewrite IH. reflexivity.
Qed.

Lemma toLowerCase_join (l : list string) :
  toLowerCase (join " " l) = join " " (List.map toLowerCase l).
Proof.
  induction l as [| x [| y rest] IH]; [reflexivity | reflexivity |].
  rewrite join_cons_cons. cbn [List.map]. rewrite join_cons_cons.
  rewrite !toLowerCase_app, IH. reflexivity.
Qed.

Lemma words_toLowerCase (s : string) :
  Spec.words (toLowerCase s) = List.map toLowerCase (Spec.words s).
Proof.
  induction s as [| c s IH]; [reflexivity |].
  cbn [toLowerCase].
  destruct (is_space c) eqn:Ec.
  - rewrite (words_cons_space c s Ec).
    rewrite words_cons_space by (rewrite is_space_lower_char; exact Ec).
    exact IH.
  - assert (Ec' : is_space (lower_char c) = false)
      by (rewrite is_space_lower_char; exact Ec).
    destruct s as [| c2 s]; [rewrite !words_single by assumption; reflexivity |].
    cbn [toLowerCase] in *.
    destruct (is_space c2) eqn:E2.
    + assert (E2' : is_space (lower_char c2) = true)
        by (rewrite is_space_lower_char; exact E2).
      rewrite (words_char_space _ _ _ Ec E2), (words_char_space _ _ _ Ec' E2').
      rewrite IH. reflexivity.
    + assert (E2' : is_space (lower_char c2) = false)
        by (rewrite is_space_lower_char; exact E2).
      rewrite (words_char_char _ _ _ Ec E2), (words_char_char _ _ _ Ec' E2').
      rewrite IH. destruct (Spec.words (String c2 s)); reflexivity.
Qed.

Lemma words_are_words (s : string) : List.Forall word (Spec.words s).
Proof.
  induction s as [| c s IH]; [constructor |].
  destruct (is_space c) eqn:Ec.
  - rewrite (words_cons_space c s Ec). exact IH.
  - destruct s as [| c2 s].
    + rewrite (words_single c Ec). repeat constructor. exact Ec.
    + destruct (is_space c2) eqn:E2.
      * rewrite (words_char_space _ _ _ Ec E2).
        constructor; [constructor; exact Ec | exact IH].
      * rewrite (words_char_char _ _ _ Ec E2).
        destruct (Spec.words (String c2 s)) as [| w ws].
        -- repeat constructor. exact Ec.
        -- inversion IH; subst. constructor; [| assumption].
           apply word_cons; assumption.
Qed.

Lemma append_cons (c : ascii) (s t : string) :
  String c s ++ t = String c (s ++ t).
Proof. reflexivity. Qed.

Lemma append_empty (t : string) : "" ++ t = t.
Proof. reflexivity. Qed.

Lemma words_word_then_space (w t : string) :
  word w -> Spec.words (w ++ String " "%char t) = w :: Spec.words t.
Proof.
  induction 1 as [c Hc | c w Hc Hw IH].
  - rewrite append_cons, append_empty.
    rewrite (words_char_space c " "%char t Hc eq_refl).
    rewrite (words_cons_space " "%char t eq_refl). reflexivity.
  - rewrite append_cons.
    destruct Hw as [c2 Hc2 | c2 w2 Hc2 Hw2]; rewrite append_cons in *;
      rewrite (words_char_char c c2 _ Hc Hc2), IH; reflexivity.
Qed.

Lemma words_of_word (w : string) : word w -> Spec.words w = [w].
Proof.
  induction 1 as [c Hc | c w Hc Hw IH].
  - apply words_single. exact Hc.
  - destruct Hw as [c2 Hc2 | c2 w2 Hc2 Hw2];
      rewrite (words_char_char c c2 _ Hc Hc2), IH; reflexivity.
Qed.

Lemma words_join (ws : list string) :
  List.Forall word ws -> Spec.words (join " " ws) = ws.
Proof.
  induction ws as [| w [| w2 rest] IH]; intros Hall; [reflexivity | |].
  - inversion Hall; subst. apply words_of_word. assumption.
  - inversion Hall as [| ? ? Hw Hrest]; subst.
    rewrite join_cons_cons.
    change (w ++ " " ++ join " " (w2 :: rest))
      with (w ++ String " "%char (join " " (w2 :: rest))).
    rewrite (words_word_then_space w _ Hw), (IH Hrest). reflexivity.
Qed.

Lemma normalize_idempotent (s : string) :
  Spec.normalize (Spec.normalize s) = Spec.normalize s.
Proof.
  unfold Spec.normalize.
  rewrite toLowerCase_join, <- words_toLowerCase, toLowerCase_idempotent.
  rewrite words_join by apply words_are_words. reflexivity.
Qed.

(** X13.  [normalizeAnswer] is idempotent: a normalized text is its own
    normal form.  So, for a short-answer question, an answer and its
    normalized form are judged alike. *)
Theorem normalizeAnswer_idempotent (v : JsValue) :
  Legacy.normalizeAnswer (JStr (Legacy.normalizeAnswer v))
  = Legacy.normalizeAnswer v
  /\ (forall q : Legacy.Question,
         Legacy.type q = Legacy.short_answer ->
         Legacy.validateAnswer q (JStr (Legacy.normalizeAnswer v))
         = Legacy.validateAnswer q v).
Proof.
  assert (H : Legacy.normalizeAnswer (JStr (Legacy.normalizeAnswer v))
              = Legacy.normalizeAnswer v).
  { rewrite (normalizeAnswer_spec (JStr _)), (normalizeAnswer_spec v).
    apply normalize_idempotent. }
  split; [exact H |].
  intros q Ht. unfold Legacy.validateAnswer. rewrite Ht, H. reflexivity.
Qed.

End NormalizeTwice.

(** * Scores, percentages and time of the TypeScript attempt *)

Section TypedScores.
Import Typed TypedVirtuals Scoring.

Lemma sumQ_cons (x : Q) (l : list Q) : sumQ (x :: l) = x + sumQ l.
Proof. reflexivity. Qed.

Lemma sumQ_Permutation (l l' : list Q) :
  Permutation l l' -> sumQ l == sumQ l'.
Proof.
  induction 1 as [| x l l' _ IH | x y l | l l' l'' _ IH1 _ IH2].
  - reflexivity.
  - rewrite !sumQ_cons, IH. reflexivity.
  - rewrite !sumQ_cons. ring.
  - rewrite IH1. exact IH2.
Qed.

Lemma sumQ_abs_nonneg (l : list Q) : 0 <= sumQ (List.map Qabs l).
Proof.
  induction l as [| x l IH]; [apply Qle_refl |].
  cbn [List.map]. rewrite sumQ_cons. generalize (Qabs_nonneg x). lra.
Qed.

Lemma add_or_default (acc m : Q) :
  JsNum.add acc (JsNum.or_default m 0) = JsNum.add acc m.
Proof.
  unfold JsNum.add. apply fl_comp, Qplus_comp; [reflexivity |].
  apply or_default_zero.
Qed.

(** A whole multiple of [2^-k] of magnitude below [2^(53-k)] is a double. *)
Lemma on_grid_double (k : Z) (x : Q) :
  (0 <= k <= 1074)%Z -> on_grid k x -> Qabs x < 2 ^ (53 - k) ->
  JsNum.is_double x.
Proof.
  intros Hk [n Hn] Hx. exists n, (- k)%Z.
  split; [| split; [lia | exact Hn]].
  rewrite Hn, Qabs_Qmult in Hx.
  rewrite (Qabs_pos (2 ^ (- k))) in Hx by apply Qlt_le_weak, pow2_pos.
  replace (53 - k)%Z with (53 + - k)%Z in Hx by lia.
  rewrite pow2_plus in Hx.
  apply Qmult_lt_r in Hx; [| apply pow2_pos].
  assert (E : Qabs (inject_Z n) == inject_Z (Z.abs n)) by reflexivity.
  rewrite E, <- pow2_Z, <- Zlt_Qlt in Hx by lia. exact Hx.
Qed.

Lemma on_grid_plus (k : Z) (x y : Q) :
  on_grid k x -> on_grid k y -> on_grid k (x + y).
Proof.
  intros [n Hn] [m Hm]. exists (n + m)%Z.
  rewrite Hn, Hm, inject_Z_plus. ring.
Qed.

Lemma on_grid_comp (k : Z) (x y : Q) : x == y -> on_grid k x -> on_grid k y.
Proof. intros H [n Hn]. exists n. rewrite <- H. exact Hn. Qed.

(** While the running total stays on the grid and below [2^(53-k)], every
    addition is exact. *)
Lemma fold_marks_exact (k : Z) (l : list Answer) (acc : Q) :
  (0 <= k <= 1074)%Z ->
  on_grid k acc ->
  List.Forall (on_grid k) (List.map marksAwarded l) ->
  Qabs acc + sumQ (List.map Qabs (List.map marksAwarded l)) < 2 ^ (53 - k) ->
  fold_left (fun total a =>
               JsNum.add total (JsNum.or_default (marksAwarded a) 0)) l acc
  == acc + sumQ (List.map marksAwarded l).
Proof.
  intros Hk. revert acc. induction l as [| a l IH]; intros acc Hacc Hall Hsum.
  - cbn. ring.
  - cbn [fold_left List.map] in *. rewrite sumQ_cons in Hsum.
    apply List.Forall_cons_iff in Hall as [Ha Hall].
    assert (Hrest := sumQ_abs_nonneg (List.map marksAwarded l)).
    assert (Htri := Qabs_triangle acc (marksAwarded a)).
    assert (E0 : JsNum.add acc (JsNum.or_default (marksAwarded a) 0)
                 = JsNum.fl (acc + marksAwarded a))
      by apply add_or_default.
    assert (E1 : JsNum.fl (acc + marksAwarded a) == acc + marksAwarded a).
    { apply fl_exact, (on_grid_double k); [exact Hk | |].
      - apply on_grid_plus; assumption.
      - set (p := 2 ^ (53 - k)) in *. clearbody p. lra. }
    rewrite E0, IH, E1, sumQ_cons.
    + ring.
    + apply (on_grid_comp k (acc + marksAwarded a)); [symmetry; exact E1 |].
      apply on_grid_plus; assumption.
    + exact Hall.
    + rewrite E1. set (p := 2 ^ (53 - k)) in *. clearbody p. lra.
Qed.

Lemma on_grid_0 (k : Z) : on_grid k 0.
Proof. exists 0%Z. ring. Qed.

Lemma calculateScore_exact (k : Z) (a : ExamAttempt) :
  (0 <= k <= 1074)%Z ->
  List.Forall (on_grid k) (List.map marksAwarded (answers a)) ->
  sumQ (List.map Qabs (List.map marksAwarded (answers a))) < 2 ^ (53 - k) ->
  calculateScore a == sumQ (List.map marksAwarded (answers a)).
Proof.
  intros Hk Hall Hsum. unfold calculateScore.
  destruct (answers a) as [| x l] eqn:E; [reflexivity |].
  cbn [List.length Nat.eqb].
  rewrite (fold_marks_exact k (x :: l) 0 Hk (on_grid_0 k) Hall).
  - ring.
  - change (Qabs 0) with 0. set (p := 2 ^ (53 - k)) in *. clearbody p. lra.
Qed.

(** X14.  [calculateScore] adds the marks awarded to the answers from left
    to right in double arithmetic: one more answer adds its marks to the
    score, the sum rounded to a double.  When the marks are whole multiples
    of [2^-k] (whole marks, halves, quarters, ...) and their magnitudes sum
    to less than [2^(53-k)], no addition rounds: the score is the exact sum
    of the marks and does not depend on the order of the answers. *)
Theorem calculateScore_is_sum :
  (forall a b x, answers b = answers a ++ [x] ->
                 calculateScore b
                 = JsNum.add (calculateScore a) (marksAwarded x))
  /\ (forall (k : Z) (a : ExamAttempt),
        (0 <= k <= 1074)%Z ->
        List.Forall (on_grid k) (List.map marksAwarded (answers a)) ->
        sumQ (List.map Qabs (List.map marksAwarded (answers a))) < 2 ^ (53 - k) ->
        calculateScore a == sumQ (List.map marksAwarded (answers a))
        /\ forall b, Permutation (answers a) (answers b) ->
                     calculateScore b == calculateScore a).
Proof.
  split.
  - intros a b x Hb. unfold calculateScore. rewrite Hb.
    rewrite List.length_app, fold_left_app. cbn [List.length fold_left].
    replace (Nat.eqb (List.length (answers a) + 1) 0) with false
      by (symmetry; apply Nat.eqb_neq; lia).
    destruct (answers a) as [| y l]; cbn [List.length Nat.eqb fold_left];
      apply add_or_default.
  - intros k a Hk Hall Hsum.
    assert (Ha := calculateScore_exact k a Hk Hall Hsum).
    split; [exact Ha |]. intros b Hp.
    assert (Hpm : Permutation (List.map marksAwarded (answers a))
                              (List.map marksAwarded (answers b)))
      by apply Permutation_map, Hp.
    rewrite Ha, (calculateScore_exact k b Hk).
    + symmetry. apply sumQ_Permutation, Hpm.
    + apply (Permutation_Forall Hpm), Hall.
    + rewrite <- (sumQ_Permutation _ _ (Permutation_map Qabs Hpm)). exact Hsum.
Qed.

Lemma calculateScore_is_sum_witness :
  calculateScore Examples.quarter_marks_attempt == 9 # 4.
Proof.
  destruct (proj2 calculateScore_is_sum 2%Z Examples.quarter_marks_attempt)
    as [H _].
  - lia.
  - repeat constructor; [exists 10%Z | exists (-1)%Z]; reflexivity.
  - reflexivity.
  - rewrite H. reflexivity.
Defined.

Lemma Math_round_nonneg (x : Q) : 0 <= x -> (0 <= JsNum.Math_round x)%Z.
Proof.
  intros Hx. unfold JsNum.Math_round.
  change 0%Z with (Qfloor 0). apply Qfloor_resp_le. lra.
Qed.

Lemma Math_round_le (x : Q) (n : Z) :
  x <= inject_Z n -> (JsNum.Math_round x <= n)%Z.
Proof.
  intros Hx. destruct (Math_round_nearest x) as [Hle _].
  assert (H : inject_Z (JsNum.Math_round x) < inject_Z (n + 1)).
  { rewrite inject_Z_plus. change (inject_Z 1) with 1. lra. }
  rewrite <- Zlt_Qlt in H. lia.
Qed.


(** X15.  For an attempt whose score lies between 0 and its total
    marks, [calculatePercentage] is a whole number between 0 and 100; with
    no total marks it is 0, whatever the score. *)
Theorem calculatePercentage_in_range (a : ExamAttempt) :
  (0 < totalMarks a -> 0 <= score a -> score a <= totalMarks a ->
   exists n : Z, calculatePercentage a = inject_Z n /\ (0 <= n <= 100)%Z)
  /\ (totalMarks a == 0 -> calculatePercentage a = 0).
Proof.
  unfold calculatePercentage. split.
  - intros Hw H0 H1.
    assert (E : Qeq_bool (totalMarks a) 0 = false).
    { destruct (Qeq_bool (totalMarks a) 0) eqn:E; [| reflexivity].
      apply Qeq_bool_iff in E. lra. }
    rewrite E. eexists. split; [reflexivity |].
    destruct (percent_double (score a) (totalMarks a) Hw H0 H1) as (P0 & P1 & _).
    split; [apply Math_round_nonneg, P0 | apply Math_round_le, P1].
  - intros Hz. apply Qeq_bool_iff in Hz. rewrite Hz. reflexivity.
Qed.

Lemma calculatePercentage_in_range_witness :
  exists n : Z,
    calculatePercentage Scenario.one_of_three = inject_Z n /\ (0 <= n <= 100)%Z.
Proof.
  apply (proj1 (calculatePercentage_in_range Scenario.one_of_three));
    vm_compute; first [reflexivity | discriminate].
Defined.







End TypedScores.
(** * Saving the TypeScript attempt repeatedly *)

Section TypedHook.
Import Typed AttemptHook.

Lemma set_timeTaken_same (x : ExamAttempt) : set_timeTaken (timeTaken x) x = x.
Proof. destruct x; reflexivity. Qed.

Lemma set_score_same (x : ExamAttempt) : set_score (score x) x = x.
Proof. destruct x; reflexivity. Qed.

Lemma set_percentage_same (x : ExamAttempt) :
  set_percentage (percentage x) x = x.
Proof. destruct x; reflexivity. Qed.

Lemma set_passed_same (x : ExamAttempt) : set_passed (passed x) x = x.
Proof. destruct x; reflexivity. Qed.

Lemma has_answers_true (x : ExamAttempt) :
  Nat.ltb 0 (List.length (answers x)) = true <-> answers x <> [].
Proof.
  destruct (answers x); cbn; split; congruence.
Qed.

Lemma settled_fixed (now : Date) (x : ExamAttempt) :
  settled x -> pre_save now x = x.
Proof.
  intros (H1 & H2 & H3 & H4). unfold pre_save.
  assert (T : pre_save_time x = x).
  { unfold pre_save_time. destruct (endTime x) as [e |] eqn:E; [| reflexivity].
    rewrite <- (H1 e eq_refl). apply set_timeTaken_same. }
  rewrite T.
  assert (S : pre_save_score x = x).
  { unfold pre_save_score.
    destruct (Nat.ltb 0 (List.length (answers x))) eqn:E; [| reflexivity].
    apply has_answers_true in E. destruct (H2 E) as [Hs Hp].
    rewrite <- Hs, set_score_same, <- Hp. apply set_percentage_same. }
  rewrite S.
  assert (P : pre_save_passed x = x).
  { unfold pre_save_passed.
    destruct (JsNum.gt (percentage x) 0) eqn:E; [| reflexivity].
    rewrite <- (H3 eq_refl). apply set_passed_same. }
  rewrite P.
  unfold pre_save_stamps. fold (stamped x).
  destruct (stamped x); [| reflexivity].
  destruct (H4 eq_refl) as [Hsub Hend].
  destruct (submittedAt x); [| congruence].
  destruct (endTime x); [reflexivity | congruence].
Qed.

Lemma pre_save_eq (now : Date) (a : ExamAttempt) :
  pre_save now a
  = let has_answers := Nat.ltb 0 (List.length (answers a)) in
    let score' := if has_answers then calculateScore a else score a in
    let percentage' :=
      if has_answers
      then calculatePercentage (set_score (calculateScore a) a)
      else percentage a in
    mkExamAttempt (examId a) (studentId a) (attemptNumber a) (status a)
      (startTime a)
      (if stamped a then or_now now (endTime a) else endTime a)
      (if stamped a then or_now now (submittedAt a) else submittedAt a)
      (match endTime a with
       | Some e => JsNum.Math_floor_div (e - startTime a) 1000
       | None => timeTaken a
       end)
      score' percentage' (totalMarks a)
      (if JsNum.gt percentage' 0
       then JsNum.ge percentage' (passMarkOrDefault a) else passed a)
      (answers a) (exam a).
Proof.
  destruct a as [ei si an st stt en sub tt sc pc tm ps ans ex].
  destruct en as [en |], ans as [| a0 ans], sub as [sub |];
    cbv [pre_save pre_save_time pre_save_score pre_save_passed
         pre_save_stamps stamped isPassed passMarkOrDefault or_now
         calculateScore calculatePercentage
         set_timeTaken set_score set_percentage set_passed set_submittedAt
         set_endTime List.length Nat.ltb Nat.leb
         endTime answers status startTime submittedAt score percentage passed
         totalMarks exam timeTaken examId studentId attemptNumber].
  all: match goal with
       | |- context [JsNum.gt ?p 0] => destruct (JsNum.gt p 0)
       end.
  all: destruct (Status_eqb st submitted || Status_eqb st auto_submitted);
    reflexivity.
Qed.

Lemma calculateScore_ext (x y : ExamAttempt) :
  answers x = answers y -> calculateScore x = calculateScore y.
Proof. unfold calculateScore. intros ->. reflexivity. Qed.

Lemma calculatePercentage_ext (x y : ExamAttempt) :
  score x = score y -> totalMarks x = totalMarks y ->
  calculatePercentage x = calculatePercentage y.
Proof. unfold calculatePercentage. intros -> ->. reflexivity. Qed.

Lemma isPassed_ext (x y : ExamAttempt) :
  percentage x = percentage y -> exam x = exam y -> isPassed x = isPassed y.
Proof. unfold isPassed, passMarkOrDefault. intros -> ->. reflexivity. Qed.

Lemma stamped_or_now (now : Date) (b : bool) (v : option Date) :
  (if b then or_now now v else v) <> None <-> b = true \/ v <> None.
Proof.
  destruct b, v; cbn; split; intros H; try congruence; auto;
    destruct H; congruence.
Qed.

(** What one save establishes. *)
Lemma pre_save_once (now : Date) (a : ExamAttempt) :
  let y := pre_save now a in
  stamped y = stamped a
  /\ startTime y = startTime a
  /\ endTime y = (if stamped a then or_now now (endTime a) else endTime a)
  /\ submittedAt y
     = (if stamped a then or_now now (submittedAt a) else submittedAt a)
  /\ timeTaken y
     = match endTime a with
       | Some e => JsNum.Math_floor_div (e - startTime a) 1000
       | None => timeTaken a
       end
  /\ (answers y <> [] ->
      score y = calculateScore y /\ percentage y = calculatePercentage y)
  /\ (JsNum.gt (percentage y) 0 = true -> passed y = isPassed y).
Proof.
  intros y. subst y. rewrite pre_save_eq. cbv zeta.
  unfold stamped at 1.
  cbn [endTime answers status startTime submittedAt score percentage passed
       totalMarks exam timeTaken].
  fold (stamped a).
  repeat (split; [reflexivity |]). split.
  - intros Hans. apply has_answers_true in Hans. rewrite Hans. split.
    + apply calculateScore_ext. reflexivity.
    + apply calculatePercentage_ext; reflexivity.
  - intros Hgt. rewrite Hgt. reflexivity.
Qed.

Lemma pre_save_settled (now : Date) (a : ExamAttempt) :
  endTime a <> None \/ stamped a = false -> settled (pre_save now a).
Proof.
  intros Hend.
  destruct (pre_save_once now a) as (Hst & Hstart & He & Hs & Ht & Hsc & Hp).
  split; [| split; [exact Hsc | split; [exact Hp |]]].
  - intros e. rewrite He, Ht, Hstart.
    destruct (endTime a) as [e0 |].
    + destruct (stamped a); cbn; congruence.
    + destruct Hend as [Hend | Hend]; [congruence |]. rewrite Hend. congruence.
  - rewrite Hst, Hs, He. intros Hb. rewrite Hb.
    split; destruct (submittedAt a), (endTime a); cbn; congruence.
Qed.

Lemma pre_save_closed (now : Date) (a : ExamAttempt) :
  endTime (pre_save now a) <> None \/ stamped (pre_save now a) = false.
Proof.
  destruct (pre_save_once now a) as (Hst & _ & He & _).
  rewrite Hst, He. destruct (stamped a); [left | right; reflexivity].
  destruct (endTime a); cbn; congruence.
Qed.

(** X18.  Saving an attempt is idempotent from the second save on: a
    third save changes nothing.  The first save is already final when the
    attempt has an end time or is not (auto-)submitted. *)
Theorem pre_save_settles (t1 t2 t3 : Date) (a : ExamAttempt) :
  pre_save t3 (pre_save t2 (pre_save t1 a)) = pre_save t2 (pre_save t1 a)
  /\ (endTime a <> None \/ stamped a = false ->
      pre_save t2 (pre_save t1 a) = pre_save t1 a).
Proof.
  split.
  - apply settled_fixed, pre_save_settled, pre_save_closed.
  - intros H. apply settled_fixed, pre_save_settled, H.
Qed.

(** X19.  An attempt saved as submitted or auto-submitted with no end time
    gets its end time from that save, but its [timeTaken] only from the
    next one: the first save leaves [timeTaken] as it was, the second sets
    it to the whole seconds between the start and the first save. *)
Theorem pre_save_time_lags (t1 t2 : Date) (a : ExamAttempt) :
  stamped a = true -> endTime a = None ->
  endTime (pre_save t1 a) = Some t1
  /\ timeTaken (pre_save t1 a) = timeTaken a
  /\ timeTaken (pre_save t2 (pre_save t1 a))
     = JsNum.Math_floor_div (t1 - startTime a) 1000.
Proof.
  intros Hst Hend.
  destruct (pre_save_once t1 a) as (_ & Hstart & He & _ & Ht & _).
  destruct (pre_save_once t2 (pre_save t1 a)) as (_ & _ & _ & _ & Ht2 & _).
  rewrite Hst, Hend in He. rewrite Hend in Ht. cbn in He.
  rewrite He in Ht2. rewrite Hstart in Ht2. auto.
Qed.

Lemma pre_save_time_lags_witness :
  timeTaken (pre_save 90500 Scenario.one_of_three) = 0%Z
  /\ timeTaken (pre_save 91000 (pre_save 90500 Scenario.one_of_three)) = 90%Z.
Proof.
  destruct (pre_save_time_lags 90500 91000 Scenario.one_of_three
              eq_refl eq_refl) as (_ & H1 & H2).
  split; [exact H1 | exact H2].
Defined.

(** X20.  A save never overwrites a submission time or an end time that
    is set, and never sets either on an attempt that is not (auto-)submitted;
    on a submitted or auto-submitted attempt both are set afterwards. *)
Theorem pre_save_stamps_once (now : Date) (a : ExamAttempt) :
  let y := pre_save now a in
  status y = status a
  /\ (forall d, submittedAt a = Some d -> submittedAt y = Some d)
  /\ (forall d, endTime a = Some d -> endTime y = Some d)
  /\ (stamped a = false ->
      submittedAt y = submittedAt a /\ endTime y = endTime a)
  /\ (stamped a = true ->
      submittedAt y = or_now now (submittedAt a)
      /\ endTime y = or_now now (endTime a)).
Proof.
  intros y. subst y.
  destruct (pre_save_once now a) as (_ & _ & He & Hs & _).
  rewrite He, Hs. split.
  - rewrite pre_save_eq. reflexivity.
  - repeat split.
    + intros d ->. destruct (stamped a); reflexivity.
    + intros d ->. destruct (stamped a); reflexivity.
    + rewrite H. reflexivity.
    + rewrite H. reflexivity.
    + rewrite H. reflexivity.
    + rewrite H. reflexivity.
Qed.

End TypedHook.

(** * Questions of the TypeScript model *)

Section TypedQuestions.
Import Typed TypedQuestionHook.
Local Open Scope string_scope.

Lemma find_filter {A : Type} (p : A -> bool) (l : list A) :
  List.find p l = List.head (List.filter p l).
Proof.
  induction l as [| x l IH]; cbn; [reflexivity |].
  destruct (p x); [reflexivity | exact IH].
Qed.

Lemma validated_single (q : Question) :
  type q = mcq_single -> validation_error q = None ->
  (2 <= List.length (options q))%nat
  /\ exists o, List.filter opt_isCorrect (options q) = [o].
Proof.
  unfold validation_error. intros ->. cbn [has_options andb].
  destruct (Nat.ltb (List.length (options q)) 2) eqn:E2; [discriminate |].
  destruct (List.filter opt_isCorrect (options q)) as [| o [| o' l]] eqn:Ef;
    cbn; try discriminate.
  intros _. apply Nat.ltb_ge in E2. split; [exact E2 | exists o; reflexivity].
Qed.

(** X21.  A single-choice question that passes the checks of the
    question's save hook has at least two options and exactly one of them
    marked correct, and an answer is correct exactly when it is a string,
    not empty, equal to the text of that option. *)
Theorem single_choice_after_validation (q : Question) :
  type q = mcq_single -> validation_error q = None ->
  (2 <= List.length (options q))%nat
  /\ exists o,
       List.filter opt_isCorrect (options q) = [o]
       /\ forall answer,
            isCorrect q answer = true
            <-> answer = JStr (text o) /\ text o <> "".
Proof.
  intros Ht Hv. destruct (validated_single q Ht Hv) as (Hlen & o & Ho).
  split; [exact Hlen |]. exists o. split; [exact Ho |].
  intros answer. unfold isCorrect. rewrite Ht, find_filter, Ho.
  cbn [List.head]. destruct answer as [| | b | a | l];
    try (split; [discriminate | intros [H _]; discriminate]).
  cbn [JsVal.truthy]. rewrite negb_involutive.
  destruct (String.eqb a "") eqn:Ea.
  - apply String.eqb_eq in Ea. subst a. split; [discriminate |].
    intros [H Hne]. congruence.
  - apply String.eqb_neq in Ea. rewrite String.eqb_eq. split.
    + intros H. subst a. auto.
    + intros [H _]. congruence.
Qed.

Lemma single_choice_after_validation_witness :
  isCorrect Scenario.choice_question (JStr "A") = true.
Proof.
  destruct (single_choice_after_validation Scenario.choice_question
              eq_refl eq_refl) as (_ & o & Ho & Hiff).
  apply Hiff. vm_compute in Ho. injection Ho as <-.
  split; [reflexivity | discriminate].
Defined.

Lemma JStr_injective (l : list string) : List.NoDup l -> List.NoDup (List.map JStr l).
Proof.
  induction 1 as [| x l Hx _ IH]; cbn; constructor; [| exact IH].
  intros Hin. apply in_map_iff in Hin. destruct Hin as (y & E & Hy).
  congruence.
Qed.

(** X22.  For a multiple-choice question whose correct options carry
    distinct texts, an array is a correct answer exactly when it is a
    rearrangement of those texts: order does not matter, and missing, added
    or repeated selections are incorrect. *)
Theorem multiple_choice_is_rearrangement (q : Question) (arr : list JsValue) :
  type q = mcq_multiple ->
  List.NoDup (List.map text (List.filter opt_isCorrect (options q))) ->
  isCorrect q (JArr arr) = true
  <-> Permutation
        (List.map JStr (List.map text (List.filter opt_isCorrect (options q))))
        arr.
Proof.
  intros Ht Hnd. unfold isCorrect. rewrite Ht. cbv zeta.
  set (key := List.map text (List.filter opt_isCorrect (options q))) in *.
  destruct (Nat.eqb (List.length arr) (List.length key)) eqn:El; cbn [negb].
  - apply Nat.eqb_eq in El. rewrite forallb_forall. split.
    + intros Hall. apply NoDup_Permutation_bis.
      * apply JStr_injective, Hnd.
      * rewrite length_map. lia.
      * intros v Hin. apply in_map_iff in Hin. destruct Hin as (c & <- & Hc).
        apply includes_In, Hall, Hc.
    + intros Hperm c Hc. apply In_includes; [reflexivity |].
      apply (Permutation_in _ Hperm), in_map, Hc.
  - apply Nat.eqb_neq in El. split; [discriminate |].
    intros Hperm. apply Permutation_length in Hperm.
    rewrite length_map in Hperm. lia.
Qed.

Lemma multiple_choice_is_rearrangement_witness :
  isCorrect Examples.typed_multiple_question (JArr [JStr "C"; JStr "A"]) = true.
Proof.
  apply (proj2 (multiple_choice_is_rearrangement
                  Examples.typed_multiple_question [JStr "C"; JStr "A"] eq_refl
                  ltac:(repeat constructor; cbn; intuition discriminate))).
  apply perm_swap.
Defined.

End TypedQuestions.

(** * The security log *)

Section SecurityFacts.
Import SecurityLog.
Local Open Scope string_scope.

Lemma own_property_In (key : string) (m : list (string * string)) (v : string) :
  own_property key m = Some v -> List.In (key, v) m.
Proof.
  induction m as [| [k w] m IH]; cbn; [discriminate |].
  destruct (String.eqb k key) eqn:E.
  - apply String.eqb_eq in E. intros [= ->]. left. congruence.
  - intros H. right. exact (IH H).
Qed.

Lemma severityMap_values (key v : string) :
  List.In (key, v) severityMap -> List.In v ["low"; "medium"; "high"].
Proof.
  unfold severityMap. cbn [List.In].
  intros H. repeat (destruct H as [H | H]; [injection H as _ <-; cbn; auto |]).
  destruct H.
Qed.

Lemma schemaEvents_own (e : string) :
  List.In e schemaEvents -> exists s, own_property e severityMap = Some s.
Proof.
  unfold schemaEvents. cbn [List.In].
  intros H. repeat (destruct H as [H | H]; [subst e; eexists; reflexivity |]).
  destruct H.
Qed.

(** X23.  [addSecurityEvent] appends one entry, stamped with the
    current time, and keeps the earlier ones.  The severity it records is
    low, medium or high, never critical, unless the event names a member of
    [Object.prototype], in which case it is that member and no severity at
    all; for the events the schema admits it is always a severity. *)
Theorem security_event_severity
    (now : Date) (log : list SecurityEvent) (e : string) (d : option string) :
  exists entry,
    addSecurityEvent now log e d = (log ++ [entry])%list
    /\ timestamp entry = now /\ event entry = e
    /\ ((exists s, severity entry = Severity s
                   /\ List.In s ["low"; "medium"; "high"])
        \/ (severity entry = InheritedMember e
            /\ List.In e objectPrototypeKeys))
    /\ (List.In e schemaEvents ->
        exists s, severity entry = Severity s
                  /\ List.In s ["low"; "medium"; "high"]).
Proof.
  unfold addSecurityEvent. eexists. split; [reflexivity |].
  cbn [timestamp event severity]. split; [reflexivity | split; [reflexivity |]].
  unfold getEventSeverity.
  destruct (own_property e severityMap) as [s |] eqn:E.
  - assert (Hs : List.In s ["low"; "medium"; "high"]).
    { apply (severityMap_values e), own_property_In, E. }
    split; [left |]; eauto.
  - split.
    + destruct (existsb (String.eqb e) objectPrototypeKeys) eqn:Ex.
      * right. split; [reflexivity |].
        apply existsb_exists in Ex. destruct Ex as (k & Hk & Hek).
        apply String.eqb_eq in Hek. congruence.
      * left. exists "low". cbn. auto.
    + intros Hin. destruct (schemaEvents_own e Hin) as [s Hs]. congruence.
Qed.

End SecurityFacts.

(** * Access to a TypeScript exam *)

Section ExamAccessFacts.
Import TypedExamAccess.
Local Open Scope Z_scope.

(** X24.  A student can take a TypeScript exam only when the string
    passed is, character for character, one of the assigned identifiers and
    the exam is active; an active exam is available, published and inside
    its window; a public exam gives no access by itself.  An exam whose end
    date is not after its start date, which the save hook rejects, is
    active at most at that one instant. *)
Theorem canBeTakenBy_requires (now : Date) (e : ExamWindow) (studentId : string) :
  (canBeTakenBy now e studentId = true ->
   List.In studentId (assignedTo e) /\ isActive now e = true)
  /\ (isActive now e = true ->
      isAvailable now e = true /\ status e = published
      /\ startDate e <= now <= endDate e)
  /\ (assignedTo e = [] -> canBeTakenBy now e studentId = false)
  /\ (pre_save_error e <> None -> isActive now e = true ->
      now = startDate e /\ now = endDate e).
Proof.
  unfold canBeTakenBy, isActive, isAvailable, pre_save_error.
  split; [| split; [| split]].
  - destruct (existsb _ (assignedTo e)) eqn:Ex; cbn [negb]; [| discriminate].
    apply existsb_exists in Ex. destruct Ex as (id & Hin & Hid).
    apply String.eqb_eq in Hid. unfold ObjId.toString in Hid. subst id.
    destruct (is_published (status e) && (startDate e <=? now)
              && (now <=? endDate e)); cbn; [auto | discriminate].
  - intros H. apply andb_true_iff in H as [H H3].
    apply andb_true_iff in H as [H1 H2]. rewrite H1, H2.
    split; [reflexivity |]. split; [destruct (status e); cbn in H1; congruence |].
    lia.
  - intros ->. reflexivity.
  - destruct (endDate e <=? startDate e) eqn:Ed; [| congruence].
    intros _ H. apply andb_true_iff in H as [H H3].
    apply andb_true_iff in H as [H1 H2]. lia.
Qed.

End ExamAccessFacts.

(** * Remaining attempts *)

Section RemainingAttempts.
Import Typed.
Local Open Scope Z_scope.

Lemma used_length_Permutation (e : Exam) (s : ObjectId) (l l' : list ExamAttempt) :
  Permutation l l' ->
  List.length (List.filter (countsAsUsed e s) l)
  = List.length (List.filter (countsAsUsed e s) l').
Proof.
  intros H. induction H; cbn;
    repeat match goal with
           | |- context [countsAsUsed e s ?x] => destruct (countsAsUsed e s x)
           end; cbn; congruence.
Qed.

(** X25.  The remaining attempts of a student are never negative and
    never more than [maxAttempts]; they do not depend on the order of the
    collection; a further attempt that is submitted or auto-submitted by
    the student for the exam lowers them by one, down to 0, and any other
    further attempt leaves them as they are. *)
Theorem remaining_attempts_count
    (coll : list ExamAttempt) (e : Exam) (student : ObjectId) (a : ExamAttempt) :
  0 <= getRemainingAttempts coll e student <= Z.max 0 (maxAttempts e)
  /\ (forall coll', Permutation coll coll' ->
        getRemainingAttempts coll' e student
        = getRemainingAttempts coll e student)
  /\ getRemainingAttempts (a :: coll) e student
     = (if countsAsUsed e student a
        then Z.max 0 (getRemainingAttempts coll e student - 1)
        else getRemainingAttempts coll e student).
Proof.
  unfold getRemainingAttempts, JsNum.Math_max0. split; [lia | split].
  - intros coll' Hp. rewrite (used_length_Permutation e student _ _ Hp).
    reflexivity.
  - cbn [List.filter]. destruct (countsAsUsed e student a);
      cbn [List.length]; lia.
Qed.

End RemainingAttempts.

(** * The guard of the users router *)

Section UserAdminFacts.
Import UserAdmin.
Local Open Scope string_scope.

Variable schema_update : gmap string JsValue -> option (gmap string JsValue).

(** The update sets [role] and [isSuspended] only when its keys name them
    (besides, it may set other paths, as [timestamps] sets [updatedAt]). *)
Hypothesis schema_update_names :
  forall u paths k,
    k = "role" \/ k = "isSuspended" ->
    schema_update u = Some paths -> u !! k = None -> paths !! k = None.



End UserAdminFacts.

